(** * Package tracker aggregator: carrier detection, adapters, cache and
      orchestrator

    A shallow embedding of [backend/api] (models.py, carriers/base.py,
    carriers/usps.py, carriers/ups.py, carriers/fedex.py,
    carriers/__init__.py, tracker.py) and of the endpoints of main.py that
    use them (track, batch, detect, carriers), with the properties that the
    specification states of them and further properties of the code.

    Modelling conventions.
    - A Python [str] is a [string]; the model is of ASCII text: [upper] and
      [lower] change the letters a-z / A-Z and leave every other character
      as it is.
    - Code that can raise lives in the exception monad [exc]; the
      orchestrator, which also mutates the module-level cache, lives in the
      state-and-exception monad [M].  An exception is an instance of
      Python's [Exception], what [except Exception] catches.
    - Clock values ([time.monotonic], [datetime] instants) are integers.
      Each operation of the cache reads the timer for itself: the
      membership test, the read of a hit and the store have a reading
      each.
    - The wire formats (XML, JSON) are opaque: a carrier's reply is given by
      the fields that the parsing code extracts from it.
    - carriers/dhl.py and carriers/amazon.py are not among the sources: the
      two adapters are parameters of the registry.
    - cachetools.TTLCache is modelled after version 5 of the library. *)

From Stdlib Require Import ZArith NArith List String Ascii Bool Lia.
From Stdlib Require Import Sorted Permutation.
Import ListNotations.

Local Open Scope string_scope.
Local Open Scope Z_scope.

(** ** Python strings *)

Module Str.

Fixpoint map (f : ascii -> ascii) (s : string) : string :=
  match s with
  | EmptyString => EmptyString
  | String c s' => String (f c) (map f s')
  end.

Definition in_range (lo hi c : ascii) : bool :=
  (N_of_ascii lo <=? N_of_ascii c)%N && (N_of_ascii c <=? N_of_ascii hi)%N.

Definition upper_char (c : ascii) : ascii :=
  if in_range "a" "z" c then ascii_of_N (N_of_ascii c - 32) else c.

Definition lower_char (c : ascii) : ascii :=
  if in_range "A" "Z" c then ascii_of_N (N_of_ascii c + 32) else c.

(** [s.upper()] and [s.lower()] *)
Definition upper : string -> string := map upper_char.
Definition lower : string -> string := map lower_char.

(** [s.replace(old, "")] for a one-character [old] *)
Fixpoint remove (old : ascii) (s : string) : string :=
  match s with
  | EmptyString => EmptyString
  | String c s' =>
      if Ascii.eqb c old then remove old s' else String c (remove old s')
  end.

(** [s.replace(old, new)] for one-character [old] and [new] *)
Definition replace (old new : ascii) : string -> string :=
  map (fun c => if Ascii.eqb c old then new else c).

(** [s] with the prefix [p] taken off, when [s] starts with [p] *)
Fixpoint strip_prefix (p s : string) : option string :=
  match p, s with
  | EmptyString, _ => Some s
  | String a p', String b s' =>
      if Ascii.eqb a b then strip_prefix p' s' else None
  | String _ _, EmptyString => None
  end.

(** [needle in s] *)
Fixpoint contains (needle s : string) : bool :=
  match strip_prefix needle s with
  | Some _ => true
  | None =>
      match s with
      | EmptyString => false
      | String _ s' => contains needle s'
      end
  end.

End Str.

(** ** Regular expressions, as far as the tracking patterns use them *)

Module Re.

Inductive regex : Type :=
| Bol                                   (* ^ *)
| Eol                                   (* $ *)
| Lit (s : string)                      (* literal text *)
| Cls (ranges : list (ascii * ascii))   (* [a-bc-d] *)
| Alt (r1 r2 : regex)                   (* r1|r2 *)
| Cat (r1 r2 : regex)                   (* r1r2 *)
| Rep (r : regex) (n : nat).            (* r{n} *)

Definition in_class (ranges : list (ascii * ascii)) (c : ascii) : bool :=
  existsb (fun r => Str.in_range (fst r) (snd r) c) ranges.

Definition newline : ascii := ascii_of_N 10.

(** Without MULTILINE, [$] matches at the end of the string and just
    before a newline that ends the string. *)
Definition at_end (s : string) : bool :=
  match s with
  | EmptyString => true
  | String c EmptyString => Ascii.eqb c newline
  | _ => false
  end.

Definition is_empty (s : string) : bool :=
  match s with EmptyString => true | _ => false end.

(** Backtracking matcher.  [at0] tells whether no character has been
    consumed yet; [k] is what remains to be matched after [r]. *)
Fixpoint match_k (r : regex) (at0 : bool) (s : string)
         (k : bool -> string -> bool) {struct r} : bool :=
  match r with
  | Bol => at0 && k at0 s
  | Eol => at_end s && k at0 s
  | Lit lit =>
      match Str.strip_prefix lit s with
      | Some s' => k (at0 && is_empty lit) s'
      | None => false
      end
  | Cls ranges =>
      match s with
      | String c s' => in_class ranges c && k false s'
      | EmptyString => false
      end
  | Alt r1 r2 => match_k r1 at0 s k || match_k r2 at0 s k
  | Cat r1 r2 => match_k r1 at0 s (fun at0' s' => match_k r2 at0' s' k)
  | Rep r1 n =>
      (fix loop (n : nat) (at0 : bool) (s : string) : bool :=
         match n with
         | O => k at0 s
         | S n' => match_k r1 at0 s (fun at0' s' => loop n' at0' s')
         end) n at0 s
  end.

(** [re.match(pattern, s)] as a truth value: some prefix of [s] matches *)
Definition re_match (pattern : regex) (s : string) : bool :=
  match_k pattern true s (fun _ _ => true).

Definition digit : regex := Cls [("0", "9")]%char.
Definition upper_letter : regex := Cls [("A", "Z")]%char.
Definition upper_alnum : regex := Cls [("A", "Z"); ("0", "9")]%char.

End Re.

Declare Scope regex_scope.
Delimit Scope regex_scope with re.
Bind Scope regex_scope with Re.regex.
Notation "r1 +> r2" := (Re.Cat r1 r2)
  (at level 60, right associativity) : regex_scope.
Notation "r1 || r2" := (Re.Alt r1 r2) : regex_scope.

(** ** api/models.py *)

Module CarrierType.

Inductive t : Set :=
| USPS | UPS | FEDEX | DHL | AMAZON | ONTRAC | LASERSHIP | UNKNOWN.

Definition value (c : t) : string :=
  match c with
  | USPS => "usps"
  | UPS => "ups"
  | FEDEX => "fedex"
  | DHL => "dhl"
  | AMAZON => "amazon"
  | ONTRAC => "ontrac"
  | LASERSHIP => "lasership"
  | UNKNOWN => "unknown"
  end.

Definition eq_dec (a b : t) : {a = b} + {a <> b}.
Proof. decide equality. Defined.

Definition eqb (a b : t) : bool := if eq_dec a b then true else false.

Definition all : list t :=
  [USPS; UPS; FEDEX; DHL; AMAZON; ONTRAC; LASERSHIP; UNKNOWN].

End CarrierType.

Module PackageStatus.

Inductive t : Set :=
| PRE_TRANSIT | IN_TRANSIT | OUT_FOR_DELIVERY | DELIVERED
| EXCEPTION | RETURNED | UNKNOWN.

End PackageStatus.

(** A [datetime]: its position on the time line and whether it carries a
    time zone.  Python refuses to order a naive and an aware value. *)
Record datetime : Set := { instant : Z; tzaware : bool }.

Module TrackingEvent.

Record t : Set := {
  timestamp : datetime;
  status : string;
  location : option string;
  description : string;
  raw_status : option string
}.

End TrackingEvent.

Module Package.

Record t : Set := {
  id : string;
  tracking_number : string;
  carrier : CarrierType.t;
  carrier_detected : bool;
  nickname : option string;
  status : PackageStatus.t;
  estimated_delivery : option datetime;
  events : list TrackingEvent.t;
  last_updated : datetime;
  created_at : datetime;
  archived : bool;
  delivered_at : option datetime;
  source : option string
}.

(** [package.carrier_detected = b] *)
Definition set_carrier_detected (b : bool) (p : t) : t :=
  {| id := id p;
     tracking_number := tracking_number p;
     carrier := carrier p;
     carrier_detected := b;
     nickname := nickname p;
     status := status p;
     estimated_delivery := estimated_delivery p;
     events := events p;
     last_updated := last_updated p;
     created_at := created_at p;
     archived := archived p;
     delivered_at := delivered_at p;
     source := source p |}.

End Package.

Module TrackingResponse.

Record t : Set := {
  success : bool;
  package : option Package.t;
  error : option string;
  cached : bool
}.

End TrackingResponse.

(** ** Exceptions *)

Inductive Exn : Set := Exception (message : string).

Definition str (e : Exn) : string := let (m) := e in m.

Inductive exc (A : Type) : Type :=
| Return (a : A)
| Raise (e : Exn).
Arguments Return {A} a.
Arguments Raise {A} e.

Definition bind {A B : Type} (c : exc A) (k : A -> exc B) : exc B :=
  match c with
  | Return a => k a
  | Raise e => Raise e
  end.

Declare Scope exc_scope.
Delimit Scope exc_scope with exc.
Notation "x <- c ;; k" := (bind c (fun x => k))
  (at level 61, c at next level, right associativity) : exc_scope.

(** Truth value of an [Optional[str]]: [None] and [""] are false. *)
Definition truthy (o : option string) : bool :=
  match o with
  | None => false
  | Some s => negb (Re.is_empty s)
  end.

(** [d.get(k, default)] for a dict literal, given by its items *)
Fixpoint dict_get {V : Type} (d : list (string * V)) (k : string) (default : V) : V :=
  match d with
  | [] => default
  | (k', v) :: d' => if String.eqb k' k then v else dict_get d' k default
  end.

(** ** Ordering of datetimes and [sorted(events, key=timestamp, reverse=True)] *)

Definition datetime_lt (a b : datetime) : exc bool :=
  if Bool.eqb (tzaware a) (tzaware b)
  then Return (instant a <? instant b)
  else Raise (Exception "can't compare offset-naive and offset-aware datetimes").

(** [events[i].timestamp >= events[i+1].timestamp], evaluated by Python:
    the comparison is defined and holds. *)
Definition datetime_ge (a b : datetime) : Prop :=
  datetime_lt a b = Return false.

Local Open Scope exc_scope.

(** The sort is stable, also with [reverse=True]: events with equal
    timestamps keep their order.  A list that mixes naive and aware
    timestamps makes the sort raise TypeError. *)
Fixpoint insert_desc (x : TrackingEvent.t) (l : list TrackingEvent.t)
  : exc (list TrackingEvent.t) :=
  match l with
  | [] => Return [x]
  | y :: l' =>
      below <- datetime_lt (TrackingEvent.timestamp x) (TrackingEvent.timestamp y) ;;
      if (below : bool) then
        r <- insert_desc x l' ;;
        Return (y :: r)
      else Return (x :: y :: l')
  end.

Fixpoint sorted_by_timestamp_reverse (l : list TrackingEvent.t)
  : exc (list TrackingEvent.t) :=
  match l with
  | [] => Return []
  | x :: l' =>
      s <- sorted_by_timestamp_reverse l' ;;
      insert_desc x s
  end.

(** ** What a carrier adapter sees of the outside world during one call *)

(** The fields that a [_parse_response] extracts from a reply. *)
Inductive Extract : Set :=
| Malformed (e : Exn)
    (* walking the document or building an event raises *)
| Absent
    (* no tracking record: USPS has no TrackInfo element; UPS and FedEx
       fall back on the defaults of their [.get] calls *)
| Found (status_text : string) (events : list TrackingEvent.t).
    (* the status text handed to [parse_status] and the events, in the
       order of the document *)

Inductive Document : Set :=
| Undecodable (e : Exn)   (* not XML / not JSON at all *)
| Decoded (x : Extract).

Record HttpResponse : Set := { status_code : Z; body : Document }.

Module World.

Record t : Set := {
  monotonic : Z;          (* [time.monotonic()] in [cache_key in self.cache] *)
  monotonic_getitem : Z;  (* [time.monotonic()] in [self.cache[cache_key]] *)
  monotonic_store : Z;    (* [time.monotonic()] when the cache is written,
                             after the adapter has returned *)
  utcnow_instant : Z;     (* [datetime.utcnow()]; one reading serves a call *)
  token : exc string;     (* outcome of the OAuth2 token request *)
  reply : exc HttpResponse  (* outcome of the tracking request *)
}.

Definition utcnow (w : t) : datetime :=
  {| instant := utcnow_instant w; tzaware := false |}.

End World.

(** ** carriers/base.py *)

Module BaseCarrier.

(** The interface of a carrier adapter. *)
Record Carrier : Type := {
  carrier_type : CarrierType.t;
  validate_tracking_number : string -> bool;
  track : string -> World.t -> exc (option Package.t);
  parse_status : string -> PackageStatus.t
}.

Definition normalize_tracking_number (tracking_number : string) : string :=
  Str.remove "-" (Str.remove " " (Str.upper tracking_number)).

(** The inherited [validate_tracking_number], over the class attribute
    [tracking_patterns]. *)
Definition validate (tracking_patterns : list Re.regex)
           (tracking_number : string) : bool :=
  let cleaned := Str.remove "-" (Str.remove " " (Str.upper tracking_number)) in
  existsb (fun pattern => Re.re_match pattern cleaned) tracking_patterns.

End BaseCarrier.

Local Open Scope regex_scope.

(** ** carriers/usps.py *)

Module USPSCarrier.

Definition carrier_type : CarrierType.t := CarrierType.USPS.

Definition tracking_patterns : list Re.regex := [
  (* ^(94|93|92|95|96)[0-9]{20}$ *)
  Re.Bol +> (Re.Lit "94" || Re.Lit "93" || Re.Lit "92" || Re.Lit "95" || Re.Lit "96")
         +> Re.Rep Re.digit 20 +> Re.Eol;
  (* ^[A-Z]{2}[0-9]{9}[A-Z]{2}$ *)
  Re.Bol +> Re.Rep Re.upper_letter 2 +> Re.Rep Re.digit 9
         +> Re.Rep Re.upper_letter 2 +> Re.Eol;
  (* ^(70|14|23|03)[0-9]{14}$ *)
  Re.Bol +> (Re.Lit "70" || Re.Lit "14" || Re.Lit "23" || Re.Lit "03")
         +> Re.Rep Re.digit 14 +> Re.Eol;
  (* ^(M0|82)[0-9]{8}$ *)
  Re.Bol +> (Re.Lit "M0" || Re.Lit "82") +> Re.Rep Re.digit 8 +> Re.Eol
].

Record self : Set := { user_id : option string; api_url : string }.

Definition init (getenv : string -> option string) : self :=
  {| user_id := getenv "USPS_API_USER_ID";
     api_url := "https://secure.shippingapis.com/ShippingAPI.dll" |}.

Definition status_map : list (string * PackageStatus.t) := [
  ("pre_transit", PackageStatus.PRE_TRANSIT);
  ("transit", PackageStatus.IN_TRANSIT);
  ("delivered", PackageStatus.DELIVERED);
  ("out_for_delivery", PackageStatus.OUT_FOR_DELIVERY);
  ("exception", PackageStatus.EXCEPTION);
  ("returned", PackageStatus.RETURNED)
].

Definition parse_status (raw_status : string) : PackageStatus.t :=
  let raw_lower := Str.replace " " "_" (Str.lower raw_status) in
  dict_get status_map raw_lower PackageStatus.UNKNOWN.

Definition _parse_response (xml_data : Document) (tracking_number : string)
           (w : World.t) : option Package.t :=
  match xml_data with
  | Undecodable _ => None
  | Decoded (Malformed _) => None
  | Decoded Absent => None
  | Decoded (Found status_text events) =>
      match sorted_by_timestamp_reverse events with
      | Raise _ => None
      | Return sorted_events =>
          Some {| Package.id := "usps_" ++ tracking_number;
                  Package.tracking_number := tracking_number;
                  Package.carrier := carrier_type;
                  Package.carrier_detected := true;
                  Package.nickname := None;
                  Package.status := parse_status status_text;
                  Package.estimated_delivery := None;
                  Package.events := sorted_events;
                  Package.last_updated := World.utcnow w;
                  Package.created_at := World.utcnow w;
                  Package.archived := false;
                  Package.delivered_at := None;
                  Package.source := None |}
      end
  end.

Definition _mock_track (tracking_number : string) (w : World.t) : Package.t :=
  {| Package.id := "usps_" ++ tracking_number;
     Package.tracking_number := tracking_number;
     Package.carrier := carrier_type;
     Package.carrier_detected := true;
     Package.nickname := None;
     Package.status := PackageStatus.IN_TRANSIT;
     Package.estimated_delivery := None;
     Package.events := [
       {| TrackingEvent.timestamp := World.utcnow w;
          TrackingEvent.status := "In Transit";
          TrackingEvent.location := Some "Memphis, TN";
          TrackingEvent.description := "Arrived at Regional Facility";
          TrackingEvent.raw_status := Some "In Transit" |} ];
     Package.last_updated := World.utcnow w;
     Package.created_at := World.utcnow w;
     Package.archived := false;
     Package.delivered_at := None;
     Package.source := None |}.

Definition track (s : self) (tracking_number : string) (w : World.t)
  : exc (option Package.t) :=
  if negb (truthy (user_id s)) then Return (Some (_mock_track tracking_number w))
  else
    (response <- World.reply w ;;
     if negb (status_code response =? 200) then Return None
     else Return (_parse_response (body response) tracking_number w))%exc.

Definition carrier (s : self) : BaseCarrier.Carrier :=
  {| BaseCarrier.carrier_type := carrier_type;
     BaseCarrier.validate_tracking_number := BaseCarrier.validate tracking_patterns;
     BaseCarrier.track := track s;
     BaseCarrier.parse_status := parse_status |}.

End USPSCarrier.

(** ** carriers/ups.py *)

Module UPSCarrier.

Definition carrier_type : CarrierType.t := CarrierType.UPS.

Definition tracking_patterns : list Re.regex := [
  (* ^1Z[A-Z0-9]{16}$ *)
  Re.Bol +> Re.Lit "1Z" +> Re.Rep Re.upper_alnum 16 +> Re.Eol;
  (* ^[0-9]{9}$ *)
  Re.Bol +> Re.Rep Re.digit 9 +> Re.Eol;
  (* ^[A-Z]{2}[0-9]{9}US$ *)
  Re.Bol +> Re.Rep Re.upper_letter 2 +> Re.Rep Re.digit 9 +> Re.Lit "US" +> Re.Eol
].

Record self : Set := {
  client_id : option string;
  client_secret : option string;
  account_number : option string;
  base_url : string
}.

Definition init (getenv : string -> option string) : self :=
  {| client_id := getenv "UPS_CLIENT_ID";
     client_secret := getenv "UPS_CLIENT_SECRET";
     account_number := getenv "UPS_ACCOUNT_NUMBER";
     base_url := "https://onlinetools.ups.com/api/track/v1" |}.

Definition status_map : list (string * PackageStatus.t) := [
  ("pickup", PackageStatus.PRE_TRANSIT);
  ("intransit", PackageStatus.IN_TRANSIT);
  ("outforDelivery", PackageStatus.OUT_FOR_DELIVERY);
  ("delivered", PackageStatus.DELIVERED);
  ("exception", PackageStatus.EXCEPTION);
  ("returned", PackageStatus.RETURNED)
].

Definition parse_status (raw_status : string) : PackageStatus.t :=
  dict_get status_map (Str.lower raw_status) PackageStatus.UNKNOWN.

Definition _parse_response (data : Extract) (tracking_number : string)
           (w : World.t) : option Package.t :=
  match data with
  | Malformed _ => None
  | Absent | Found _ _ =>
      let '(current_status, events) :=
        match data with
        | Found current_status events => (current_status, events)
        | _ => ("", [])
        end in
      match sorted_by_timestamp_reverse events with
      | Raise _ => None
      | Return sorted_events =>
          Some {| Package.id := "ups_" ++ tracking_number;
                  Package.tracking_number := tracking_number;
                  Package.carrier := carrier_type;
                  Package.carrier_detected := true;
                  Package.nickname := None;
                  Package.status := parse_status current_status;
                  Package.estimated_delivery := None;
                  Package.events := sorted_events;
                  Package.last_updated := World.utcnow w;
                  Package.created_at := World.utcnow w;
                  Package.archived := false;
                  Package.delivered_at := None;
                  Package.source := None |}
      end
  end.

Definition _mock_track (tracking_number : string) (w : World.t) : Package.t :=
  {| Package.id := "ups_" ++ tracking_number;
     Package.tracking_number := tracking_number;
     Package.carrier := carrier_type;
     Package.carrier_detected := true;
     Package.nickname := None;
     Package.status := PackageStatus.OUT_FOR_DELIVERY;
     Package.estimated_delivery := None;
     Package.events := [
       {| TrackingEvent.timestamp := World.utcnow w;
          TrackingEvent.status := "Out for Delivery";
          TrackingEvent.location := Some "Local Facility";
          TrackingEvent.description := "Out for delivery today by 9:00 PM";
          TrackingEvent.raw_status := Some "OutForDelivery" |} ];
     Package.last_updated := World.utcnow w;
     Package.created_at := World.utcnow w;
     Package.archived := false;
     Package.delivered_at := None;
     Package.source := None |}.

Definition track (s : self) (tracking_number : string) (w : World.t)
  : exc (option Package.t) :=
  if negb (truthy (client_id s)) then Return (Some (_mock_track tracking_number w))
  else
    (access_token <- World.token w ;;
     response <- World.reply w ;;
     if negb (status_code response =? 200) then Return None
     else
       match body response with
       | Undecodable e => Raise e
       | Decoded data => Return (_parse_response data tracking_number w)
       end)%exc.

Definition carrier (s : self) : BaseCarrier.Carrier :=
  {| BaseCarrier.carrier_type := carrier_type;
     BaseCarrier.validate_tracking_number := BaseCarrier.validate tracking_patterns;
     BaseCarrier.track := track s;
     BaseCarrier.parse_status := parse_status |}.

End UPSCarrier.

(** ** carriers/fedex.py *)

Module FedExCarrier.

Definition carrier_type : CarrierType.t := CarrierType.FEDEX.

Definition tracking_patterns : list Re.regex := [
  (* ^[0-9]{12}$ *)
  Re.Bol +> Re.Rep Re.digit 12 +> Re.Eol;
  (* ^[0-9]{15}$ *)
  Re.Bol +> Re.Rep Re.digit 15 +> Re.Eol;
  (* ^[0-9]{20}$ *)
  Re.Bol +> Re.Rep Re.digit 20 +> Re.Eol;
  (* ^[0-9]{34}$ *)
  Re.Bol +> Re.Rep Re.digit 34 +> Re.Eol
].

Record self : Set := {
  client_id : option string;
  client_secret : option string;
  account_number : option string;
  base_url : string
}.

Definition init (getenv : string -> option string) : self :=
  {| client_id := getenv "FEDEX_CLIENT_ID";
     client_secret := getenv "FEDEX_CLIENT_SECRET";
     account_number := getenv "FEDEX_ACCOUNT_NUMBER";
     base_url := "https://apis.fedex.com/track/v1" |}.

Definition status_map : list (string * PackageStatus.t) := [
  ("picked_up", PackageStatus.PRE_TRANSIT);
  ("in_transit", PackageStatus.IN_TRANSIT);
  ("out_for_delivery", PackageStatus.OUT_FOR_DELIVERY);
  ("delivered", PackageStatus.DELIVERED);
  ("exception", PackageStatus.EXCEPTION);
  ("shipment_canceled", PackageStatus.EXCEPTION)
].

Definition parse_status (raw_status : string) : PackageStatus.t :=
  dict_get status_map (Str.replace " " "_" (Str.lower raw_status))
           PackageStatus.UNKNOWN.

Definition _parse_response (data : Extract) (tracking_number : string)
           (w : World.t) : option Package.t :=
  match data with
  | Malformed _ => None
  | Absent | Found _ _ =>
      let '(status_code, scan_events) :=
        match data with
        | Found status_code scan_events => (status_code, scan_events)
        | _ => ("", [])
        end in
      match sorted_by_timestamp_reverse scan_events with
      | Raise _ => None
      | Return sorted_events =>
          Some {| Package.id := "fedex_" ++ tracking_number;
                  Package.tracking_number := tracking_number;
                  Package.carrier := carrier_type;
                  Package.carrier_detected := true;
                  Package.nickname := None;
                  Package.status := parse_status status_code;
                  Package.estimated_delivery := None;
                  Package.events := sorted_events;
                  Package.last_updated := World.utcnow w;
                  Package.created_at := World.utcnow w;
                  Package.archived := false;
                  Package.delivered_at := None;
                  Package.source := None |}
      end
  end.

Definition _mock_track (tracking_number : string) (w : World.t) : Package.t :=
  {| Package.id := "fedex_" ++ tracking_number;
     Package.tracking_number := tracking_number;
     Package.carrier := carrier_type;
     Package.carrier_detected := true;
     Package.nickname := None;
     Package.status := PackageStatus.DELIVERED;
     Package.estimated_delivery := None;
     Package.events := [
       {| TrackingEvent.timestamp := World.utcnow w;
          TrackingEvent.status := "Delivered";
          TrackingEvent.location := Some "Front Porch";
          TrackingEvent.description := "Left at front porch. Signature not required.";
          TrackingEvent.raw_status := Some "Delivered" |} ];
     Package.last_updated := World.utcnow w;
     Package.created_at := World.utcnow w;
     Package.archived := false;
     Package.delivered_at := Some (World.utcnow w);
     Package.source := None |}.

Definition track (s : self) (tracking_number : string) (w : World.t)
  : exc (option Package.t) :=
  if negb (truthy (client_id s)) then Return (Some (_mock_track tracking_number w))
  else
    (access_token <- World.token w ;;
     response <- World.reply w ;;
     if negb (status_code response =? 200) then Return None
     else
       match body response with
       | Undecodable e => Raise e
       | Decoded data => Return (_parse_response data tracking_number w)
       end)%exc.

Definition carrier (s : self) : BaseCarrier.Carrier :=
  {| BaseCarrier.carrier_type := carrier_type;
     BaseCarrier.validate_tracking_number := BaseCarrier.validate tracking_patterns;
     BaseCarrier.track := track s;
     BaseCarrier.parse_status := parse_status |}.

End FedExCarrier.

Local Close Scope regex_scope.

(** ** carriers/__init__.py *)

Section Registry.

(** The process environment read by the adapters' constructors. *)
Variable getenv : string -> option string.

(** carriers/dhl.py and carriers/amazon.py are imported by the registry;
    the two adapters enter as arbitrary implementations of the adapter
    interface. *)
Variable DHLCarrier AmazonCarrier : BaseCarrier.Carrier.

(** The dict literal, in insertion order, which is its iteration order. *)
Definition CARRIERS : list (CarrierType.t * BaseCarrier.Carrier) := [
  (CarrierType.USPS, USPSCarrier.carrier (USPSCarrier.init getenv));
  (CarrierType.UPS, UPSCarrier.carrier (UPSCarrier.init getenv));
  (CarrierType.FEDEX, FedExCarrier.carrier (FedExCarrier.init getenv));
  (CarrierType.DHL, DHLCarrier);
  (CarrierType.AMAZON, AmazonCarrier)
].

Fixpoint first_valid (items : list (CarrierType.t * BaseCarrier.Carrier))
         (tracking_number : string) : CarrierType.t :=
  match items with
  | [] => CarrierType.UNKNOWN
  | (carrier_type, carrier) :: rest =>
      if BaseCarrier.validate_tracking_number carrier tracking_number
      then carrier_type
      else first_valid rest tracking_number
  end.

Definition detect_carrier (tracking_number : string) : CarrierType.t :=
  first_valid CARRIERS tracking_number.

(** [CARRIERS.get(carrier_type)] *)
Fixpoint lookup (items : list (CarrierType.t * BaseCarrier.Carrier))
         (carrier_type : CarrierType.t) : option BaseCarrier.Carrier :=
  match items with
  | [] => None
  | (k, carrier) :: rest =>
      if CarrierType.eqb k carrier_type then Some carrier
      else lookup rest carrier_type
  end.

Definition get_carrier (carrier_type : CarrierType.t) : option BaseCarrier.Carrier :=
  lookup CARRIERS carrier_type.

End Registry.

(** ** cachetools.TTLCache, as tracker.py uses it

    The links are kept in the order of the cache's ordered dict: least
    recently used first.  Every operation is given the reading [now] of the
    cache's timer.  An entry is live while [now < expires]. *)

Module TTLCache.

Record Link : Set := { key : string; value : Package.t; expires : Z }.

Record t : Set := { maxsize : Z; ttl : Z; links : list Link }.

Definition new (maxsize ttl : Z) : t :=
  {| maxsize := maxsize; ttl := ttl; links := [] |}.

Definition with_links (c : t) (ls : list Link) : t :=
  {| maxsize := maxsize c; ttl := ttl c; links := ls |}.

Fixpoint find (k : string) (ls : list Link) : option Link :=
  match ls with
  | [] => None
  | l :: ls' => if String.eqb (key l) k then Some l else find k ls'
  end.

Definition delete (k : string) (ls : list Link) : list Link :=
  filter (fun l => negb (String.eqb (key l) k)) ls.

(** [k in cache]: no reordering, no removal *)
Definition contains (now : Z) (k : string) (c : t) : bool :=
  match find k (links c) with
  | Some l => now <? expires l
  | None => false
  end.

(** [cache[k]]: the link moves to the most-recently-used end; a missing
    or expired key raises KeyError *)
Definition getitem (now : Z) (k : string) (c : t) : exc Package.t * t :=
  match find k (links c) with
  | None => (Raise (Exception k), c)
  | Some l =>
      let c' := with_links c (delete k (links c) ++ [l]) in
      if now <? expires l then (Return (value l), c')
      else (Raise (Exception k), c')
  end.

(** [cache.expire(now)] *)
Definition expire (now : Z) (c : t) : t :=
  with_links c (filter (fun l => now <? expires l) (links c)).

(** [while currsize + 1 > maxsize: popitem()]: the least recently used
    links go *)
Definition evict (maxsize : Z) (ls : list Link) : list Link :=
  skipn (Z.to_nat (Z.of_nat (List.length ls) + 1 - maxsize)) ls.

(** [cache[k] = v]; every value has size 1 *)
Definition setitem (now : Z) (k : string) (v : Package.t) (c : t) : exc unit * t :=
  let c1 := expire now c in
  if maxsize c1 <? 1 then (Raise (Exception "value too large"), c1)
  else
    let kept :=
      match find k (links c1) with
      | Some _ => delete k (links c1)
      | None => evict (maxsize c1) (links c1)
      end in
    (Return tt,
     with_links c1 (kept ++ [{| key := k; value := v; expires := now + ttl c1 |}])).

End TTLCache.

(** ** api/tracker.py *)

(** Calls that leave the orchestrator, in the order they are made. *)
Inductive Call : Set :=
| DetectCall (tracking_number : string)
| TrackCall (carrier : CarrierType.t) (tracking_number : string).

Record State : Set := {
  cache : TTLCache.t;     (* the module-level cache *)
  calls : list Call;      (* the calls made so far *)
  tick : nat              (* how many requests have been started *)
}.

(** The orchestrator's monad: state and exceptions.  What was changed
    before an exception stays changed. *)
Definition M (A : Type) : Type := State -> exc A * State.

Definition ret {A : Type} (a : A) : M A := fun st => (Return a, st).

Definition mbind {A B : Type} (c : M A) (k : A -> M B) : M B :=
  fun st =>
    match c st with
    | (Return a, st') => k a st'
    | (Raise e, st') => (Raise e, st')
    end.

Definition try_exceptM {A : Type} (body : M A) (handler : Exn -> M A) : M A :=
  fun st =>
    match body st with
    | (Return a, st') => (Return a, st')
    | (Raise e, st') => handler e st'
    end.

Declare Scope m_scope.
Delimit Scope m_scope with M.
Notation "x <- c ;; k" := (mbind c (fun x => k))
  (at level 61, c at next level, right associativity) : m_scope.
Notation "c ;; k" := (mbind c (fun _ => k))
  (at level 61, right associativity) : m_scope.

Definition with_cache (st : State) (c : TTLCache.t) : State :=
  {| cache := c; calls := calls st; tick := tick st |}.

Definition log (call : Call) : M unit :=
  fun st => (Return tt,
             {| cache := cache st; calls := calls st ++ [call]; tick := tick st |}).

Definition cache_contains (now : Z) (k : string) : M bool :=
  fun st => (Return (TTLCache.contains now k (cache st)), st).

Definition cache_getitem (now : Z) (k : string) : M Package.t :=
  fun st => let (r, c) := TTLCache.getitem now k (cache st) in (r, with_cache st c).

Definition cache_setitem (now : Z) (k : string) (v : Package.t) : M unit :=
  fun st => let (r, c) := TTLCache.setitem now k v (cache st) in (r, with_cache st c).

(** Lifts an adapter's outcome into the orchestrator. *)
Definition await {A : Type} (outcome : exc A) : M A := fun st => (outcome, st).

(** [await asyncio.gather] over the tasks, on the schedule on which each
    coroutine runs to its end before the next one starts; the first
    exception is passed on.  The other schedules of the event loop are the
    runs of [step] below. *)
Fixpoint gather {A : Type} (tasks : list (M A)) : M (list A) :=
  match tasks with
  | [] => ret []
  | task :: rest =>
      (r <- task ;;
       rs <- gather rest ;;
       ret (r :: rs))%M
  end.

Section PackageTracker.

Variable getenv : string -> option string.
Variable DHLCarrier AmazonCarrier : BaseCarrier.Carrier.

(** What the outside world holds for the n-th request. *)
Variable world : nat -> World.t.

(** How an f-string renders a member of the str-mixin enum; this depends
    on the interpreter's version. *)
Variable format_carrier : CarrierType.t -> string.

Local Abbreviation detect_carrier := (detect_carrier getenv DHLCarrier AmazonCarrier).
Local Abbreviation get_carrier := (get_carrier getenv DHLCarrier AmazonCarrier).

(** [cache = TTLCache(maxsize=1000, ttl=300)] and [PackageTracker()] *)
Definition init : State :=
  {| cache := TTLCache.new 1000 300; calls := []; tick := 0 |}.

Definition cache_key (tracking_number : string) (carrier : option CarrierType.t)
  : string :=
  (match carrier with
   | Some c => CarrierType.value c
   | None => "auto"
   end) ++ "_" ++ tracking_number.

Definition failure (error : string) : TrackingResponse.t :=
  {| TrackingResponse.success := false;
     TrackingResponse.package := None;
     TrackingResponse.error := Some error;
     TrackingResponse.cached := false |}.

(** Takes the world of this request and counts the request. *)
Definition enter : M World.t :=
  fun st => (Return (world (tick st)),
             {| cache := cache st; calls := calls st; tick := S (tick st) |}).

Local Open Scope m_scope.

Definition track_package (tracking_number : string)
           (carrier : option CarrierType.t) : M TrackingResponse.t :=
  w <- enter ;;
  let cache_key := cache_key tracking_number carrier in
  hit <- cache_contains (World.monotonic w) cache_key ;;
  if (hit : bool) then
    cached <- cache_getitem (World.monotonic_getitem w) cache_key ;;
    ret {| TrackingResponse.success := true;
           TrackingResponse.package := Some cached;
           TrackingResponse.error := None;
           TrackingResponse.cached := true |}
  else
    detection <-
      match carrier with
      | Some c => ret (c, false)
      | None =>
          log (DetectCall tracking_number) ;;
          ret (detect_carrier tracking_number, true)
      end ;;
    let '(detected_carrier, carrier_detected) := detection in
    if CarrierType.eqb detected_carrier CarrierType.UNKNOWN then
      ret (failure
        "Could not detect carrier from tracking number. Please specify manually.")
    else
      match get_carrier detected_carrier with
      | None =>
          ret (failure ("Carrier " ++ format_carrier detected_carrier
                        ++ " not supported"))
      | Some carrier_instance =>
          try_exceptM
            (log (TrackCall detected_carrier tracking_number) ;;
             package <- await (BaseCarrier.track carrier_instance
                                 tracking_number w) ;;
             match package with
             | Some package =>
                 let package :=
                   Package.set_carrier_detected carrier_detected package in
                 cache_setitem (World.monotonic_store w) cache_key package ;;
                 ret {| TrackingResponse.success := true;
                        TrackingResponse.package := Some package;
                        TrackingResponse.error := None;
                        TrackingResponse.cached := false |}
             | None =>
                 ret (failure "Unable to retrieve tracking information")
             end)
            (fun e => ret (failure ("Tracking failed: " ++ str e)))
      end.

Definition track_multiple (tracking_numbers : list string)
  : M (list TrackingResponse.t) :=
  let tasks := map (fun tn => track_package tn None) tracking_numbers in
  gather tasks.

(** [list(CARRIERS.keys())] *)
Definition get_supported_carriers : list CarrierType.t :=
  map fst (CARRIERS getenv DHLCarrier AmazonCarrier).

End PackageTracker.

(** ** main.py: the batch endpoint *)

Module BatchResponse.

Record t : Set := {
  results : list TrackingResponse.t;
  successful : nat;
  failed : nat
}.

End BatchResponse.

Section Main.

Variable getenv : string -> option string.
Variable DHLCarrier AmazonCarrier : BaseCarrier.Carrier.
Variable world : nat -> World.t.
Variable format_carrier : CarrierType.t -> string.

(** [sum(1 for r in results if cond(r))] *)
Definition count (cond : TrackingResponse.t -> bool)
           (results : list TrackingResponse.t) : nat :=
  List.length (filter cond results).

Definition track_batch (tracking_numbers : list string) : M BatchResponse.t :=
  (results <- track_multiple getenv DHLCarrier AmazonCarrier world format_carrier
                tracking_numbers ;;
   ret {| BatchResponse.results := results;
          BatchResponse.successful := count TrackingResponse.success results;
          BatchResponse.failed :=
            count (fun r => negb (TrackingResponse.success r)) results |})%M.

End Main.

(** ** Notions used to state what a request does *)

Section Requests.

Variable getenv : string -> option string.
Variable DHLCarrier AmazonCarrier : BaseCarrier.Carrier.

(** The carrier a request is dispatched to: the one given, or else the one
    detected. *)
Definition resolved_carrier (tracking_number : string)
           (carrier : option CarrierType.t) : CarrierType.t :=
  match carrier with
  | Some c => c
  | None => detect_carrier getenv DHLCarrier AmazonCarrier tracking_number
  end.

Definition was_detected (carrier : option CarrierType.t) : bool :=
  match carrier with
  | Some _ => false
  | None => true
  end.

Definition detection_calls (tracking_number : string)
           (carrier : option CarrierType.t) : list Call :=
  match carrier with
  | Some _ => []
  | None => [DetectCall tracking_number]
  end.

Definition hit (cached : Package.t) : TrackingResponse.t :=
  {| TrackingResponse.success := true;
     TrackingResponse.package := Some cached;
     TrackingResponse.error := None;
     TrackingResponse.cached := true |}.

Definition fetched (package : Package.t) : TrackingResponse.t :=
  {| TrackingResponse.success := true;
     TrackingResponse.package := Some package;
     TrackingResponse.error := None;
     TrackingResponse.cached := false |}.

(** What holds of the cache in every state the orchestrator reaches: it is
    the cache made at start-up, and each of its keys is the key of a
    request that was dispatched to a carrier. *)
Definition cache_invariant (st : State) : Prop :=
  TTLCache.maxsize (cache st) = 1000
  /\ TTLCache.ttl (cache st) = 300
  /\ forall l, In l (TTLCache.links (cache st)) ->
       exists tracking_number carrier,
         TTLCache.key l = cache_key tracking_number carrier
         /\ resolved_carrier tracking_number carrier <> CarrierType.UNKNOWN.

End Requests.

(** No entry under [key] expires between the membership test and the read
    of a hit: an entry that the test finds live is still live at the
    read. *)
Definition hit_survives (w : World.t) (key : string) (c : TTLCache.t) : Prop :=
  forall l, TTLCache.find key (TTLCache.links c) = Some l ->
    World.monotonic w < TTLCache.expires l ->
    World.monotonic_getitem w < TTLCache.expires l.


(** ** Concurrent requests

    A coroutine gives up control only where it awaits the network, inside
    the adapter's [track].  [track_package] is one uninterrupted stretch of
    code up to that await and one after it, and the event loop interleaves
    the stretches of the coroutines it was given.  An adapter that answers
    without reaching the network does not give up control at all; the
    relation [step] below lets the event loop switch at the await in either
    case, so that its runs are the runs of the program and more: what holds
    of every run of [step] holds of every run of the program. *)

Inductive Task : Type :=
| Pending (tracking_number : string) (carrier : option CarrierType.t)
    (* the coroutine was created and has not run yet *)
| Awaiting (tracking_number cache_key : string) (carrier_detected : bool)
           (outcome : exc (option Package.t)) (w : World.t)
    (* suspended in [carrier_instance.track]; [outcome] is what that call
       is going to deliver *)
| Done (response : TrackingResponse.t)
| Raised (e : Exn).

Section Scheduling.

Variable getenv : string -> option string.
Variable DHLCarrier AmazonCarrier : BaseCarrier.Carrier.
Variable world : nat -> World.t.
Variable format_carrier : CarrierType.t -> string.

Local Open Scope m_scope.

(** [track_package] from its first line to the await. *)
Definition track_package_until_await (tracking_number : string)
           (carrier : option CarrierType.t) : M Task :=
  w <- enter world ;;
  let cache_key := cache_key tracking_number carrier in
  hit <- cache_contains (World.monotonic w) cache_key ;;
  if (hit : bool) then
    cached <- cache_getitem (World.monotonic_getitem w) cache_key ;;
    ret (Done {| TrackingResponse.success := true;
                 TrackingResponse.package := Some cached;
                 TrackingResponse.error := None;
                 TrackingResponse.cached := true |})
  else
    detection <-
      match carrier with
      | Some c => ret (c, false)
      | None =>
          log (DetectCall tracking_number) ;;
          ret (detect_carrier getenv DHLCarrier AmazonCarrier tracking_number, true)
      end ;;
    let '(detected_carrier, carrier_detected) := detection in
    if CarrierType.eqb detected_carrier CarrierType.UNKNOWN then
      ret (Done (failure
        "Could not detect carrier from tracking number. Please specify manually."))
    else
      match get_carrier getenv DHLCarrier AmazonCarrier detected_carrier with
      | None =>
          ret (Done (failure ("Carrier " ++ format_carrier detected_carrier
                              ++ " not supported")))
      | Some carrier_instance =>
          log (TrackCall detected_carrier tracking_number) ;;
          ret (Awaiting tracking_number cache_key carrier_detected
                 (BaseCarrier.track carrier_instance tracking_number w) w)
      end.

(** [track_package] from the await to its end. *)
Definition track_package_after_await (cache_key : string) (carrier_detected : bool)
           (outcome : exc (option Package.t)) (w : World.t)
  : M TrackingResponse.t :=
  try_exceptM
    (package <- await outcome ;;
     match package with
     | Some package =>
         let package := Package.set_carrier_detected carrier_detected package in
         cache_setitem (World.monotonic_store w) cache_key package ;;
         ret {| TrackingResponse.success := true;
                TrackingResponse.package := Some package;
                TrackingResponse.error := None;
                TrackingResponse.cached := false |}
     | None => ret (failure "Unable to retrieve tracking information")
     end)
    (fun e => ret (failure ("Tracking failed: " ++ str e))).

(** The event loop's view of a batch: the shared state and one task per
    input, in the order of the inputs. *)
Record Pool : Type := { shared : State; tasks : list Task }.

Fixpoint set_nth {A : Type} (i : nat) (x : A) (l : list A) : list A :=
  match l, i with
  | [], _ => []
  | _ :: l', O => x :: l'
  | y :: l', S i' => y :: set_nth i' x l'
  end.

Definition settled {A : Type} (outcome : exc A) (done : A -> Task) : Task :=
  match outcome with
  | Return a => done a
  | Raise e => Raised e
  end.

(** One stretch of one coroutine. *)
Inductive step : Pool -> Pool -> Prop :=
| step_start : forall st ts i tracking_number carrier outcome st',
    nth_error ts i = Some (Pending tracking_number carrier) ->
    track_package_until_await tracking_number carrier st = (outcome, st') ->
    step {| shared := st; tasks := ts |}
         {| shared := st'; tasks := set_nth i (settled outcome (fun t => t)) ts |}
| step_resume : forall st ts i tracking_number key detected delivered w outcome st',
    nth_error ts i = Some (Awaiting tracking_number key detected delivered w) ->
    track_package_after_await key detected delivered w st = (outcome, st') ->
    step {| shared := st; tasks := ts |}
         {| shared := st'; tasks := set_nth i (settled outcome Done) ts |}.

Inductive steps : Pool -> Pool -> Prop :=
| steps_refl : forall p, steps p p
| steps_more : forall p q r, steps p q -> step q r -> steps p r.

(** The coroutines of some calls of [track_package], each given by its
    arguments, handed to the event loop. *)
Definition spawn (requests : list (string * option CarrierType.t)) (st : State)
  : Pool :=
  {| shared := st;
     tasks := map (fun request => Pending (fst request) (snd request)) requests |}.

(** [tasks = [self.track_package(tn) for tn in tracking_numbers]] *)
Definition batch (tracking_numbers : list string)
  : list (string * option CarrierType.t) :=
  map (fun tn => (tn, None)) tracking_numbers.

(** What [asyncio.gather] returns once every task is done: the responses
    in the order of the tasks. *)
Fixpoint gathered (ts : list Task) : option (list TrackingResponse.t) :=
  match ts with
  | [] => Some []
  | Done r :: ts' =>
      match gathered ts' with
      | Some rs => Some (r :: rs)
      | None => None
      end
  | _ :: _ => None
  end.



(** A response that [track_package] gives to this request, in some state
    whose cache the orchestrator can have. *)
Definition responds (request : string * option CarrierType.t)
           (r : TrackingResponse.t) : Prop :=
  exists st st',
    cache_invariant getenv DHLCarrier AmazonCarrier st
    /\ track_package getenv DHLCarrier AmazonCarrier world format_carrier
         (fst request) (snd request) st = (Return r, st').

(** What the slot of a request may hold while the event loop runs. *)
Definition slot_of (request : string * option CarrierType.t) (t : Task) : Prop :=
  match t with
  | Pending tn carrier => (tn, carrier) = request
  | Awaiting _ _ _ _ _ =>
      exists st st',
        cache_invariant getenv DHLCarrier AmazonCarrier st
        /\ track_package_until_await (fst request) (snd request) st
           = (Return t, st')
  | Done r => responds request r
  | Raised _ => False
  end.

(** The response that the second stretch makes of what the adapter
    delivered, when the cache takes the entry. *)
Definition delivered_response (carrier_detected : bool)
           (outcome : exc (option Package.t)) : TrackingResponse.t :=
  match outcome with
  | Return (Some package) =>
      fetched (Package.set_carrier_detected carrier_detected package)
  | Return None => failure "Unable to retrieve tracking information"
  | Raise e => failure ("Tracking failed: " ++ str e)
  end.

(** What holds of the event loop at every moment of a run. *)
Definition pool_invariant (requests : list (string * option CarrierType.t))
           (p : Pool) : Prop :=
  cache_invariant getenv DHLCarrier AmazonCarrier (shared p)
  /\ Forall2 slot_of requests (tasks p).

(** The states of the orchestrator: the one of process start, and every
    state that the event loop passes through while it runs requests,
    single or in batches, interleaved in any way. *)
Inductive reachable : State -> Prop :=
| reachable_init : reachable init
| reachable_run : forall st requests p,
    reachable st -> steps (spawn requests st) p -> reachable (shared p).

End Scheduling.

(** ** The words of the specification *)

(** Event ordering: [events[i].timestamp >= events[i+1].timestamp] for
    every index [i]. *)
Definition newest_first (e1 e2 : TrackingEvent.t) : Prop :=
  datetime_ge (TrackingEvent.timestamp e1) (TrackingEvent.timestamp e2).

Definition descending (events : list TrackingEvent.t) : Prop :=
  forall i e1 e2,
    nth_error events i = Some e1 ->
    nth_error events (S i) = Some e2 ->
    newest_first e1 e2.

(** Two raw statuses that differ only in letter case. *)
Definition is_letter (c : ascii) : bool :=
  Str.in_range "a" "z" c || Str.in_range "A" "Z" c.

Definition swap_case (c : ascii) : ascii :=
  if Str.in_range "a" "z" c then Str.upper_char c else Str.lower_char c.

Definition same_letter (c d : ascii) : bool :=
  Ascii.eqb c d || (is_letter c && Ascii.eqb (swap_case c) d).

Fixpoint differ_only_in_case (a b : string) : bool :=
  match a, b with
  | EmptyString, EmptyString => true
  | String c a', String d b' => same_letter c d && differ_only_in_case a' b'
  | _, _ => false
  end.

(** Two raw statuses that differ only in spaces. *)
Definition differ_only_in_spaces (a b : string) : bool :=
  String.eqb (Str.remove " " a) (Str.remove " " b).

(** A package that says of itself that it is synthetic: its origin tag, its
    nickname or the text of one of its events carries a word to that
    effect.  The id and the tracking number repeat the caller's input and
    do not count. *)
Definition synthetic_markers : list string :=
  ["demo"; "mock"; "synthetic"; "sample"; "fake"; "test"; "simulated";
   "placeholder"; "example"; "dummy"].

Definition mentions_marker (text : string) : bool :=
  existsb (fun marker => Str.contains marker (Str.lower text)) synthetic_markers.

Definition text_of (o : option string) : string :=
  match o with
  | Some s => s
  | None => ""
  end.

Definition event_texts (e : TrackingEvent.t) : list string :=
  [TrackingEvent.status e; text_of (TrackingEvent.location e);
   TrackingEvent.description e; text_of (TrackingEvent.raw_status e)].

Definition clearly_labelled (p : Package.t) : bool :=
  existsb mentions_marker
    (text_of (Package.source p) :: text_of (Package.nickname p)
       :: flat_map event_texts (Package.events p)).

(** What [replace(" ", "_")] does to one character. *)
Definition space_to_underscore (c : ascii) : ascii :=
  if Ascii.eqb c " " then "_"%char else c.

(** What the fallback of an adapter without credentials returns: a package
    of the adapter's carrier for the number asked for, with the given
    status and one event, which carries no mark of being synthetic. *)
Definition unmarked_single_event_package
           (carrier : CarrierType.t) (status : PackageStatus.t)
           (tracking_number : string) (p : Package.t) : Prop :=
  Package.carrier p = carrier
  /\ Package.tracking_number p = tracking_number
  /\ Package.status p = status
  /\ List.length (Package.events p) = 1%nat
  /\ Package.source p = None
  /\ Package.nickname p = None
  /\ clearly_labelled p = false.

(** The carrier types with an entry in the registry. *)
Definition registered : list CarrierType.t :=
  [CarrierType.USPS; CarrierType.UPS; CarrierType.FEDEX; CarrierType.DHL;
   CarrierType.AMAZON].

(** The third of the UPS patterns, [^[A-Z]{2}[0-9]{9}US$], and the second of
    the USPS patterns, [^[A-Z]{2}[0-9]{9}[A-Z]{2}$], by name. *)
Definition ups_surepost : Re.regex :=
  (Re.Bol +> Re.Rep Re.upper_letter 2 +> Re.Rep Re.digit 9 +> Re.Lit "US"
          +> Re.Eol)%re.

Definition usps_international : Re.regex :=
  (Re.Bol +> Re.Rep Re.upper_letter 2 +> Re.Rep Re.digit 9
          +> Re.Rep Re.upper_letter 2 +> Re.Eol)%re.

(** The characters of a string. *)
Definition chars (s : string) : list ascii := list_ascii_of_string s.

(** The number of characters that a match of [r] consumes, when every match
    consumes that many and none of them can be a newline. *)
Fixpoint width (r : Re.regex) : option nat :=
  match r with
  | Re.Bol | Re.Eol => Some 0%nat
  | Re.Lit lit =>
      if existsb (Ascii.eqb Re.newline) (chars lit) then None
      else Some (String.length lit)
  | Re.Cls ranges => if Re.in_class ranges Re.newline then None else Some 1%nat
  | Re.Alt r1 r2 =>
      match width r1, width r2 with
      | Some a, Some b => if Nat.eqb a b then Some a else None
      | _, _ => None
      end
  | Re.Cat r1 r2 =>
      match width r1, width r2 with
      | Some a, Some b => Some (a + b)%nat
      | _, _ => None
      end
  | Re.Rep r1 n =>
      match width r1 with
      | Some a => Some (n * a)%nat
      | None => None
      end
  end.

(** The same for a pattern whose last part is [$]: what a match consumes
    before the end of the string. *)
Fixpoint anchored_width (r : Re.regex) : option nat :=
  match r with
  | Re.Eol => Some 0%nat
  | Re.Cat r1 r2 =>
      match width r1, anchored_width r2 with
      | Some a, Some b => Some (a + b)%nat
      | _, _ => None
      end
  | Re.Alt r1 r2 =>
      match anchored_width r1, anchored_width r2 with
      | Some a, Some b => if Nat.eqb a b then Some a else None
      | _, _ => None
      end
  | _ => None
  end.

(** ** carriers/base.py: the link to the carrier's tracking page *)

Module TrackingUrl.

(** [template.format(tracking_number=value)], for a template whose
    replacement fields are all [{tracking_number}] and which has no other
    brace.  [skip] counts the characters of a field still to be passed
    over. *)
Fixpoint format_from (skip : nat) (template value : string) : string :=
  match template with
  | EmptyString => EmptyString
  | String c rest =>
      match skip with
      | S n => format_from n rest value
      | O =>
          match Str.strip_prefix "{tracking_number}" template with
          | Some _ => value ++ format_from 16 rest value
          | None => String c (format_from 0 rest value)
          end
      end
  end.

Definition format (template value : string) : string :=
  format_from 0 template value.

Definition USPS : string :=
  "https://tools.usps.com/go/TrackConfirmAction?tLabels={tracking_number}".
Definition UPS : string :=
  "https://www.ups.com/track?tracknum={tracking_number}".
Definition FedEx : string :=
  "https://www.fedex.com/apps/fedextrack/?tracknumbers={tracking_number}".

(** [BaseCarrier.generate_tracking_url], given the class attribute
    [tracking_url_template] *)
Definition generate_tracking_url (tracking_url_template tracking_number : string)
  : string :=
  format tracking_url_template tracking_number.

End TrackingUrl.

(** ** main.py: the endpoints over the orchestrator *)

(** What FastAPI makes of a handler: the body it returns, the
    [HTTPException] it raises, or any other exception. *)
Inductive Reply (A : Type) : Type :=
| Http200 (body : A)
| HttpError (status_code : Z) (detail : option string)
| Crash (e : Exn).
Arguments Http200 {A} body.
Arguments HttpError {A} status_code detail.
Arguments Crash {A} e.

Module Detection.

Record t : Set := {
  tracking_number : string;
  detected_carrier : CarrierType.t;
  confidence : string
}.

End Detection.

Section Endpoints.

Variable getenv : string -> option string.
Variable DHLCarrier AmazonCarrier : BaseCarrier.Carrier.
Variable world : nat -> World.t.
Variable format_carrier : CarrierType.t -> string.

(** [GET /api/track/{tracking_number}] *)
Definition track_package_endpoint (tracking_number : string)
           (carrier : option CarrierType.t)
  : State -> Reply TrackingResponse.t * State :=
  fun st =>
    match track_package getenv DHLCarrier AmazonCarrier world format_carrier
            tracking_number carrier st with
    | (Return result, st') =>
        if negb (TrackingResponse.success result)
        then (HttpError 404 (TrackingResponse.error result), st')
        else (Http200 result, st')
    | (Raise e, st') => (Crash e, st')
    end.

(** [GET /api/detect/{tracking_number}] *)
Definition detect_carrier_endpoint (tracking_number : string) : Detection.t :=
  let carrier := detect_carrier getenv DHLCarrier AmazonCarrier tracking_number in
  {| Detection.tracking_number := tracking_number;
     Detection.detected_carrier := carrier;
     Detection.confidence :=
       if negb (CarrierType.eqb carrier CarrierType.UNKNOWN) then "high" else "none" |}.

(** [carrier_type, carrier = item] for an item that is a [str]: the
    characters of the string are the values to unpack. *)
Definition unpack_pair (item : string) : exc (ascii * ascii) :=
  match item with
  | String a (String b EmptyString) => Return (a, b)
  | String _ (String _ (String _ _)) =>
      Raise (Exception "too many values to unpack (expected 2)")
  | _ => Raise (Exception "not enough values to unpack (expected 2)")
  end.

(** The loop of [GET /api/carriers] over [tracker.get_supported_carriers()],
    a list of carrier types.  A carrier type is a [str]; unpacked, it gives
    characters, and a character has no attribute [value]. *)
Definition get_carriers_loop (items : list CarrierType.t) : exc (list string) :=
  match items with
  | [] => Return []
  | item :: _ =>
      bind (unpack_pair (CarrierType.value item)) (fun _ =>
        Raise (Exception "'str' object has no attribute 'value'"))
  end.

Definition get_carriers : exc (list string) :=
  get_carriers_loop (get_supported_carriers getenv DHLCarrier AmazonCarrier).

End Endpoints.

(** ** Where the entries of the cache come from *)

Section Provenance.

Variable getenv : string -> option string.
Variable DHLCarrier AmazonCarrier : BaseCarrier.Carrier.
Variable world : nat -> World.t.

(** The adapter of the carrier that the request is dispatched to returned
    the package [p] to the request number [n]. *)
Definition answered (n : nat) (tracking_number : string)
           (carrier : option CarrierType.t) (p : Package.t) : Prop :=
  resolved_carrier getenv DHLCarrier AmazonCarrier tracking_number carrier
  <> CarrierType.UNKNOWN
  /\ exists adapter,
       get_carrier getenv DHLCarrier AmazonCarrier
         (resolved_carrier getenv DHLCarrier AmazonCarrier tracking_number carrier)
       = Some adapter
       /\ BaseCarrier.track adapter tracking_number (world n) = Return (Some p).

(** The entry that [track_package] writes for that package. *)
Definition entry_of (n : nat) (tracking_number : string)
           (carrier : option CarrierType.t) (p : Package.t) : TTLCache.Link :=
  {| TTLCache.key := cache_key tracking_number carrier;
     TTLCache.value := Package.set_carrier_detected (was_detected carrier) p;
     TTLCache.expires := World.monotonic_store (world n) + 300 |}.

(** The entry was written by one of the first [requests] requests. *)
Definition stored_by_request (requests : nat) (l : TTLCache.Link) : Prop :=
  exists n tracking_number carrier p,
    (n < requests)%nat
    /\ answered n tracking_number carrier p
    /\ l = entry_of n tracking_number carrier p.

(** A suspended coroutine waits for the adapter of its request, under the
    key of its request. *)
Definition waits_for_adapter (requests : nat) (t : Task) : Prop :=
  match t with
  | Awaiting tracking_number key detected delivered w =>
      exists n carrier adapter,
        (n < requests)%nat
        /\ w = world n
        /\ key = cache_key tracking_number carrier
        /\ detected = was_detected carrier
        /\ resolved_carrier getenv DHLCarrier AmazonCarrier tracking_number carrier
           <> CarrierType.UNKNOWN
        /\ get_carrier getenv DHLCarrier AmazonCarrier
             (resolved_carrier getenv DHLCarrier AmazonCarrier
                tracking_number carrier) = Some adapter
        /\ delivered = BaseCarrier.track adapter tracking_number w
  | _ => True
  end.

(** The cache of start-up, within its bound, with one entry per key, each
    written by a request. *)
Definition cache_sound (st : State) : Prop :=
  TTLCache.maxsize (cache st) = 1000
  /\ TTLCache.ttl (cache st) = 300
  /\ (List.length (TTLCache.links (cache st)) <= 1000)%nat
  /\ NoDup (map TTLCache.key (TTLCache.links (cache st)))
  /\ Forall (stored_by_request (tick st)) (TTLCache.links (cache st)).

Definition pool_sound (p : Pool) : Prop :=
  cache_sound (shared p)
  /\ Forall (waits_for_adapter (tick (shared p))) (tasks p).

End Provenance.

(** The timestamps of the events are all naive or all aware. *)
Definition same_awareness (events : list TrackingEvent.t) : Prop :=
  forall e1 e2, In e1 events -> In e2 events ->
    tzaware (TrackingEvent.timestamp e1) = tzaware (TrackingEvent.timestamp e2).

(** ** Instances for closed examples

    An empty environment, two stand-ins for the adapters that the registry
    takes as parameters, and a world whose n-th request is made at second n
    and finds the network down. *)

Module Demo.

Definition no_env : string -> option string := fun _ => None.

Definition stand_in (carrier_type : CarrierType.t) (patterns : list Re.regex)
  : BaseCarrier.Carrier :=
  {| BaseCarrier.carrier_type := carrier_type;
     BaseCarrier.validate_tracking_number := BaseCarrier.validate patterns;
     BaseCarrier.track := fun _ _ => Raise (Exception "connection refused");
     BaseCarrier.parse_status := fun _ => PackageStatus.UNKNOWN |}.

Definition dhl : BaseCarrier.Carrier :=
  stand_in CarrierType.DHL [(Re.Bol +> Re.Rep Re.digit 10 +> Re.Eol)%re].

Definition amazon : BaseCarrier.Carrier :=
  stand_in CarrierType.AMAZON
           [(Re.Bol +> Re.Lit "TBA" +> Re.Rep Re.digit 12 +> Re.Eol)%re].

Definition world : nat -> World.t := fun n =>
  {| World.monotonic := Z.of_nat n;
     World.monotonic_getitem := Z.of_nat n;
     World.monotonic_store := Z.of_nat n;
     World.utcnow_instant := 1700000000 + Z.of_nat n;
     World.token := Raise (Exception "connection refused");
     World.reply := Raise (Exception "connection refused") |}.

(** The same world with 400 seconds from one request to the next. *)
Definition world_every_400s : nat -> World.t := fun n =>
  {| World.monotonic := 400 * Z.of_nat n;
     World.monotonic_getitem := 400 * Z.of_nat n;
     World.monotonic_store := 400 * Z.of_nat n;
     World.utcnow_instant := 1700000000 + 400 * Z.of_nat n;
     World.token := Raise (Exception "connection refused");
     World.reply := Raise (Exception "connection refused") |}.

(** A world in which the first request comes at second 0 and every later
    one tests the cache at second 299 and reads it at second 300. *)
Definition world_racing : nat -> World.t := fun n =>
  {| World.monotonic := match n with O => 0 | S _ => 299 end;
     World.monotonic_getitem := match n with O => 0 | S _ => 300 end;
     World.monotonic_store := match n with O => 0 | S _ => 300 end;
     World.utcnow_instant := 1700000000 + Z.of_nat n;
     World.token := Raise (Exception "connection refused");
     World.reply := Raise (Exception "connection refused") |}.

Definition format_carrier : CarrierType.t -> string := CarrierType.value.

Definition event (at_instant : Z) (text : string) : TrackingEvent.t :=
  {| TrackingEvent.timestamp := {| instant := at_instant; tzaware := false |};
     TrackingEvent.status := text;
     TrackingEvent.location := None;
     TrackingEvent.description := text;
     TrackingEvent.raw_status := Some text |}.

(** A world in which the carrier answers 200 with three events, oldest
    first. *)
Definition answering : World.t :=
  {| World.monotonic := 0;
     World.monotonic_getitem := 0;
     World.monotonic_store := 1;
     World.utcnow_instant := 1700000000;
     World.token := Return "token";
     World.reply :=
       Return {| status_code := 200;
                 body := Decoded (Found "Delivered"
                           [event 10 "Accepted"; event 30 "Delivered";
                            event 20 "In Transit"]) |} |}.

Definition with_credentials : string -> option string := fun _ => Some "secret".

(** A world in which the carrier answers 200 with a document that holds
    no tracking record. *)
Definition no_record : World.t :=
  {| World.monotonic := 0;
     World.monotonic_getitem := 0;
     World.monotonic_store := 1;
     World.utcnow_instant := 1700000000;
     World.token := Return "token";
     World.reply := Return {| status_code := 200; body := Decoded Absent |} |}.

(** A history in which the carrier gives that answer to every request. *)
Definition world_answering : nat -> World.t := fun _ => answering.

(** Two requests of one batch for one USPS number, made with credentials
    set, both suspended in the call of the adapter, which is waiting for
    the reply of [answering]. *)
Definition both_suspended : Pool :=
  let waiting :=
    Awaiting "9400111899223197428431" "auto_9400111899223197428431" true
      (USPSCarrier.track (USPSCarrier.init with_credentials)
         "9400111899223197428431" answering)
      answering in
  {| shared :=
       {| cache := cache init;
          calls := [DetectCall "9400111899223197428431";
                    TrackCall CarrierType.USPS "9400111899223197428431";
                    DetectCall "9400111899223197428431";
                    TrackCall CarrierType.USPS "9400111899223197428431"];
          tick := 2 |};
     tasks := [waiting; waiting] |}.

(** The orchestrator after one request for a UPS number, made with no
    credentials set. *)
Definition after_first_request : State :=
  snd (track_package no_env dhl amazon world format_carrier
         "1Z999AA10123456784" None init).

(** The orchestrator after one request for the same number in
    [world_racing]: the entry was stored at second 0 and expires at second
    300. *)
Definition racing_after_first_request : State :=
  snd (track_package no_env dhl amazon world_racing format_carrier
         "1Z999AA10123456784" None init).

End Demo.

(** Simplification of a request that leaves the cache operations and the
    registry folded. *)
Ltac request_step :=
  cbn -[TTLCache.getitem TTLCache.setitem TTLCache.contains get_carrier
        detect_carrier resolved_carrier cache_key].


(** * Properties *)

(** ** Carrier detection and the registry *)

Section RegistryFacts.

Variable getenv : string -> option string.
Variable DHLCarrier AmazonCarrier : BaseCarrier.Carrier.

Local Abbreviation CARRIERS' := (CARRIERS getenv DHLCarrier AmazonCarrier).
Local Abbreviation detect := (detect_carrier getenv DHLCarrier AmazonCarrier).

(** The loop of [detect_carrier] over any list of items: either no item
    validates and the result is UNKNOWN, or the result is the key of the
    first item that validates. *)
Lemma first_valid_first_match (items : list (CarrierType.t * BaseCarrier.Carrier))
      (tracking_number : string) :
  (first_valid items tracking_number = CarrierType.UNKNOWN /\
   forall ct c, In (ct, c) items ->
     BaseCarrier.validate_tracking_number c tracking_number = false)
  \/
  (exists before ct c after,
     items = (before ++ (ct, c) :: after)%list /\
     (forall ct' c', In (ct', c') before ->
        BaseCarrier.validate_tracking_number c' tracking_number = false) /\
     BaseCarrier.validate_tracking_number c tracking_number = true /\
     first_valid items tracking_number = ct).
Proof.
  induction items as [| [ct c] rest IH]; simpl.
  - left. split; [reflexivity | intros ? ? []].
  - destruct (BaseCarrier.validate_tracking_number c tracking_number) eqn:Hv.
    + right. exists [], ct, c, rest. simpl. repeat split; auto.
      intros ? ? [].
    + destruct IH as [[Hu Hall] | (before & ct1 & c1 & after & -> & Hb & Hc & Hr)].
      * left. split; [assumption |].
        intros ct' c' [Heq | Hin]; [congruence | eauto].
      * right. exists ((ct, c) :: before), ct1, c1, after.
        repeat split; auto.
        intros ct' c' [Heq | Hin]; [congruence | eauto].
Qed.

End RegistryFacts.

(** C1. Detection is first-match over the registration order USPS, UPS,
    FEDEX, DHL, AMAZON: [detect_carrier] returns the key of the first
    registered adapter whose [validate_tracking_number] accepts the
    tracking number, and UNKNOWN when none accepts it.  The UPS example and
    the USPS example are detected as such whatever the DHL and Amazon
    adapters accept; "not-a-real-number" is rejected by USPS, UPS and
    FedEx, and is UNKNOWN as soon as DHL and Amazon reject it too. *)
Theorem detect_carrier_first_match
        (getenv : string -> option string)
        (DHLCarrier AmazonCarrier : BaseCarrier.Carrier)
        (tracking_number : string) :
  let CARRIERS := CARRIERS getenv DHLCarrier AmazonCarrier in
  let detect_carrier := detect_carrier getenv DHLCarrier AmazonCarrier in
  map fst CARRIERS =
    [CarrierType.USPS; CarrierType.UPS; CarrierType.FEDEX; CarrierType.DHL;
     CarrierType.AMAZON]
  /\ ((detect_carrier tracking_number = CarrierType.UNKNOWN /\
       forall ct c, In (ct, c) CARRIERS ->
         BaseCarrier.validate_tracking_number c tracking_number = false)
      \/
      (exists before ct c after,
         CARRIERS = (before ++ (ct, c) :: after)%list /\
         (forall ct' c', In (ct', c') before ->
            BaseCarrier.validate_tracking_number c' tracking_number = false) /\
         BaseCarrier.validate_tracking_number c tracking_number = true /\
         detect_carrier tracking_number = ct))
  /\ detect_carrier "1Z999AA10123456784" = CarrierType.UPS
  /\ detect_carrier "9400111899223197428431" = CarrierType.USPS
  /\ (BaseCarrier.validate_tracking_number DHLCarrier "not-a-real-number" = false ->
      BaseCarrier.validate_tracking_number AmazonCarrier "not-a-real-number" = false ->
      detect_carrier "not-a-real-number" = CarrierType.UNKNOWN).
Proof.
  cbv zeta. split; [reflexivity |].
  split; [apply first_valid_first_match |].
  split; [vm_compute; reflexivity |].
  split; [vm_compute; reflexivity |].
  intros Hdhl Hamazon.
  unfold detect_carrier, CARRIERS.
  cbn [first_valid].
  change (BaseCarrier.validate_tracking_number
            (USPSCarrier.carrier (USPSCarrier.init getenv)) "not-a-real-number")
    with (BaseCarrier.validate USPSCarrier.tracking_patterns "not-a-real-number").
  change (BaseCarrier.validate_tracking_number
            (UPSCarrier.carrier (UPSCarrier.init getenv)) "not-a-real-number")
    with (BaseCarrier.validate UPSCarrier.tracking_patterns "not-a-real-number").
  change (BaseCarrier.validate_tracking_number
            (FedExCarrier.carrier (FedExCarrier.init getenv)) "not-a-real-number")
    with (BaseCarrier.validate FedExCarrier.tracking_patterns "not-a-real-number").
  replace (BaseCarrier.validate USPSCarrier.tracking_patterns "not-a-real-number")
    with false by (vm_compute; reflexivity).
  replace (BaseCarrier.validate UPSCarrier.tracking_patterns "not-a-real-number")
    with false by (vm_compute; reflexivity).
  replace (BaseCarrier.validate FedExCarrier.tracking_patterns "not-a-real-number")
    with false by (vm_compute; reflexivity).
  rewrite Hdhl, Hamazon. reflexivity.
Qed.

Lemma detect_carrier_first_match_witness :
  detect_carrier Demo.no_env Demo.dhl Demo.amazon "not-a-real-number"
  = CarrierType.UNKNOWN.
Proof.
  apply (detect_carrier_first_match Demo.no_env Demo.dhl Demo.amazon
           "not-a-real-number"); reflexivity.
Defined.

(** C8 fails as stated: ONTRAC is a carrier type other than UNKNOWN, and
    the registry has no adapter for it, whatever the environment and the
    DHL and Amazon adapters are. *)
Lemma get_carrier_ontrac_none :
  exists ct : CarrierType.t,
    ct <> CarrierType.UNKNOWN /\
    forall getenv DHLCarrier AmazonCarrier,
      get_carrier getenv DHLCarrier AmazonCarrier ct = None.
Proof.
  exists CarrierType.ONTRAC. split; [discriminate | reflexivity].
Qed.

(** C8, amended.  The registry holds exactly one adapter for each of USPS,
    UPS, FEDEX, DHL and AMAZON: [get_carrier] returns that adapter for
    these five carrier types, and null for ONTRAC, LASERSHIP and
    UNKNOWN. *)
Theorem get_carrier_registered
        (getenv : string -> option string)
        (DHLCarrier AmazonCarrier : BaseCarrier.Carrier)
        (ct : CarrierType.t) :
  let CARRIERS := CARRIERS getenv DHLCarrier AmazonCarrier in
  let get_carrier := get_carrier getenv DHLCarrier AmazonCarrier in
  NoDup (map fst CARRIERS)
  /\ (In ct [CarrierType.USPS; CarrierType.UPS; CarrierType.FEDEX;
             CarrierType.DHL; CarrierType.AMAZON] ->
      exists adapter, get_carrier ct = Some adapter /\ In (ct, adapter) CARRIERS)
  /\ (In ct [CarrierType.ONTRAC; CarrierType.LASERSHIP; CarrierType.UNKNOWN] ->
      get_carrier ct = None).
Proof.
  cbv zeta. split; [| split].
  - simpl. repeat constructor; simpl; intuition discriminate.
  - intros Hin. destruct ct; simpl in Hin;
      try (exfalso; intuition discriminate);
      eexists; (split; [reflexivity | simpl; tauto]).
  - intros Hin. destruct ct; simpl in Hin;
      try (exfalso; intuition discriminate); reflexivity.
Qed.

(** ** Status vocabularies *)

Lemma dict_get_default {V : Type} (d : list (string * V)) (k : string) (default : V) :
  ~ In k (map fst d) -> dict_get d k default = default.
Proof.
  induction d as [| [k' v] d IH]; simpl; intros Hnot; [reflexivity |].
  destruct (String.eqb k' k) eqn:Heq.
  - apply String.eqb_eq in Heq. tauto.
  - apply IH. tauto.
Qed.

Lemma lower_char_swap_case (c : ascii) :
  is_letter c = true -> Str.lower_char (swap_case c) = Str.lower_char c.
Proof.
  destruct c as [[] [] [] [] [] [] [] []]; vm_compute; intros; congruence.
Qed.

Lemma same_letter_lower (c d : ascii) :
  same_letter c d = true -> Str.lower_char c = Str.lower_char d.
Proof.
  unfold same_letter. intros H.
  apply orb_true_iff in H. destruct H as [H | H].
  - apply Ascii.eqb_eq in H. now subst.
  - apply andb_true_iff in H. destruct H as [Hl H].
    apply Ascii.eqb_eq in H. subst d.
    symmetry. now apply lower_char_swap_case.
Qed.

Lemma differ_only_in_case_lower (a b : string) :
  differ_only_in_case a b = true -> Str.lower a = Str.lower b.
Proof.
  revert b. induction a as [| c a IH]; intros [| d b]; simpl;
    try discriminate; [reflexivity |].
  intros H. apply andb_true_iff in H. destruct H as [Hc Hrest].
  unfold Str.lower in *. simpl.
  rewrite (same_letter_lower c d Hc).
  f_equal. now apply IH.
Qed.

Lemma space_to_underscore_absorbed (c : ascii) :
  space_to_underscore (Str.lower_char (space_to_underscore c))
  = space_to_underscore (Str.lower_char c).
Proof.
  destruct c as [[] [] [] [] [] [] [] []]; vm_compute; reflexivity.
Qed.

Lemma replace_lower_replace (raw : string) :
  Str.replace " " "_" (Str.lower (Str.replace " " "_" raw))
  = Str.replace " " "_" (Str.lower raw).
Proof.
  unfold Str.replace, Str.lower.
  induction raw as [| c raw IH]; simpl; [reflexivity |].
  rewrite IH. f_equal. apply space_to_underscore_absorbed.
Qed.

(** C4 fails as stated: spaces are not ignored.  For each of the three
    adapters, two raw statuses that differ only in a space map to
    different statuses. *)
Lemma parse_status_space_sensitive :
  differ_only_in_spaces "in transit" "intransit" = true
  /\ UPSCarrier.parse_status "in transit" = PackageStatus.UNKNOWN
  /\ UPSCarrier.parse_status "intransit" = PackageStatus.IN_TRANSIT
  /\ FedExCarrier.parse_status "in transit" = PackageStatus.IN_TRANSIT
  /\ FedExCarrier.parse_status "intransit" = PackageStatus.UNKNOWN
  /\ differ_only_in_spaces "pre transit" "pretransit" = true
  /\ USPSCarrier.parse_status "pre transit" = PackageStatus.PRE_TRANSIT
  /\ USPSCarrier.parse_status "pretransit" = PackageStatus.UNKNOWN.
Proof. repeat split; vm_compute; reflexivity. Qed.

(** C4, amended.  For the USPS, UPS and FedEx adapters [parse_status] is a
    total lookup.  The key is the lower-cased raw status, in which USPS and
    FedEx turn every space into an underscore and UPS leaves spaces alone.
    Raw statuses that differ only in letter case map to the same status; a
    space and an underscore are interchangeable for USPS and FedEx; a raw
    status whose key is not in the adapter's table maps to UNKNOWN. *)
Theorem parse_status_lookup :
  (forall a b, differ_only_in_case a b = true ->
     USPSCarrier.parse_status a = USPSCarrier.parse_status b
     /\ UPSCarrier.parse_status a = UPSCarrier.parse_status b
     /\ FedExCarrier.parse_status a = FedExCarrier.parse_status b)
  /\ (forall raw,
        USPSCarrier.parse_status (Str.replace " " "_" raw)
        = USPSCarrier.parse_status raw
        /\ FedExCarrier.parse_status (Str.replace " " "_" raw)
           = FedExCarrier.parse_status raw)
  /\ (forall raw,
        ~ In (Str.replace " " "_" (Str.lower raw)) (map fst USPSCarrier.status_map) ->
        USPSCarrier.parse_status raw = PackageStatus.UNKNOWN)
  /\ (forall raw,
        ~ In (Str.lower raw) (map fst UPSCarrier.status_map) ->
        UPSCarrier.parse_status raw = PackageStatus.UNKNOWN)
  /\ (forall raw,
        ~ In (Str.replace " " "_" (Str.lower raw)) (map fst FedExCarrier.status_map) ->
        FedExCarrier.parse_status raw = PackageStatus.UNKNOWN).
Proof.
  repeat split.
  - unfold USPSCarrier.parse_status.
    now rewrite (differ_only_in_case_lower a b H).
  - unfold UPSCarrier.parse_status.
    now rewrite (differ_only_in_case_lower a b H).
  - unfold FedExCarrier.parse_status.
    now rewrite (differ_only_in_case_lower a b H).
  - unfold USPSCarrier.parse_status. now rewrite replace_lower_replace.
  - unfold FedExCarrier.parse_status. now rewrite replace_lower_replace.
  - intros raw H. now apply dict_get_default.
  - intros raw H. now apply dict_get_default.
  - intros raw H. now apply dict_get_default.
Qed.

(** ** Event ordering *)

Lemma datetime_lt_asym (a b : datetime) :
  datetime_lt a b = Return true -> datetime_ge b a.
Proof.
  unfold datetime_ge, datetime_lt.
  destruct (tzaware a), (tzaware b); simpl; try discriminate;
    intros H; injection H as H; f_equal;
    apply Z.ltb_lt in H; apply Z.ltb_ge; lia.
Qed.

Lemma insert_desc_head (x y : TrackingEvent.t) (l r : list TrackingEvent.t) :
  insert_desc x l = Return r ->
  newest_first y x -> HdRel newest_first y l -> HdRel newest_first y r.
Proof.
  destruct l as [| z l]; simpl.
  - intros H. injection H as <-. auto.
  - destruct (datetime_lt (TrackingEvent.timestamp x) (TrackingEvent.timestamp z))
      as [[|] | e]; simpl; try discriminate.
    + destruct (insert_desc x l); simpl; try discriminate.
      intros H. injection H as <-. intros _ Hz.
      inversion Hz; subst. auto.
    + intros H. injection H as <-. auto.
Qed.

Lemma insert_desc_sorted (x : TrackingEvent.t) (l r : list TrackingEvent.t) :
  Sorted newest_first l -> insert_desc x l = Return r -> Sorted newest_first r.
Proof.
  intros Hs. revert r. induction Hs as [| y l Hs IH Hhd]; simpl; intros r.
  - intros H. injection H as <-. auto.
  - destruct (datetime_lt (TrackingEvent.timestamp x) (TrackingEvent.timestamp y))
      as [[|] | e] eqn:Hlt; simpl; try discriminate.
    + destruct (insert_desc x l) as [r' | e] eqn:Hins; simpl; try discriminate.
      intros H. injection H as <-.
      constructor; [now apply IH |].
      apply (insert_desc_head x y l r' Hins); [| assumption].
      now apply datetime_lt_asym.
    + intros H. injection H as <-.
      constructor; [constructor; assumption |].
      constructor. exact Hlt.
Qed.

Lemma sorted_by_timestamp_reverse_sorted (l r : list TrackingEvent.t) :
  sorted_by_timestamp_reverse l = Return r -> Sorted newest_first r.
Proof.
  revert r. induction l as [| x l IH]; simpl; intros r.
  - intros H. injection H as <-. constructor.
  - destruct (sorted_by_timestamp_reverse l) as [s | e]; simpl; try discriminate.
    intros H. apply (insert_desc_sorted x s r); auto.
Qed.

Lemma insert_desc_perm (x : TrackingEvent.t) (l r : list TrackingEvent.t) :
  insert_desc x l = Return r -> Permutation (x :: l) r.
Proof.
  revert r. induction l as [| y l IH]; simpl; intros r.
  - intros H. injection H as <-. auto.
  - destruct (datetime_lt (TrackingEvent.timestamp x) (TrackingEvent.timestamp y))
      as [[|] | e]; simpl; try discriminate.
    + destruct (insert_desc x l) as [r' | e]; simpl; try discriminate.
      intros H. injection H as <-.
      rewrite perm_swap. constructor. now apply IH.
    + intros H. injection H as <-. auto.
Qed.

(** The sort keeps the events: it only reorders them. *)
Lemma sorted_by_timestamp_reverse_perm (l r : list TrackingEvent.t) :
  sorted_by_timestamp_reverse l = Return r -> Permutation l r.
Proof.
  revert r. induction l as [| x l IH]; simpl; intros r.
  - intros H. injection H as <-. auto.
  - destruct (sorted_by_timestamp_reverse l) as [s | e]; simpl; try discriminate.
    intros H. apply insert_desc_perm in H.
    rewrite <- H. constructor. now apply IH.
Qed.

Lemma Sorted_descending (l : list TrackingEvent.t) :
  Sorted newest_first l -> descending l.
Proof.
  intros Hs. induction Hs as [| x l Hs IH Hhd]; intros i e1 e2 H1 H2.
  - destruct i; discriminate.
  - destruct i as [| i]; simpl in H1, H2.
    + injection H1 as <-. destruct l as [| y l]; [discriminate |].
      injection H2 as <-. now inversion Hhd.
    + eapply IH; eassumption.
Qed.

Lemma descending_singleton (e : TrackingEvent.t) : descending [e].
Proof.
  intros [| [| i]] e1 e2 H1 H2; simpl in *; discriminate.
Qed.

Lemma descending_nil : descending [].
Proof. intros [| i] e1 e2 H1 H2; discriminate. Qed.

Lemma usps_track_descending (s : USPSCarrier.self) tn w p :
  USPSCarrier.track s tn w = Return (Some p) -> descending (Package.events p).
Proof.
  unfold USPSCarrier.track.
  destruct (negb (truthy (USPSCarrier.user_id s))).
  - intros H. injection H as <-. apply descending_singleton.
  - destruct (World.reply w) as [response | e]; simpl; [| discriminate].
    destruct (negb (status_code response =? 200)); [discriminate |].
    unfold USPSCarrier._parse_response.
    destruct (body response) as [e | [e | | status_text events]]; try discriminate.
    destruct (sorted_by_timestamp_reverse events) as [sorted_events | e] eqn:Hsort;
      [| discriminate].
    intros H. injection H as <-. simpl.
    apply Sorted_descending. eapply sorted_by_timestamp_reverse_sorted; eassumption.
Qed.

Lemma ups_track_descending (s : UPSCarrier.self) tn w p :
  UPSCarrier.track s tn w = Return (Some p) -> descending (Package.events p).
Proof.
  unfold UPSCarrier.track.
  destruct (negb (truthy (UPSCarrier.client_id s))).
  - intros H. injection H as <-. apply descending_singleton.
  - destruct (World.token w) as [access_token | e]; simpl; [| discriminate].
    destruct (World.reply w) as [response | e]; simpl; [| discriminate].
    destruct (negb (status_code response =? 200)); [discriminate |].
    destruct (body response) as [e | data]; [discriminate |].
    unfold UPSCarrier._parse_response.
    destruct data as [e | | current_status events]; try discriminate.
    + simpl. intros H. injection H as <-. apply descending_nil.
    + destruct (sorted_by_timestamp_reverse events) as [sorted_events | e] eqn:Hsort;
        [| discriminate].
      intros H. injection H as <-. simpl.
      apply Sorted_descending. eapply sorted_by_timestamp_reverse_sorted; eassumption.
Qed.

Lemma fedex_track_descending (s : FedExCarrier.self) tn w p :
  FedExCarrier.track s tn w = Return (Some p) -> descending (Package.events p).
Proof.
  unfold FedExCarrier.track.
  destruct (negb (truthy (FedExCarrier.client_id s))).
  - intros H. injection H as <-. apply descending_singleton.
  - destruct (World.token w) as [access_token | e]; simpl; [| discriminate].
    destruct (World.reply w) as [response | e]; simpl; [| discriminate].
    destruct (negb (status_code response =? 200)); [discriminate |].
    destruct (body response) as [e | data]; [discriminate |].
    unfold FedExCarrier._parse_response.
    destruct data as [e | | status_code events]; try discriminate.
    + simpl. intros H. injection H as <-. apply descending_nil.
    + destruct (sorted_by_timestamp_reverse events) as [sorted_events | e] eqn:Hsort;
        [| discriminate].
      intros H. injection H as <-. simpl.
      apply Sorted_descending. eapply sorted_by_timestamp_reverse_sorted; eassumption.
Qed.

(** C5. Every Package that the [track] of the USPS, UPS or FedEx adapter
    returns, on the parsed-response path and on the no-credentials path
    alike, has its events in descending order of timestamp:
    [events[i].timestamp >= events[i+1].timestamp] for every index [i]. *)
Theorem adapter_events_descending
        (getenv : string -> option string) (tracking_number : string)
        (w : World.t) (p : Package.t) :
  USPSCarrier.track (USPSCarrier.init getenv) tracking_number w = Return (Some p)
  \/ UPSCarrier.track (UPSCarrier.init getenv) tracking_number w = Return (Some p)
  \/ FedExCarrier.track (FedExCarrier.init getenv) tracking_number w = Return (Some p) ->
  forall i e1 e2,
    nth_error (Package.events p) i = Some e1 ->
    nth_error (Package.events p) (S i) = Some e2 ->
    datetime_lt (TrackingEvent.timestamp e1) (TrackingEvent.timestamp e2)
    = Return false.
Proof.
  intros [H | [H | H]].
  - exact (usps_track_descending _ _ _ _ H).
  - exact (ups_track_descending _ _ _ _ H).
  - exact (fedex_track_descending _ _ _ _ H).
Qed.

Lemma adapter_events_descending_witness :
  exists p,
    USPSCarrier.track (USPSCarrier.init Demo.with_credentials) "9400111899223197428431"
      Demo.answering = Return (Some p)
    /\ map TrackingEvent.status (Package.events p)
       = ["Delivered"; "In Transit"; "Accepted"]
    /\ forall i e1 e2,
         nth_error (Package.events p) i = Some e1 ->
         nth_error (Package.events p) (S i) = Some e2 ->
         datetime_lt (TrackingEvent.timestamp e1) (TrackingEvent.timestamp e2)
         = Return false.
Proof.
  eexists. split; [reflexivity |]. split; [reflexivity |].
  apply (adapter_events_descending Demo.with_credentials "9400111899223197428431"
           Demo.answering).
  left. reflexivity.
Defined.

(** ** The fallback without credentials *)

(** C9 fails as stated: the package that the USPS adapter returns when no
    credentials are configured is not labelled as synthetic.  Its origin
    tag and nickname are unset and no text of its event says demo, mock,
    synthetic or the like. *)
Lemma mock_package_not_labelled :
  exists p,
    USPSCarrier.track (USPSCarrier.init Demo.no_env) "9400111899223197428431"
      (Demo.world 0) = Return (Some p)
    /\ Package.source p = None
    /\ Package.nickname p = None
    /\ flat_map event_texts (Package.events p)
       = ["In Transit"; "Memphis, TN"; "Arrived at Regional Facility"; "In Transit"]
    /\ clearly_labelled p = false.
Proof.
  eexists. split; [reflexivity |]. repeat split.
Qed.

(** C9, amended.  When the credential variable of an adapter
    (USPS_API_USER_ID, UPS_CLIENT_ID, FEDEX_CLIENT_ID) is unset or empty,
    the adapter's [track] returns, for every tracking number and whatever
    the network does, a non-null Package with a fixed status (IN_TRANSIT
    for USPS, OUT_FOR_DELIVERY for UPS, DELIVERED for FedEx) and exactly one
    event; it neither returns null nor raises.  The Package carries no mark
    of being synthetic. *)
Theorem track_without_credentials
        (getenv : string -> option string) (tracking_number : string)
        (w : World.t) :
  (truthy (getenv "USPS_API_USER_ID") = false ->
   exists p,
     USPSCarrier.track (USPSCarrier.init getenv) tracking_number w = Return (Some p)
     /\ unmarked_single_event_package CarrierType.USPS PackageStatus.IN_TRANSIT
          tracking_number p)
  /\ (truthy (getenv "UPS_CLIENT_ID") = false ->
      exists p,
        UPSCarrier.track (UPSCarrier.init getenv) tracking_number w = Return (Some p)
        /\ unmarked_single_event_package CarrierType.UPS
             PackageStatus.OUT_FOR_DELIVERY tracking_number p)
  /\ (truthy (getenv "FEDEX_CLIENT_ID") = false ->
      exists p,
        FedExCarrier.track (FedExCarrier.init getenv) tracking_number w
        = Return (Some p)
        /\ unmarked_single_event_package CarrierType.FEDEX PackageStatus.DELIVERED
             tracking_number p).
Proof.
  repeat split; intros H.
  - exists (USPSCarrier._mock_track tracking_number w).
    unfold USPSCarrier.track. simpl. rewrite H. simpl. repeat split.
  - exists (UPSCarrier._mock_track tracking_number w).
    unfold UPSCarrier.track. simpl. rewrite H. simpl. repeat split.
  - exists (FedExCarrier._mock_track tracking_number w).
    unfold FedExCarrier.track. simpl. rewrite H. simpl. repeat split.
Qed.

(** ** The orchestrator *)

Section TrackerFacts.

Variable getenv : string -> option string.
Variable DHLCarrier AmazonCarrier : BaseCarrier.Carrier.
Variable world : nat -> World.t.
Variable format_carrier : CarrierType.t -> string.

Local Abbreviation track_package' :=
  (track_package getenv DHLCarrier AmazonCarrier world format_carrier).
Local Abbreviation track_multiple' :=
  (track_multiple getenv DHLCarrier AmazonCarrier world format_carrier).
Local Abbreviation get_carrier' := (get_carrier getenv DHLCarrier AmazonCarrier).
Local Abbreviation resolved := (resolved_carrier getenv DHLCarrier AmazonCarrier).
Local Abbreviation reachable' :=
  (reachable getenv DHLCarrier AmazonCarrier world format_carrier).

(** An entry is found live by the membership test and expired by the
    read, or every hit survives. *)
Lemma survives_or_race (w : World.t) (key : string) (c : TTLCache.t) :
  hit_survives w key c
  \/ exists l,
       TTLCache.find key (TTLCache.links c) = Some l
       /\ World.monotonic w < TTLCache.expires l
       /\ TTLCache.expires l <= World.monotonic_getitem w.
Proof.
  destruct (TTLCache.find key (TTLCache.links c)) as [l |] eqn:Hfind.
  - destruct (Z.lt_ge_cases (World.monotonic w) (TTLCache.expires l)) as [Hlive | Hdead].
    + destruct (Z.lt_ge_cases (World.monotonic_getitem w) (TTLCache.expires l))
        as [Hlive' | Hdead'].
      * left. intros l' Hl' _. unfold hit_survives. congruence.
      * right. exists l. auto.
    + left. intros l' Hl' Hlt. assert (l' = l) by congruence. subst l'. lia.
  - left. intros l' Hl'. congruence.
Qed.

(** The path through [track_package] on which an exception escapes: the
    membership test finds the entry live, the read finds it expired and
    raises KeyError, outside the [try]. *)
Lemma track_package_race (tracking_number : string)
      (carrier : option CarrierType.t) (st : State) (l : TTLCache.Link) :
  let w := world (tick st) in
  let key := cache_key tracking_number carrier in
  TTLCache.find key (TTLCache.links (cache st)) = Some l ->
  World.monotonic w < TTLCache.expires l ->
  TTLCache.expires l <= World.monotonic_getitem w ->
  track_package' tracking_number carrier st
  = (Raise (Exception key),
     {| cache := TTLCache.with_links (cache st)
                   (TTLCache.delete key (TTLCache.links (cache st)) ++ [l]);
        calls := calls st;
        tick := S (tick st) |}).
Proof.
  cbv zeta. intros Hfind Hlive Hdead.
  unfold track_package, mbind, enter, cache_contains, cache_getitem. cbn [fst snd].
  cbn [cache calls tick].
  apply Z.ltb_lt in Hlive. apply Z.ltb_ge in Hdead.
  unfold TTLCache.contains. rewrite Hfind, Hlive.
  unfold TTLCache.getitem. cbn [cache calls tick]. rewrite Hfind, Hdead.
  reflexivity.
Qed.

(** Every path through [track_package] on which no entry expires between
    the membership test and the read, with what it returns and what it
    leaves behind. *)
Lemma track_package_paths (tracking_number : string)
      (carrier : option CarrierType.t) (st : State) :
  let w := world (tick st) in
  let key := cache_key tracking_number carrier in
  let dc := resolved tracking_number carrier in
  let calls1 := (calls st ++ detection_calls tracking_number carrier)%list in
  hit_survives w key (cache st) ->
  exists response st',
    track_package' tracking_number carrier st = (Return response, st')
    /\ tick st' = S (tick st)
    /\ ((exists l,
           TTLCache.find key (TTLCache.links (cache st)) = Some l
           /\ World.monotonic w < TTLCache.expires l
           /\ response = hit (TTLCache.value l)
           /\ cache st' = TTLCache.with_links (cache st)
                (TTLCache.delete key (TTLCache.links (cache st)) ++ [l])
           /\ calls st' = calls st)
        \/
        (TTLCache.contains (World.monotonic w) key (cache st) = false
         /\ ((dc = CarrierType.UNKNOWN
              /\ response = failure
                   "Could not detect carrier from tracking number. Please specify manually."
              /\ cache st' = cache st /\ calls st' = calls1)
             \/
             (dc <> CarrierType.UNKNOWN /\ get_carrier' dc = None
              /\ response = failure ("Carrier " ++ format_carrier dc ++ " not supported")
              /\ cache st' = cache st /\ calls st' = calls1)
             \/
             (dc <> CarrierType.UNKNOWN
              /\ exists adapter,
                  get_carrier' dc = Some adapter
                  /\ calls st' = (calls1 ++ [TrackCall dc tracking_number])%list
                  /\ ((exists e,
                         BaseCarrier.track adapter tracking_number w = Raise e
                         /\ response = failure ("Tracking failed: " ++ str e)
                         /\ cache st' = cache st)
                      \/
                      (BaseCarrier.track adapter tracking_number w = Return None
                       /\ response = failure "Unable to retrieve tracking information"
                       /\ cache st' = cache st)
                      \/
                      (exists p,
                         BaseCarrier.track adapter tracking_number w = Return (Some p)
                         /\ let p' := Package.set_carrier_detected
                                        (was_detected carrier) p in
                            match TTLCache.setitem (World.monotonic_store w) key p'
                                    (cache st) with
                            | (Return _, c') =>
                                response = fetched p' /\ cache st' = c'
                            | (Raise e, c') =>
                                response = failure ("Tracking failed: " ++ str e)
                                /\ cache st' = c'
                            end)))))).
Proof.
  cbv zeta. intros Hsurvives.
  unfold track_package, mbind, enter, cache_contains, cache_getitem. cbn [fst snd].
  cbn [cache calls tick].
  destruct (TTLCache.contains (World.monotonic (world (tick st)))
              (cache_key tracking_number carrier) (cache st)) eqn:Hc.
  - unfold TTLCache.contains in Hc. unfold TTLCache.getitem.
    destruct (TTLCache.find (cache_key tracking_number carrier)
                (TTLCache.links (cache st))) as [l |] eqn:Hf; [| discriminate].
    apply Z.ltb_lt in Hc. pose proof (Hsurvives l Hf Hc) as Hread.
    apply Z.ltb_lt in Hread.
    cbn [cache calls tick]. rewrite Hf, Hread. unfold ret, with_cache. cbn.
    eexists _, _. split; [reflexivity |]. split; [reflexivity |].
    left. exists l. repeat split; auto.
  - assert (Hres :
      forall st1 (k : CarrierType.t * bool -> M TrackingResponse.t),
        mbind (match carrier with
               | Some c => ret (c, false)
               | None =>
                   mbind (log (DetectCall tracking_number))
                     (fun _ => ret (detect_carrier getenv DHLCarrier AmazonCarrier
                                      tracking_number, true))
               end) k st1
        = k (resolved tracking_number carrier, was_detected carrier)
            {| cache := cache st1;
               calls := (calls st1 ++ detection_calls tracking_number carrier)%list;
               tick := tick st1 |}).
    { intros st1 k. destruct carrier; unfold mbind, ret, log; cbn.
      - rewrite app_nil_r. now destruct st1.
      - reflexivity. }
    unfold mbind in Hres. rewrite Hres. clear Hres. cbn -[get_carrier resolved_carrier].
    destruct (CarrierType.eqb (resolved tracking_number carrier) CarrierType.UNKNOWN)
      eqn:Hu.
    + unfold CarrierType.eqb in Hu.
      destruct (CarrierType.eq_dec _ _) as [Heq |]; [| discriminate].
      unfold ret. eexists _, _. split; [reflexivity |]. split; [reflexivity |].
      right. split; [reflexivity |]. left. repeat split; auto.
    + assert (Hne : resolved tracking_number carrier <> CarrierType.UNKNOWN).
      { unfold CarrierType.eqb in Hu.
        now destruct (CarrierType.eq_dec _ _). }
      destruct (get_carrier' (resolved tracking_number carrier)) as [adapter |] eqn:Hg.
      * unfold try_exceptM, mbind, log, await, cache_setitem, ret.
        cbn -[get_carrier resolved_carrier TTLCache.setitem].
        destruct (BaseCarrier.track adapter tracking_number (world (tick st)))
          as [[p |] | e] eqn:Ht.
        -- destruct (TTLCache.setitem (World.monotonic_store (world (tick st)))
                       (cache_key tracking_number carrier)
                       (Package.set_carrier_detected (was_detected carrier) p)
                       (cache st)) as [[u | e] c'] eqn:Hs;
             cbn -[get_carrier resolved_carrier TTLCache.setitem]; rewrite ?Hs;
             cbn -[get_carrier resolved_carrier].
           ++ eexists _, _. split; [reflexivity |]. split; [reflexivity |].
              right. split; [reflexivity |]. right. right.
              split; [assumption |]. exists adapter. repeat split.
              right. right. exists p. split; [assumption |].
              rewrite Hs. split; reflexivity.
           ++ eexists _, _. split; [reflexivity |]. split; [reflexivity |].
              right. split; [reflexivity |]. right. right.
              split; [assumption |]. exists adapter. repeat split.
              right. right. exists p. split; [assumption |].
              rewrite Hs. split; reflexivity.
        -- eexists _, _. split; [reflexivity |]. split; [reflexivity |].
           right. split; [reflexivity |]. right. right.
           split; [assumption |]. exists adapter. repeat split.
           right. left. repeat split; auto.
        -- eexists _, _. split; [reflexivity |]. split; [reflexivity |].
           right. split; [reflexivity |]. right. right.
           split; [assumption |]. exists adapter. repeat split.
           left. exists e. repeat split; auto.
      * unfold ret. eexists _, _. split; [reflexivity |]. split; [reflexivity |].
        right. split; [reflexivity |]. right. left. repeat split; auto.
Qed.

(** A call that returns met no such expiry. *)
Lemma returned_survives (tracking_number : string)
      (carrier : option CarrierType.t) (st st' : State) (r : TrackingResponse.t) :
  track_package' tracking_number carrier st = (Return r, st') ->
  hit_survives (world (tick st)) (cache_key tracking_number carrier) (cache st).
Proof.
  intros Hrun.
  destruct (survives_or_race (world (tick st))
              (cache_key tracking_number carrier) (cache st))
    as [H | (l & Hfind & Hlive & Hdead)]; [assumption |].
  rewrite (track_package_race _ _ _ l Hfind Hlive Hdead) in Hrun. discriminate.
Qed.

(** A call either raises on that path, leaving the cache as a hit leaves
    it, or returns. *)
Lemma track_package_cases (tracking_number : string)
      (carrier : option CarrierType.t) (st st' : State)
      (outcome : exc TrackingResponse.t) :
  track_package' tracking_number carrier st = (outcome, st') ->
  (exists l,
     TTLCache.find (cache_key tracking_number carrier) (TTLCache.links (cache st))
     = Some l
     /\ cache st' = TTLCache.with_links (cache st)
                      (TTLCache.delete (cache_key tracking_number carrier)
                         (TTLCache.links (cache st)) ++ [l])
     /\ calls st' = calls st
     /\ tick st' = S (tick st)
     /\ outcome = Raise (Exception (cache_key tracking_number carrier)))
  \/ (exists r,
        outcome = Return r
        /\ hit_survives (world (tick st)) (cache_key tracking_number carrier)
             (cache st)).
Proof.
  intros Hrun.
  destruct (survives_or_race (world (tick st))
              (cache_key tracking_number carrier) (cache st))
    as [Hsurvives | (l & Hfind & Hlive & Hdead)].
  - right. destruct (track_package_paths tracking_number carrier st Hsurvives)
      as (r & st1 & Heq & _).
    rewrite Hrun in Heq. injection Heq as -> _. eauto.
  - left. exists l. rewrite (track_package_race _ _ _ l Hfind Hlive Hdead) in Hrun.
    injection Hrun as <- <-. repeat split; assumption.
Qed.

(** *** The cache *)

Lemma find_delete (k : string) (ls : list TTLCache.Link) :
  TTLCache.find k (TTLCache.delete k ls) = None.
Proof.
  unfold TTLCache.delete.
  induction ls as [| l ls IH]; simpl; [reflexivity |].
  destruct (String.eqb (TTLCache.key l) k) eqn:Hk; simpl; [assumption |].
  now rewrite Hk.
Qed.

Lemma find_skipn_none (k : string) (n : nat) (ls : list TTLCache.Link) :
  TTLCache.find k ls = None -> TTLCache.find k (skipn n ls) = None.
Proof.
  revert ls. induction n as [| n IH]; intros [| l ls]; simpl; auto.
  destruct (String.eqb (TTLCache.key l) k); [discriminate | auto].
Qed.

Lemma find_app_last (k : string) (ls : list TTLCache.Link) (l : TTLCache.Link) :
  TTLCache.find k ls = None -> TTLCache.key l = k ->
  TTLCache.find k (ls ++ [l]) = Some l.
Proof.
  intros Hnone Hkey. induction ls as [| l' ls IH]; simpl in *.
  - rewrite Hkey, String.eqb_refl. reflexivity.
  - destruct (String.eqb (TTLCache.key l') k); [discriminate | auto].
Qed.

Lemma find_some_key (k : string) (ls : list TTLCache.Link) (l : TTLCache.Link) :
  TTLCache.find k ls = Some l -> TTLCache.key l = k /\ In l ls.
Proof.
  induction ls as [| l' ls IH]; simpl; [discriminate |].
  destruct (String.eqb (TTLCache.key l') k) eqn:Hk.
  - intros H. injection H as <-. apply String.eqb_eq in Hk. auto.
  - intros H. destruct (IH H). auto.
Qed.

(** Storing never raises in a cache that has room for an entry; the entry
    stored is then the one found under its key, and it expires [ttl] after
    the store. *)
Lemma setitem_stores (now : Z) (k : string) (v : Package.t) (c : TTLCache.t) :
  1 <= TTLCache.maxsize c ->
  exists c',
    TTLCache.setitem now k v c = (Return tt, c')
    /\ TTLCache.maxsize c' = TTLCache.maxsize c
    /\ TTLCache.ttl c' = TTLCache.ttl c
    /\ TTLCache.find k (TTLCache.links c')
       = Some {| TTLCache.key := k; TTLCache.value := v;
                 TTLCache.expires := now + TTLCache.ttl c |}.
Proof.
  intros Hmax. unfold TTLCache.setitem. cbn [TTLCache.maxsize TTLCache.expire
    TTLCache.with_links TTLCache.ttl TTLCache.links].
  destruct (TTLCache.maxsize c <? 1) eqn:Hlt; [apply Z.ltb_lt in Hlt; lia |].
  eexists. split; [reflexivity |]. cbn. repeat split.
  apply find_app_last; [| reflexivity].
  destruct (TTLCache.find k (filter (fun l => now <? TTLCache.expires l)
                               (TTLCache.links c))) eqn:Hf.
  - apply find_delete.
  - unfold TTLCache.evict. now apply find_skipn_none.
Qed.

(** Whatever a store leaves in the cache was there before or is the entry
    stored. *)
Lemma setitem_links (now : Z) (k : string) (v : Package.t) (c c' : TTLCache.t)
      (outcome : exc unit) (l : TTLCache.Link) :
  TTLCache.setitem now k v c = (outcome, c') ->
  In l (TTLCache.links c') ->
  In l (TTLCache.links c) \/ TTLCache.key l = k.
Proof.
  unfold TTLCache.setitem. cbn [TTLCache.maxsize TTLCache.expire
    TTLCache.with_links TTLCache.ttl TTLCache.links].
  destruct (TTLCache.maxsize c <? 1).
  - intros H. injection H as _ <-. cbn. intros Hin.
    apply filter_In in Hin. tauto.
  - intros H. injection H as _ <-. cbn. intros Hin.
    apply in_app_or in Hin. destruct Hin as [Hin | [<- | []]]; [| now right].
    left.
    destruct (TTLCache.find k (filter (fun l => now <? TTLCache.expires l)
                                 (TTLCache.links c))).
    + unfold TTLCache.delete in Hin. apply filter_In in Hin.
      destruct Hin as [Hin _]. apply filter_In in Hin. tauto.
    + unfold TTLCache.evict in Hin.
      assert (Hin' : In l (filter (fun l => now <? TTLCache.expires l)
                              (TTLCache.links c))).
      { rewrite <- (firstn_skipn
          (Z.to_nat (Z.of_nat (List.length
             (filter (fun l => now <? TTLCache.expires l) (TTLCache.links c)))
                     + 1 - TTLCache.maxsize c))).
        apply in_or_app. now right. }
      apply filter_In in Hin'. tauto.
Qed.

Lemma setitem_shape (now : Z) (k : string) (v : Package.t) (c c' : TTLCache.t)
      (outcome : exc unit) :
  TTLCache.setitem now k v c = (outcome, c') ->
  TTLCache.maxsize c' = TTLCache.maxsize c /\ TTLCache.ttl c' = TTLCache.ttl c.
Proof.
  unfold TTLCache.setitem. cbn [TTLCache.maxsize TTLCache.expire
    TTLCache.with_links TTLCache.ttl TTLCache.links].
  destruct (TTLCache.maxsize c <? 1); intros H; injection H as _ <-; auto.
Qed.

(** The cache key tells the carrier argument and the tracking number
    apart: no carrier value contains an underscore or starts like "auto". *)
Lemma cache_key_inj (tn1 tn2 : string) (c1 c2 : option CarrierType.t) :
  cache_key tn1 c1 = cache_key tn2 c2 -> tn1 = tn2 /\ c1 = c2.
Proof.
  unfold cache_key.
  destruct c1 as [[] |], c2 as [[] |]; cbn; intros H; split; congruence.
Qed.

Lemma init_invariant : cache_invariant getenv DHLCarrier AmazonCarrier init.
Proof.
  unfold cache_invariant, init; cbn. repeat split. intros l [].
Qed.



(** A request that returns either succeeded or left the cache alone. *)
Lemma track_package_success_or_same_cache_in
      (tracking_number : string) (carrier : option CarrierType.t)
      (st st' : State) (response : TrackingResponse.t) :
  1 <= TTLCache.maxsize (cache st) ->
  track_package' tracking_number carrier st = (Return response, st') ->
  TrackingResponse.success response = true \/ cache st' = cache st.
Proof.
  intros Hmax Hrun.
  destruct (track_package_paths tracking_number carrier st
              (returned_survives _ _ _ _ _ Hrun))
    as (response1 & st1 & Heq & _ & Hpath).
  rewrite Hrun in Heq. injection Heq as <- <-.
  destruct Hpath as [(l & _ & _ & -> & _) | (_ & Hmiss)]; [now left |].
  destruct Hmiss as [(_ & _ & -> & _) | [(_ & _ & _ & -> & _) | Hcall]];
    [now right | now right |].
  destruct Hcall as (_ & adapter & _ & _ & Hout).
  destruct Hout as [(e & _ & _ & ->) | [(_ & _ & ->) | (p & _ & Hstore)]];
    [now right | now right |].
  cbv zeta in Hstore.
  destruct (setitem_stores
              (World.monotonic_store (world (tick st)))
              (cache_key tracking_number carrier)
              (Package.set_carrier_detected (was_detected carrier) p)
              (cache st)) as (c' & Hs & _); [lia |].
  rewrite Hs in Hstore. destruct Hstore as [-> _]. now left.
Qed.

(** *** Batches *)

Local Abbreviation track_batch' :=
  (track_batch getenv DHLCarrier AmazonCarrier world format_carrier).







(** *** Interleaved requests *)

Local Abbreviation until_await :=
  (track_package_until_await getenv DHLCarrier AmazonCarrier world format_carrier).
Local Abbreviation invariant := (cache_invariant getenv DHLCarrier AmazonCarrier).
Local Abbreviation slot_of' :=
  (slot_of getenv DHLCarrier AmazonCarrier world format_carrier).
Local Abbreviation responds' :=
  (responds getenv DHLCarrier AmazonCarrier world format_carrier).
Local Abbreviation step' :=
  (step getenv DHLCarrier AmazonCarrier world format_carrier).
Local Abbreviation steps' :=
  (steps getenv DHLCarrier AmazonCarrier world format_carrier).
Local Abbreviation pool_invariant' :=
  (pool_invariant getenv DHLCarrier AmazonCarrier world format_carrier).


(** The first stretch raises where [track_package] does, and leaves the
    same state. *)
Lemma until_await_race (tracking_number : string)
      (carrier : option CarrierType.t) (st : State) (l : TTLCache.Link) :
  let w := world (tick st) in
  let key := cache_key tracking_number carrier in
  TTLCache.find key (TTLCache.links (cache st)) = Some l ->
  World.monotonic w < TTLCache.expires l ->
  TTLCache.expires l <= World.monotonic_getitem w ->
  until_await tracking_number carrier st
  = (Raise (Exception key),
     {| cache := TTLCache.with_links (cache st)
                   (TTLCache.delete key (TTLCache.links (cache st)) ++ [l]);
        calls := calls st;
        tick := S (tick st) |}).
Proof.
  cbv zeta. intros Hfind Hlive Hdead.
  unfold track_package_until_await, mbind, enter, cache_contains, cache_getitem.
  cbn [fst snd]. cbn [cache calls tick].
  apply Z.ltb_lt in Hlive. apply Z.ltb_ge in Hdead.
  unfold TTLCache.contains. rewrite Hfind, Hlive.
  unfold TTLCache.getitem. cbn [cache calls tick]. rewrite Hfind, Hdead.
  reflexivity.
Qed.

(** When no entry expires between the membership test and the read, the
    first stretch does not raise.  It ends with the response, which is
    then the response of the whole of [track_package], or at the await,
    with the cache untouched. *)
Lemma until_await_paths (tracking_number : string)
      (carrier : option CarrierType.t) (st : State) :
  hit_survives (world (tick st)) (cache_key tracking_number carrier) (cache st) ->
  exists t st1,
    until_await tracking_number carrier st = (Return t, st1)
    /\ ((exists r,
           t = Done r
           /\ track_package' tracking_number carrier st = (Return r, st1))
        \/
        (exists delivered,
           t = Awaiting tracking_number (cache_key tracking_number carrier)
                 (was_detected carrier) delivered (world (tick st))
           /\ cache st1 = cache st
           /\ resolved tracking_number carrier <> CarrierType.UNKNOWN
           /\ track_package' tracking_number carrier st
              = track_package_after_await (cache_key tracking_number carrier)
                  (was_detected carrier) delivered (world (tick st)) st1)).
Proof.
  intros Hsurvives.
  unfold track_package_until_await, track_package, track_package_after_await,
    mbind, enter, cache_contains, cache_getitem, with_cache.
  request_step.
  destruct (TTLCache.contains (World.monotonic (world (tick st)))
              (cache_key tracking_number carrier) (cache st)) eqn:Hc; request_step.
  - unfold TTLCache.contains in Hc. unfold TTLCache.getitem.
    destruct (TTLCache.find (cache_key tracking_number carrier)
                (TTLCache.links (cache st))) as [l |] eqn:Hf; [| discriminate].
    apply Z.ltb_lt in Hc. pose proof (Hsurvives l Hf Hc) as Hread.
    apply Z.ltb_lt in Hread. rewrite Hread.
    unfold ret. eexists _, _. split; [reflexivity |].
    left. eexists. split; reflexivity.
  - destruct carrier as [c |]; unfold ret, log, mbind; request_step.
    + destruct (CarrierType.eqb c CarrierType.UNKNOWN) eqn:Hu.
      { eexists _, _. split; [reflexivity |]. left. eexists. split; reflexivity. }
      destruct (get_carrier' c) as [adapter |].
      * unfold try_exceptM, mbind, log, await, ret. request_step.
        eexists _, _. split; [reflexivity |]. right. eexists.
        split; [reflexivity |]. split; [reflexivity |]. split; [| reflexivity].
        unfold resolved_carrier, CarrierType.eqb in *.
        now destruct (CarrierType.eq_dec c CarrierType.UNKNOWN).
      * eexists _, _. split; [reflexivity |]. left. eexists. split; reflexivity.
    + destruct (CarrierType.eqb
                  (detect_carrier getenv DHLCarrier AmazonCarrier tracking_number)
                  CarrierType.UNKNOWN) eqn:Hu.
      { eexists _, _. split; [reflexivity |]. left. eexists. split; reflexivity. }
      destruct (get_carrier' (detect_carrier getenv DHLCarrier AmazonCarrier
                                tracking_number)) as [adapter |].
      * unfold try_exceptM, mbind, log, await, ret. request_step.
        eexists _, _. split; [reflexivity |]. right. eexists.
        split; [reflexivity |]. split; [reflexivity |]. split; [| reflexivity].
        unfold resolved_carrier, CarrierType.eqb in *.
        now destruct (CarrierType.eq_dec _ CarrierType.UNKNOWN).
      * eexists _, _. split; [reflexivity |]. left. eexists. split; reflexivity.
Qed.

Lemma until_await_cases (tracking_number : string)
      (carrier : option CarrierType.t) (st st' : State) (outcome : exc Task) :
  until_await tracking_number carrier st = (outcome, st') ->
  (exists l,
     TTLCache.find (cache_key tracking_number carrier) (TTLCache.links (cache st))
     = Some l
     /\ cache st' = TTLCache.with_links (cache st)
                      (TTLCache.delete (cache_key tracking_number carrier)
                         (TTLCache.links (cache st)) ++ [l])
     /\ calls st' = calls st
     /\ tick st' = S (tick st)
     /\ outcome = Raise (Exception (cache_key tracking_number carrier)))
  \/ (exists t,
        outcome = Return t
        /\ hit_survives (world (tick st)) (cache_key tracking_number carrier)
             (cache st)).
Proof.
  intros Hrun.
  destruct (survives_or_race (world (tick st))
              (cache_key tracking_number carrier) (cache st))
    as [Hsurvives | (l & Hfind & Hlive & Hdead)].
  - right. destruct (until_await_paths tracking_number carrier st Hsurvives)
      as (t & st1 & Heq & _).
    rewrite Hrun in Heq. injection Heq as -> _. eauto.
  - left. exists l. rewrite (until_await_race _ _ _ l Hfind Hlive Hdead) in Hrun.
    injection Hrun as <- <-. repeat split; assumption.
Qed.

(** The second stretch never raises in a cache with room for an entry: it
    returns the response made of what the adapter delivered.  On failure
    the cache stays as it was; on success the package is stored. *)
Lemma after_await_paths (key : string) (detected : bool)
      (delivered : exc (option Package.t)) (w : World.t) (st : State) :
  1 <= TTLCache.maxsize (cache st) ->
  exists st',
    track_package_after_await key detected delivered w st
    = (Return (delivered_response detected delivered), st')
    /\ ((TrackingResponse.success (delivered_response detected delivered) = false
         /\ cache st' = cache st)
        \/
        (exists p,
           delivered = Return (Some p)
           /\ TTLCache.setitem (World.monotonic_store w) key
                (Package.set_carrier_detected detected p) (cache st)
              = (Return tt, cache st'))).
Proof.
  intros Hmax.
  unfold track_package_after_await, try_exceptM, mbind, await, cache_setitem,
    ret, with_cache, delivered_response.
  destruct delivered as [[p |] | e]; request_step.
  - destruct (setitem_stores (World.monotonic_store w) key
                (Package.set_carrier_detected detected p) (cache st) Hmax)
      as (c' & Hs & _).
    rewrite Hs. eexists. split; [reflexivity |].
    right. exists p. split; [reflexivity |]. exact Hs.
  - eexists. split; [reflexivity |]. left. split; reflexivity.
  - eexists. split; [reflexivity |]. left. split; reflexivity.
Qed.



(** *** The bound of the cache and the origin of its entries *)

Lemma delete_length_found (k : string) (ls : list TTLCache.Link) (l : TTLCache.Link) :
  TTLCache.find k ls = Some l ->
  (S (List.length (TTLCache.delete k ls)) <= List.length ls)%nat.
Proof.
  unfold TTLCache.delete.
  induction ls as [| x ls IH]; simpl; [discriminate |].
  destruct (String.eqb (TTLCache.key x) k) eqn:Hk; simpl.
  - intros _. pose proof (filter_length_le
      (fun l0 => negb (String.eqb (TTLCache.key l0) k)) ls). lia.
  - intros H. specialize (IH H). lia.
Qed.

Lemma keys_filter_in (f : TTLCache.Link -> bool) (ls : list TTLCache.Link) (k : string) :
  In k (map TTLCache.key (filter f ls)) -> In k (map TTLCache.key ls).
Proof.
  intros H. apply in_map_iff in H. destruct H as (l & <- & Hin).
  apply filter_In in Hin. apply in_map. tauto.
Qed.

Lemma keys_filter_NoDup (f : TTLCache.Link -> bool) (ls : list TTLCache.Link) :
  NoDup (map TTLCache.key ls) -> NoDup (map TTLCache.key (filter f ls)).
Proof.
  induction ls as [| x ls IH]; simpl; [auto |].
  intros H. inversion H as [| ? ? Hnot Hrest]; subst.
  destruct (f x); simpl; [| auto].
  constructor; [| auto]. intros Hin. apply Hnot.
  eapply keys_filter_in; eassumption.
Qed.

Lemma keys_skipn_in (n : nat) (ls : list TTLCache.Link) (k : string) :
  In k (map TTLCache.key (skipn n ls)) -> In k (map TTLCache.key ls).
Proof.
  intros H. rewrite <- (firstn_skipn n ls), map_app. apply in_or_app. now right.
Qed.

Lemma keys_skipn_NoDup (n : nat) (ls : list TTLCache.Link) :
  NoDup (map TTLCache.key ls) -> NoDup (map TTLCache.key (skipn n ls)).
Proof.
  revert ls. induction n as [| n IH]; intros [| x ls]; simpl; auto.
  intros H. inversion H; subst. auto.
Qed.

Lemma find_none_keys (k : string) (ls : list TTLCache.Link) :
  TTLCache.find k ls = None -> ~ In k (map TTLCache.key ls).
Proof.
  induction ls as [| x ls IH]; simpl; [tauto |].
  destruct (String.eqb (TTLCache.key x) k) eqn:Hk; [discriminate |].
  intros H [Heq | Hin]; [| now apply IH].
  apply String.eqb_neq in Hk. contradiction.
Qed.

Lemma keys_snoc_NoDup (ls : list TTLCache.Link) (l : TTLCache.Link) :
  NoDup (map TTLCache.key ls) -> ~ In (TTLCache.key l) (map TTLCache.key ls) ->
  NoDup (map TTLCache.key (ls ++ [l])).
Proof.
  intros Hnd Hnot. rewrite map_app. simpl.
  apply NoDup_rev in Hnd. apply (NoDup_cons (TTLCache.key l)) in Hnd.
  - apply NoDup_rev in Hnd. simpl in Hnd. now rewrite rev_involutive in Hnd.
  - now rewrite <- in_rev.
Qed.

Lemma Forall_filter_keep {A : Type} (P : A -> Prop) (f : A -> bool) (ls : list A) :
  Forall P ls -> Forall P (filter f ls).
Proof.
  intros Hall. apply Forall_forall. intros x Hx. apply filter_In in Hx.
  rewrite Forall_forall in Hall. apply Hall. tauto.
Qed.

Lemma Forall_skipn_keep {A : Type} (P : A -> Prop) (n : nat) (ls : list A) :
  Forall P ls -> Forall P (skipn n ls).
Proof.
  intros Hall. apply Forall_forall. intros x Hx.
  rewrite Forall_forall in Hall. apply Hall.
  rewrite <- (firstn_skipn n ls). apply in_or_app. now right.
Qed.

(** A hit moves its entry to the end and changes nothing else. *)
Lemma touch_sound (k : string) (ls : list TTLCache.Link) (l : TTLCache.Link)
      (P : TTLCache.Link -> Prop) :
  TTLCache.find k ls = Some l ->
  (List.length ls <= 1000)%nat -> NoDup (map TTLCache.key ls) -> Forall P ls ->
  (List.length (TTLCache.delete k ls ++ [l]) <= 1000)%nat
  /\ NoDup (map TTLCache.key (TTLCache.delete k ls ++ [l]))
  /\ Forall P (TTLCache.delete k ls ++ [l]).
Proof.
  intros Hfind Hlen Hnd Hall.
  destruct (find_some_key _ _ _ Hfind) as [Hkey Hin].
  split; [| split].
  - rewrite length_app. simpl. pose proof (delete_length_found _ _ _ Hfind). lia.
  - apply keys_snoc_NoDup.
    + now apply keys_filter_NoDup.
    + rewrite Hkey. apply find_none_keys, find_delete.
  - apply Forall_app. split.
    + now apply Forall_filter_keep.
    + constructor; [| constructor]. rewrite Forall_forall in Hall. now apply Hall.
Qed.

(** A store leaves the cache within its bound and with one entry per key;
    what it leaves was there before or is the entry stored. *)
Lemma setitem_sound (now : Z) (k : string) (v : Package.t) (c c' : TTLCache.t)
      (P : TTLCache.Link -> Prop) :
  TTLCache.maxsize c = 1000 ->
  TTLCache.setitem now k v c = (Return tt, c') ->
  (List.length (TTLCache.links c) <= 1000)%nat ->
  NoDup (map TTLCache.key (TTLCache.links c)) ->
  Forall P (TTLCache.links c) ->
  P {| TTLCache.key := k; TTLCache.value := v;
       TTLCache.expires := now + TTLCache.ttl c |} ->
  (List.length (TTLCache.links c') <= 1000)%nat
  /\ NoDup (map TTLCache.key (TTLCache.links c'))
  /\ Forall P (TTLCache.links c').
Proof.
  intros Hmax. unfold TTLCache.setitem. cbn [TTLCache.maxsize TTLCache.expire
    TTLCache.with_links TTLCache.ttl TTLCache.links].
  rewrite Hmax. cbn [Z.ltb Z.compare].
  set (live := filter (fun l => now <? TTLCache.expires l) (TTLCache.links c)).
  intros H Hlen Hnd Hall Hnew. injection H as <-. cbn [TTLCache.links].
  assert (Hlen_live : (List.length live <= 1000)%nat).
  { pose proof (filter_length_le (fun l => now <? TTLCache.expires l)
                  (TTLCache.links c)). unfold live. lia. }
  assert (Hnd_live : NoDup (map TTLCache.key live)) by now apply keys_filter_NoDup.
  assert (Hall_live : Forall P live) by now apply Forall_filter_keep.
  destruct (TTLCache.find k live) as [old |] eqn:Hfind;
    cbn [TTLCache.links TTLCache.with_links].
  - split; [| split].
    + rewrite length_app. simpl.
      pose proof (delete_length_found _ _ _ Hfind). lia.
    + apply keys_snoc_NoDup; cbn [TTLCache.key].
      * now apply keys_filter_NoDup.
      * apply find_none_keys, find_delete.
    + apply Forall_app. split; [now apply Forall_filter_keep |].
      constructor; [assumption | constructor].
  - unfold TTLCache.evict. split; [| split].
    + rewrite length_app, length_skipn. simpl. lia.
    + apply keys_snoc_NoDup; cbn [TTLCache.key].
      * now apply keys_skipn_NoDup.
      * intros Hin. apply keys_skipn_in in Hin.
        revert Hin. now apply find_none_keys.
    + apply Forall_app. split; [now apply Forall_skipn_keep |].
      constructor; [assumption | constructor].
Qed.

Local Abbreviation sound := (cache_sound getenv DHLCarrier AmazonCarrier world).
Local Abbreviation pool_sound' :=
  (pool_sound getenv DHLCarrier AmazonCarrier world).
Local Abbreviation stored := (stored_by_request getenv DHLCarrier AmazonCarrier world).
Local Abbreviation waits := (waits_for_adapter getenv DHLCarrier AmazonCarrier world).
Local Abbreviation answered' := (answered getenv DHLCarrier AmazonCarrier world).

Lemma stored_later (n m : nat) (l : TTLCache.Link) :
  (n <= m)%nat -> stored n l -> stored m l.
Proof.
  intros Hle (i & tn & carrier & p & Hlt & H). exists i, tn, carrier, p.
  split; [lia | assumption].
Qed.

Lemma waits_later (n m : nat) (t : Task) : (n <= m)%nat -> waits n t -> waits m t.
Proof.
  intros Hle. destruct t as [| tn key detected delivered w | |]; cbn; auto.
  intros (i & carrier & adapter & Hlt & H). exists i, carrier, adapter.
  split; [lia | assumption].
Qed.

Lemma sound_later (st st' : State) :
  cache st' = cache st -> (tick st <= tick st')%nat -> sound st -> sound st'.
Proof.
  unfold cache_sound. intros -> Hle (Hmax & Httl & Hlen & Hnd & Hall).
  repeat split; try assumption.
  eapply Forall_impl; [| eassumption]. intros l. now apply stored_later.
Qed.

Lemma init_sound : sound init.
Proof.
  unfold cache_sound, init; cbn. repeat split; try lia; constructor.
Qed.

(** A read of the cache, whether it returns or raises, keeps the cache
    sound. *)
Lemma touch_keeps_sound (key : string) (l : TTLCache.Link) (st st' : State) :
  sound st ->
  TTLCache.find key (TTLCache.links (cache st)) = Some l ->
  cache st' = TTLCache.with_links (cache st)
                (TTLCache.delete key (TTLCache.links (cache st)) ++ [l]) ->
  (tick st <= tick st')%nat ->
  sound st'.
Proof.
  intros (Hmax & Httl & Hlen & Hnd & Hall) Hfind Hcache Htick.
  assert (Hall' : Forall (stored (tick st')) (TTLCache.links (cache st))).
  { eapply Forall_impl; [| eassumption]. intros l0. now apply stored_later. }
  unfold cache_sound. rewrite Hcache. cbn [TTLCache.maxsize TTLCache.ttl
    TTLCache.links TTLCache.with_links].
  split; [assumption |]. split; [assumption |].
  now apply touch_sound.
Qed.

(** A request keeps the cache sound. *)
Lemma request_preserves_sound (tracking_number : string)
      (carrier : option CarrierType.t) (st st' : State)
      (outcome : exc TrackingResponse.t) :
  sound st -> track_package' tracking_number carrier st = (outcome, st') ->
  sound st'.
Proof.
  intros Hsound Hrun.
  destruct (track_package_cases _ _ _ _ _ Hrun)
    as [(l & Hfind & Hcache & _ & Htick & _) | (r & -> & Hsurvives)].
  { apply (touch_keeps_sound _ l st st' Hsound Hfind Hcache). lia. }
  destruct (track_package_paths tracking_number carrier st Hsurvives)
    as (response & st1 & Heq & Htick & Hpath).
  rewrite Hrun in Heq. injection Heq as <- <-.
  assert (Hsame : cache st' = cache st -> sound st').
  { intros Hc. apply (sound_later st st' Hc); [lia | assumption]. }
  destruct Hpath as [(l & Hfind & _ & _ & Hcache & _) | (_ & Hmiss)].
  { apply (touch_keeps_sound _ l st st' Hsound Hfind Hcache). lia. }
  destruct Hsound as (Hmax & Httl & Hlen & Hnd & Hall).
  assert (Hall' : Forall (stored (tick st')) (TTLCache.links (cache st))).
  { eapply Forall_impl; [| eassumption]. intros l. apply stored_later. lia. }
  - destruct Hmiss as [(_ & _ & Hc & _) | [(_ & _ & _ & Hc & _) | Hcall]];
      [auto | auto |].
    destruct Hcall as (Hne & adapter & Hget & _ & Hout).
    destruct Hout as [(e & _ & _ & Hc) | [(_ & _ & Hc) | (p & Htrack & Hstore)]];
      [auto | auto |].
    cbv zeta in Hstore.
    destruct (setitem_stores
                (World.monotonic_store (world (tick st)))
                (cache_key tracking_number carrier)
                (Package.set_carrier_detected (was_detected carrier) p)
                (cache st)) as (c' & Hs & Hm' & Ht' & _); [lia |].
    rewrite Hs in Hstore. destruct Hstore as [_ Hc].
    unfold cache_sound. rewrite Hc.
    split; [congruence |]. split; [congruence |].
    apply (setitem_sound _ _ _ _ _ (stored (tick st')) Hmax Hs Hlen Hnd Hall').
    exists (tick st), tracking_number, carrier, p.
    split; [lia |]. split.
    + split; [assumption |]. exists adapter. split; assumption.
    + unfold entry_of. now rewrite Httl.
Qed.

(** The first stretch counts the request; where it suspends, it waits for
    the adapter of its request. *)
Lemma until_await_waits (tracking_number : string)
      (carrier : option CarrierType.t) (st st1 : State) (t : Task) :
  until_await tracking_number carrier st = (Return t, st1) ->
  tick st1 = S (tick st) /\ waits (S (tick st)) t.
Proof.
  unfold track_package_until_await, mbind, enter, cache_contains, cache_getitem,
    with_cache.
  request_step.
  destruct (TTLCache.contains (World.monotonic (world (tick st)))
              (cache_key tracking_number carrier) (cache st)) eqn:Hc; request_step.
  - destruct (TTLCache.getitem (World.monotonic_getitem (world (tick st)))
                (cache_key tracking_number carrier) (cache st)) as [[v | e] c'];
      unfold ret; intros H; [| discriminate].
    injection H as <- <-. cbn. auto.
  - destruct carrier as [c |]; unfold ret, log, mbind; request_step.
    + destruct (CarrierType.eqb c CarrierType.UNKNOWN) eqn:Hu.
      { intros H. injection H as <- <-. cbn. auto. }
      destruct (get_carrier' c) as [adapter |] eqn:Hg.
      * intros H. injection H as <- <-. cbn. split; [reflexivity |].
        exists (tick st), (Some c), adapter. cbn.
        repeat split; auto.
        unfold CarrierType.eqb in Hu.
        now destruct (CarrierType.eq_dec c CarrierType.UNKNOWN).
      * intros H. injection H as <- <-. cbn. auto.
    + destruct (CarrierType.eqb
                  (detect_carrier getenv DHLCarrier AmazonCarrier tracking_number)
                  CarrierType.UNKNOWN) eqn:Hu.
      { intros H. injection H as <- <-. cbn. auto. }
      destruct (get_carrier' (detect_carrier getenv DHLCarrier AmazonCarrier
                                tracking_number)) as [adapter |] eqn:Hg.
      * intros H. injection H as <- <-. cbn. split; [reflexivity |].
        exists (tick st), None, adapter. cbn.
        repeat split; auto.
        unfold CarrierType.eqb in Hu.
        now destruct (CarrierType.eq_dec _ CarrierType.UNKNOWN).
      * intros H. injection H as <- <-. cbn. auto.
Qed.

Lemma after_await_tick (key : string) (detected : bool)
      (delivered : exc (option Package.t)) (w : World.t) (st st' : State)
      (outcome : exc TrackingResponse.t) :
  track_package_after_await key detected delivered w st = (outcome, st') ->
  tick st' = tick st.
Proof.
  unfold track_package_after_await, try_exceptM, mbind, await, cache_setitem,
    ret, with_cache.
  destruct delivered as [[p |] | e]; request_step.
  - destruct (TTLCache.setitem (World.monotonic_store w) key
                (Package.set_carrier_detected detected p) (cache st))
      as [[u | e] c']; cbn; intros H; injection H as _ <-; reflexivity.
  - intros H; injection H as _ <-; reflexivity.
  - intros H; injection H as _ <-; reflexivity.
Qed.

Lemma Forall_set_nth {A : Type} (P : A -> Prop) (i : nat) (x : A) (l : list A) :
  Forall P l -> P x -> Forall P (set_nth i x l).
Proof.
  intros H Hx. revert i. induction H as [| y l Hy H IH]; intros [| i]; simpl;
    constructor; auto.
Qed.

Lemma Forall_nth_error {A : Type} (P : A -> Prop) (i : nat) (x : A) (l : list A) :
  Forall P l -> nth_error l i = Some x -> P x.
Proof.
  intros H Hnth. rewrite Forall_forall in H. apply H.
  eapply nth_error_In; eassumption.
Qed.

(** A stretch keeps the event loop sound. *)
Lemma step_preserves_sound (p q : Pool) : pool_sound' p -> step' p q -> pool_sound' q.
Proof.
  intros [Hcache Htasks] Hstep.
  destruct Hstep as [st ts i tn carrier outcome st' Hnth Hrun
                    | st ts i tn key detected delivered w outcome st' Hnth Hrun];
    unfold pool_sound; cbn [shared tasks] in *.
  - destruct (until_await_cases _ _ _ _ _ Hrun)
      as [(l & Hfind & Hcache' & _ & Htick & ->) | (t0 & -> & Hsurvives)].
    { cbn [settled]. split.
      - apply (touch_keeps_sound _ l st st' Hcache Hfind Hcache'). lia.
      - rewrite Htick. apply Forall_set_nth; [| exact I].
        eapply Forall_impl; [| eassumption]. intros t0. apply waits_later. lia. }
    destruct (until_await_paths tn carrier st Hsurvives) as (t & st1 & Heq & Hpath).
    rewrite Hrun in Heq. injection Heq as -> <-. cbn [settled].
    destruct (until_await_waits tn carrier st st' t Hrun) as [Htick Hwaits].
    split.
    + destruct Hpath as [(r & -> & Hwhole) | (d & -> & Hsame & _)].
      * eapply request_preserves_sound; eassumption.
      * apply (sound_later st st' Hsame); [lia | assumption].
    + rewrite Htick. apply Forall_set_nth; [| assumption].
      eapply Forall_impl; [| eassumption]. intros t0. apply waits_later. lia.
  - pose proof (after_await_tick _ _ _ _ _ _ _ Hrun) as Htick.
    pose proof (Forall_nth_error _ _ _ _ Htasks Hnth) as Hwait.
    cbn [waits_for_adapter] in Hwait.
    destruct Hwait as (n & carrier & adapter & Hlt & -> & -> & -> & Hne & Hget & ->).
    destruct Hcache as (Hmax & Httl & Hlen & Hnd & Hall).
    destruct (after_await_paths (cache_key tn carrier) (was_detected carrier)
                (BaseCarrier.track adapter tn (world n)) (world n) st)
      as (st2 & Hrun2 & Hpath2); [lia |].
    rewrite Hrun in Hrun2. injection Hrun2 as -> <-. cbn [settled].
    split.
    + destruct Hpath2 as [(_ & Hc) | (p & Htrack & Hs)].
      * apply (sound_later st st' Hc); [lia |]. repeat split; assumption.
      * destruct (setitem_shape _ _ _ _ _ _ Hs) as [Hm' Ht'].
        unfold cache_sound. split; [congruence |]. split; [congruence |].
        rewrite Htick.
        apply (setitem_sound _ _ _ _ _ (stored (tick st)) Hmax Hs Hlen Hnd Hall).
        exists n, tn, carrier, p. split; [assumption |]. split.
        -- split; [assumption |]. exists adapter. split; assumption.
        -- unfold entry_of. now rewrite Httl.
    + rewrite Htick. apply Forall_set_nth; [assumption | exact I].
Qed.

Lemma steps_preserve_sound (p q : Pool) : pool_sound' p -> steps' p q -> pool_sound' q.
Proof.
  intros Hinv Hsteps. revert Hinv.
  induction Hsteps as [| p q r _ IH Hstep]; intros Hinv; [assumption |].
  eapply step_preserves_sound; [apply IH; assumption | eassumption].
Qed.

Lemma spawn_sound (requests : list (string * option CarrierType.t)) (st : State) :
  sound st -> pool_sound' (spawn requests st).
Proof.
  intros Hs. split; [assumption |]. cbn.
  apply Forall_forall. intros t Hin. apply in_map_iff in Hin.
  destruct Hin as (rq & <- & _). exact I.
Qed.

Lemma reachable_sound (st : State) : reachable' st -> sound st.
Proof.
  induction 1 as [| st requests p _ IH Hsteps].
  - apply init_sound.
  - apply (steps_preserve_sound (spawn requests st) p);
      [now apply spawn_sound | assumption].
Qed.

Lemma sound_invariant (st : State) : sound st -> invariant st.
Proof.
  intros (Hmax & Httl & _ & _ & Hall). repeat split; auto.
  intros l Hin. rewrite Forall_forall in Hall.
  destruct (Hall l Hin) as (n & tn & c & p & _ & (Hne & _) & ->).
  exists tn, c. split; [reflexivity | assumption].
Qed.

(** The invariant of the cache holds in every state the orchestrator
    reaches. *)
Lemma reachable_invariant (st : State) : reachable' st -> invariant st.
Proof. intros Hreach. now apply sound_invariant, reachable_sound. Qed.





Lemma nth_error_middle {A : Type} (l1 l2 : list A) (x : A) :
  nth_error (l1 ++ x :: l2) (List.length l1) = Some x.
Proof. induction l1 as [| y l1 IH]; simpl; auto. Qed.

Lemma set_nth_middle {A : Type} (l1 l2 : list A) (x y : A) :
  set_nth (List.length l1) y (l1 ++ x :: l2) = (l1 ++ y :: l2)%list.
Proof. induction l1 as [| z l1 IH]; simpl; [reflexivity | now rewrite IH]. Qed.

(** A call of [track_package] that nothing interrupts is a run of the
    event loop: one stretch, or two with the await between them. *)
Lemma request_run (tracking_number : string) (carrier : option CarrierType.t)
      (st st' : State) (r : TrackingResponse.t) (before after : list Task) :
  track_package' tracking_number carrier st = (Return r, st') ->
  steps' {| shared := st;
            tasks := before ++ Pending tracking_number carrier :: after |}
         {| shared := st'; tasks := before ++ Done r :: after |}.
Proof.
  intros Hr.
  destruct (until_await_paths tracking_number carrier st
              (returned_survives _ _ _ _ _ Hr))
    as (t & st_a & Hrun & Hpath).
  destruct Hpath as [(r' & -> & Hwhole) | (d & -> & _ & _ & Hwhole)].
  - rewrite Hr in Hwhole. injection Hwhole as <- <-.
    eapply steps_more; [apply steps_refl |].
    rewrite <- (set_nth_middle before after
                  (Pending tracking_number carrier) (Done r)).
    apply (step_start getenv DHLCarrier AmazonCarrier world format_carrier
             st _ _ tracking_number carrier (Return (Done r)) st');
      [apply nth_error_middle | assumption].
  - rewrite Hr in Hwhole. symmetry in Hwhole.
    set (waiting := Awaiting tracking_number (cache_key tracking_number carrier)
                      (was_detected carrier) d (world (tick st))) in *.
    apply steps_more with
      (q := {| shared := st_a; tasks := before ++ waiting :: after |}).
    + eapply steps_more; [apply steps_refl |].
      rewrite <- (set_nth_middle before after
                    (Pending tracking_number carrier) waiting).
      apply (step_start getenv DHLCarrier AmazonCarrier world format_carrier
               st _ _ tracking_number carrier (Return waiting) st_a);
        [apply nth_error_middle | exact Hrun].
    + rewrite <- (set_nth_middle before after waiting (Done r)).
      apply (step_resume getenv DHLCarrier AmazonCarrier world format_carrier
               st_a _ _ tracking_number (cache_key tracking_number carrier)
               (was_detected carrier) d (world (tick st)) (Return r) st');
        [apply nth_error_middle | exact Hwhole].
Qed.

Lemma reachable_request (tracking_number : string)
      (carrier : option CarrierType.t) (st st' : State)
      (outcome : exc TrackingResponse.t) :
  reachable' st ->
  track_package' tracking_number carrier st = (outcome, st') ->
  reachable' st'.
Proof.
  intros Hreach Hrun.
  destruct outcome as [r | e].
  - apply (reachable_run getenv DHLCarrier AmazonCarrier world format_carrier
             st [(tracking_number, carrier)]
             {| shared := st'; tasks := [Done r] |} Hreach).
    apply (request_run tracking_number carrier st st' r [] [] Hrun).
  - destruct (survives_or_race (world (tick st))
                (cache_key tracking_number carrier) (cache st))
      as [Hsurvives | (l & Hfind & Hlive & Hdead)].
    + destruct (track_package_paths tracking_number carrier st Hsurvives)
        as (r & st1 & Heq & _).
      rewrite Hrun in Heq. discriminate.
    + pose proof (until_await_race _ _ _ l Hfind Hlive Hdead) as Hstart.
      rewrite (track_package_race _ _ _ l Hfind Hlive Hdead) in Hrun.
      injection Hrun as _ <-.
      apply (reachable_run getenv DHLCarrier AmazonCarrier world format_carrier
               st [(tracking_number, carrier)]
               {| shared := _;
                  tasks := [Raised (Exception (cache_key tracking_number carrier))]
               |} Hreach).
      eapply steps_more; [apply steps_refl |].
      exact (step_start getenv DHLCarrier AmazonCarrier world format_carrier
               st [Pending tracking_number carrier] 0 tracking_number carrier
               _ _ eq_refl Hstart).
Qed.









(** *** What the specification says of requests *)

Lemma track_package_success_or_same_cache
      (tracking_number : string) (carrier : option CarrierType.t)
      (st st' : State) (response : TrackingResponse.t) :
  reachable' st ->
  track_package' tracking_number carrier st = (Return response, st') ->
  TrackingResponse.success response = true \/ cache st' = cache st.
Proof.
  intros Hreach. apply track_package_success_or_same_cache_in.
  destruct (reachable_invariant st Hreach) as (-> & _). lia.
Qed.

(** C10. A call of [track_package] that returns success = false leaves the
    cache exactly as it found it; a call that changes the cache returns
    success = true. *)
Theorem track_package_failure_keeps_cache
        (tracking_number : string) (carrier : option CarrierType.t)
        (st st' : State) (response : TrackingResponse.t) :
  reachable' st ->
  track_package' tracking_number carrier st = (Return response, st') ->
  (TrackingResponse.success response = false -> cache st' = cache st)
  /\ (cache st' <> cache st -> TrackingResponse.success response = true).
Proof.
  intros Hreach Hrun.
  destruct (track_package_success_or_same_cache _ _ _ _ _ Hreach Hrun)
    as [Hs | Hc]; split; intros H; congruence.
Qed.

(** C7. When no registered adapter accepts the tracking number, a call of
    [track_package] without a carrier returns, in any state the
    orchestrator can be in, a response with success = false, no package,
    and an error that tells the caller to specify the carrier manually; it
    does not raise, and the cache is left as it was. *)
Theorem track_package_undetectable (tracking_number : string) (st : State) :
  reachable' st ->
  (forall ct c, In (ct, c) (CARRIERS getenv DHLCarrier AmazonCarrier) ->
     BaseCarrier.validate_tracking_number c tracking_number = false) ->
  exists st',
    track_package' tracking_number None st =
      (Return
         {| TrackingResponse.success := false;
            TrackingResponse.package := None;
            TrackingResponse.error :=
              Some "Could not detect carrier from tracking number. Please specify manually.";
            TrackingResponse.cached := false |},
       st')
    /\ cache st' = cache st.
Proof.
  intros Hreach Hnone.
  assert (Hdetect : resolved tracking_number None = CarrierType.UNKNOWN).
  { unfold resolved_carrier, detect_carrier.
    destruct (first_valid_first_match
                (CARRIERS getenv DHLCarrier AmazonCarrier) tracking_number)
      as [[Hu _] | (before & ct & c & after & Hsplit & _ & Hvalid & _)];
      [assumption |].
    rewrite (Hnone ct c) in Hvalid; [discriminate |].
    rewrite Hsplit. apply in_or_app. right. now left. }
  destruct (reachable_invariant st Hreach) as (_ & _ & Hkeys).
  assert (Hfree : TTLCache.find (cache_key tracking_number None)
                    (TTLCache.links (cache st)) = None).
  { destruct (TTLCache.find (cache_key tracking_number None)
                (TTLCache.links (cache st))) as [l |] eqn:Hfind; [| reflexivity].
    exfalso. apply find_some_key in Hfind. destruct Hfind as [Hkey Hin].
    destruct (Hkeys l Hin) as (tn & carrier & Hkey' & Hne).
    rewrite Hkey in Hkey'. apply cache_key_inj in Hkey'.
    destruct Hkey' as [-> <-]. contradiction. }
  assert (Hsurvives : hit_survives (world (tick st))
                        (cache_key tracking_number None) (cache st)).
  { intros l Hl. congruence. }
  destruct (track_package_paths tracking_number None st Hsurvives)
    as (response & st' & Heq & _ & Hpath).
  exists st'.
  destruct Hpath as [(l & Hfind & _) | (_ & Hpath)]; [congruence |].
  destruct Hpath as [(_ & -> & Hc & _) | [(Hne & _) | (Hne & _)]];
    [| contradiction | contradiction].
  split; assumption.
Qed.

(** C2. After a successful call of [track_package], the cache holds the
    returned Package under the key of the call.  A first call that misses
    the cache returns cached = false, and its entry expires 300 seconds
    after it was stored.  A second call with the same arguments, made
    before the entry expires (its membership test and its read of the
    cache both come before the expiry), returns success = true,
    cached = true and the same Package, and makes no detector call and no
    adapter call. *)
Theorem track_package_cache_idempotent
        (tracking_number : string) (carrier : option CarrierType.t)
        (st st1 : State) (first : TrackingResponse.t) :
  reachable' st ->
  track_package' tracking_number carrier st = (Return first, st1) ->
  TrackingResponse.success first = true ->
  let w1 := world (tick st) in
  let w2 := world (tick st1) in
  let key := cache_key tracking_number carrier in
  (TTLCache.contains (World.monotonic w1) key (cache st) = false ->
   TrackingResponse.cached first = false)
  /\ exists entry,
       TTLCache.find key (TTLCache.links (cache st1)) = Some entry
       /\ TrackingResponse.package first = Some (TTLCache.value entry)
       /\ (TrackingResponse.cached first = false ->
           TTLCache.expires entry = World.monotonic_store w1 + 300)
       /\ (World.monotonic w2 < TTLCache.expires entry ->
           World.monotonic_getitem w2 < TTLCache.expires entry ->
           exists st2,
             track_package' tracking_number carrier st1 =
               (Return
                  {| TrackingResponse.success := true;
                     TrackingResponse.package := TrackingResponse.package first;
                     TrackingResponse.error := None;
                     TrackingResponse.cached := true |},
                st2)
             /\ calls st2 = calls st1).
Proof.
  intros Hreach Hrun Hsuccess. cbv zeta.
  destruct (reachable_invariant st Hreach) as (Hmax & Httl & _).
  destruct (track_package_paths tracking_number carrier st
              (returned_survives _ _ _ _ _ Hrun))
    as (response & st' & Heq & Htick & Hpath).
  rewrite Hrun in Heq. injection Heq as <- <-.
  assert (Hentry :
    exists entry,
      TTLCache.find (cache_key tracking_number carrier) (TTLCache.links (cache st1))
      = Some entry
      /\ TrackingResponse.package first = Some (TTLCache.value entry)
      /\ (TrackingResponse.cached first = false ->
          TTLCache.expires entry
          = World.monotonic_store (world (tick st)) + 300)
      /\ (TTLCache.contains (World.monotonic (world (tick st)))
            (cache_key tracking_number carrier) (cache st) = false ->
          TrackingResponse.cached first = false)).
  { destruct Hpath as [(l & Hfind & Hlive & -> & Hcache & _) | (Hmiss & Hpath)].
    - exists l. rewrite Hcache. cbn. repeat split; try discriminate.
      + apply find_app_last; [apply find_delete |].
        now apply find_some_key in Hfind.
      + unfold TTLCache.contains. rewrite Hfind.
        intros H. apply Z.ltb_ge in H. lia.
    - destruct Hpath as [(_ & -> & _) | [(_ & _ & -> & _) | Hcall]];
        [discriminate | discriminate |].
      destruct Hcall as (_ & adapter & _ & _ & Hout).
      destruct Hout as [(e & _ & -> & _) | [(_ & -> & _) | (p & _ & Hstore)]];
        [discriminate | discriminate |].
      cbv zeta in Hstore.
      destruct (setitem_stores
                  (World.monotonic_store (world (tick st)))
                  (cache_key tracking_number carrier)
                  (Package.set_carrier_detected (was_detected carrier) p)
                  (cache st)) as (c' & Hs & _ & _ & Hfound); [lia |].
      rewrite Hs in Hstore. destruct Hstore as [-> ->].
      eexists. split; [exact Hfound |]. cbn. rewrite Httl. repeat split. }
  destruct Hentry as (entry & Hfound & Hpackage & Hexpiry & Hfirst).
  split; [assumption |].
  exists entry. repeat split; try assumption.
  intros Hlive Hread.
  assert (Hsurvives : hit_survives (world (tick st1))
                        (cache_key tracking_number carrier) (cache st1)).
  { intros l Hl _. rewrite Hfound in Hl. injection Hl as <-. assumption. }
  destruct (track_package_paths tracking_number carrier st1 Hsurvives)
    as (second & st2 & Heq2 & _ & Hpath2).
  exists st2.
  destruct Hpath2 as [(l & Hfind2 & _ & -> & _ & Hcalls) | (Hmiss2 & _)].
  - rewrite Hfound in Hfind2. injection Hfind2 as <-.
    rewrite Heq2, Hpackage. split; [reflexivity | assumption].
  - exfalso. unfold TTLCache.contains in Hmiss2. rewrite Hfound in Hmiss2.
    apply Z.ltb_ge in Hmiss2. lia.
Qed.




(** *** Further facts of the cache *)

(** X11. However many requests are made and however they interleave, the
    cache never holds more than 1000 entries and never two entries under
    one key. *)
Theorem reachable_cache_bounded (st : State) :
  reachable' st ->
  (List.length (TTLCache.links (cache st)) <= 1000)%nat
  /\ NoDup (map TTLCache.key (TTLCache.links (cache st))).
Proof.
  intros Hreach. destruct (reachable_sound st Hreach) as (_ & _ & Hlen & Hnd & _).
  split; assumption.
Qed.

(** What a call of [track_package] returns in a state the orchestrator can
    be in: a package served from the cache, which an earlier request for the
    same number and carrier argument got from its adapter and which has not
    expired; or the package that the adapter has just returned; or a
    failure. *)
Lemma track_package_outcomes (tracking_number : string)
      (carrier : option CarrierType.t) (st st' : State) (r : TrackingResponse.t) :
  reachable' st ->
  track_package' tracking_number carrier st = (Return r, st') ->
  (exists n p,
     (n < tick st)%nat
     /\ answered' n tracking_number carrier p
     /\ r = hit (Package.set_carrier_detected (was_detected carrier) p)
     /\ World.monotonic (world (tick st)) < World.monotonic_store (world n) + 300)
  \/ (exists p,
        answered' (tick st) tracking_number carrier p
        /\ r = fetched (Package.set_carrier_detected (was_detected carrier) p))
  \/ (exists text, r = failure text).
Proof.
  intros Hreach Hrun.
  destruct (reachable_sound st Hreach) as (Hmax & Httl & _ & _ & Hall).
  destruct (track_package_paths tracking_number carrier st
              (returned_survives _ _ _ _ _ Hrun))
    as (r1 & st1 & Heq & _ & Hpath).
  rewrite Hrun in Heq. injection Heq as <- <-.
  destruct Hpath as [(l & Hfind & Hlive & -> & _) | (_ & Hmiss)].
  - left. apply find_some_key in Hfind. destruct Hfind as [Hkey Hin].
    rewrite Forall_forall in Hall.
    destruct (Hall l Hin) as (n & tn0 & c0 & p & Hlt & Hans & ->).
    cbn [entry_of TTLCache.key] in Hkey. apply cache_key_inj in Hkey.
    destruct Hkey as [-> ->].
    exists n, p. cbn [entry_of TTLCache.value TTLCache.expires] in *.
    repeat split; try assumption; apply Hans.
  - right.
    destruct Hmiss as [(_ & -> & _) | [(_ & _ & -> & _) | Hcall]];
      [right; eauto | right; eauto |].
    destruct Hcall as (Hne & adapter & Hget & _ & Hout).
    destruct Hout as [(e & _ & -> & _) | [(_ & -> & _) | (p & Htrack & Hstore)]];
      [right; eauto | right; eauto |].
    cbv zeta in Hstore.
    destruct (TTLCache.setitem _ _ _ (cache st)) as [[u | e] c'];
      destruct Hstore as [-> _]; [left | right; eauto].
    exists p. split; [| reflexivity].
    split; [assumption |]. exists adapter. split; assumption.
Qed.

(** X12. A response served from the cache carries the package that the
    adapter of the same carrier returned to an earlier request for the same
    tracking number and the same carrier argument, with [carrier_detected]
    telling whether that argument was absent; and the timer at the lookup
    is less than 300 seconds past the timer at that request's store. *)
Theorem cached_package_provenance (tracking_number : string)
        (carrier : option CarrierType.t) (st st' : State) (r : TrackingResponse.t) :
  reachable' st ->
  track_package' tracking_number carrier st = (Return r, st') ->
  TrackingResponse.cached r = true ->
  exists n adapter p,
    (n < tick st)%nat
    /\ get_carrier' (resolved tracking_number carrier) = Some adapter
    /\ BaseCarrier.track adapter tracking_number (world n) = Return (Some p)
    /\ TrackingResponse.package r
       = Some (Package.set_carrier_detected (was_detected carrier) p)
    /\ World.monotonic (world (tick st)) < World.monotonic_store (world n) + 300.
Proof.
  intros Hreach Hrun Hcached.
  destruct (track_package_outcomes _ _ _ _ _ Hreach Hrun)
    as [(n & p & Hlt & (_ & adapter & Hget & Htrack) & -> & Hlive)
       | [(p & _ & ->) | (text & ->)]]; [| discriminate | discriminate].
  exists n, adapter, p. repeat split; assumption.
Qed.

Lemma usps_track_identity (s : USPSCarrier.self) tn w p :
  USPSCarrier.track s tn w = Return (Some p) ->
  Package.tracking_number p = tn /\ Package.carrier p = CarrierType.USPS
  /\ Package.id p = "usps_" ++ tn.
Proof.
  unfold USPSCarrier.track.
  destruct (negb (truthy (USPSCarrier.user_id s))).
  - intros H. injection H as <-. repeat split.
  - destruct (World.reply w) as [response | e]; simpl; [| discriminate].
    destruct (negb (status_code response =? 200)); [discriminate |].
    unfold USPSCarrier._parse_response.
    destruct (body response) as [e | [e | | status_text events]]; try discriminate.
    destruct (sorted_by_timestamp_reverse events); [| discriminate].
    intros H. injection H as <-. repeat split.
Qed.

Lemma ups_track_identity (s : UPSCarrier.self) tn w p :
  UPSCarrier.track s tn w = Return (Some p) ->
  Package.tracking_number p = tn /\ Package.carrier p = CarrierType.UPS
  /\ Package.id p = "ups_" ++ tn.
Proof.
  unfold UPSCarrier.track.
  destruct (negb (truthy (UPSCarrier.client_id s))).
  - intros H. injection H as <-. repeat split.
  - destruct (World.token w) as [access_token | e]; simpl; [| discriminate].
    destruct (World.reply w) as [response | e]; simpl; [| discriminate].
    destruct (negb (status_code response =? 200)); [discriminate |].
    destruct (body response) as [e | data]; [discriminate |].
    unfold UPSCarrier._parse_response.
    destruct data as [e | | current_status events]; try discriminate.
    + simpl. intros H. injection H as <-. repeat split.
    + destruct (sorted_by_timestamp_reverse events); [| discriminate].
      intros H. injection H as <-. repeat split.
Qed.

Lemma fedex_track_identity (s : FedExCarrier.self) tn w p :
  FedExCarrier.track s tn w = Return (Some p) ->
  Package.tracking_number p = tn /\ Package.carrier p = CarrierType.FEDEX
  /\ Package.id p = "fedex_" ++ tn.
Proof.
  unfold FedExCarrier.track.
  destruct (negb (truthy (FedExCarrier.client_id s))).
  - intros H. injection H as <-. repeat split.
  - destruct (World.token w) as [access_token | e]; simpl; [| discriminate].
    destruct (World.reply w) as [response | e]; simpl; [| discriminate].
    destruct (negb (status_code response =? 200)); [discriminate |].
    destruct (body response) as [e | data]; [discriminate |].
    unfold FedExCarrier._parse_response.
    destruct data as [e | | status_code events]; try discriminate.
    + simpl. intros H. injection H as <-. repeat split.
    + destruct (sorted_by_timestamp_reverse events); [| discriminate].
      intros H. injection H as <-. repeat split.
Qed.

(** X13. Whatever package [track_package] returns for a request that is
    dispatched to USPS, UPS or FedEx, fresh or from the cache, is about the
    tracking number as it was given and the carrier of the request; its id
    is the carrier's value, an underscore and the number; its
    [carrier_detected] tells whether the carrier argument was absent; and
    its events are in descending order of timestamp. *)
Theorem response_package_identity (tracking_number : string)
        (carrier : option CarrierType.t) (st st' : State)
        (r : TrackingResponse.t) (q : Package.t) :
  reachable' st ->
  track_package' tracking_number carrier st = (Return r, st') ->
  TrackingResponse.package r = Some q ->
  In (resolved tracking_number carrier)
     [CarrierType.USPS; CarrierType.UPS; CarrierType.FEDEX] ->
  Package.tracking_number q = tracking_number
  /\ Package.carrier q = resolved tracking_number carrier
  /\ Package.id q
     = CarrierType.value (resolved tracking_number carrier) ++ "_" ++ tracking_number
  /\ Package.carrier_detected q = was_detected carrier
  /\ descending (Package.events q).
Proof.
  intros Hreach Hrun Hq Hcarrier.
  assert (Hp : exists n p,
             answered' n tracking_number carrier p
             /\ q = Package.set_carrier_detected (was_detected carrier) p).
  { destruct (track_package_outcomes _ _ _ _ _ Hreach Hrun)
      as [(n & p & _ & Hans & -> & _) | [(p & Hans & ->) | (text & ->)]];
      [| | discriminate]; cbn in Hq; injection Hq as <-; eauto. }
  destruct Hp as (n & p & (_ & adapter & Hget & Htrack) & ->).
  cbn [Package.set_carrier_detected Package.tracking_number Package.carrier
       Package.id Package.carrier_detected Package.events].
  simpl in Hcarrier.
  destruct Hcarrier as [Hc | [Hc | [Hc | []]]]; rewrite <- Hc in *;
    cbn in Hget; injection Hget as <-; cbn [BaseCarrier.track] in Htrack.
  - destruct (usps_track_identity _ _ _ _ Htrack) as (-> & -> & ->).
    repeat split. exact (usps_track_descending _ _ _ _ Htrack).
  - destruct (ups_track_identity _ _ _ _ Htrack) as (-> & -> & ->).
    repeat split. exact (ups_track_descending _ _ _ _ Htrack).
  - destruct (fedex_track_identity _ _ _ _ Htrack) as (-> & -> & ->).
    repeat split. exact (fedex_track_descending _ _ _ _ Htrack).
Qed.

(** A store in a cache with room keeps the live entries of the other
    keys. *)
Lemma setitem_keeps (now : Z) (k : string) (v : Package.t) (c c' : TTLCache.t)
      (outcome : exc unit) (l : TTLCache.Link) :
  TTLCache.setitem now k v c = (outcome, c') ->
  (Z.of_nat (List.length (TTLCache.links c)) < TTLCache.maxsize c) ->
  In l (TTLCache.links c) -> TTLCache.key l <> k -> now < TTLCache.expires l ->
  In l (TTLCache.links c').
Proof.
  unfold TTLCache.setitem. cbn [TTLCache.maxsize TTLCache.expire
    TTLCache.with_links TTLCache.ttl TTLCache.links].
  set (live := filter (fun l => now <? TTLCache.expires l) (TTLCache.links c)).
  intros H Hroom Hin Hkey Hlive.
  assert (Hin_live : In l live).
  { apply filter_In. split; [assumption | now apply Z.ltb_lt]. }
  assert (Hlen_live : (List.length live <= List.length (TTLCache.links c))%nat)
    by apply filter_length_le.
  destruct (TTLCache.maxsize c <? 1).
  - injection H as _ <-. exact Hin_live.
  - injection H as _ <-. cbn [TTLCache.links]. apply in_or_app. left.
    destruct (TTLCache.find k live).
    + apply filter_In. split; [assumption |].
      apply Bool.negb_true_iff. now apply String.eqb_neq.
    + unfold TTLCache.evict.
      replace (Z.to_nat (Z.of_nat (List.length live) + 1 - TTLCache.maxsize c))
        with 0%nat by lia.
      exact Hin_live.
Qed.

(** X14. A request writes under its own key only: an entry under another
    key that is in the cache after the call was there before, unchanged.
    And as long as the cache has room, the call leaves in place every entry
    under another key that has not expired when the call stores. *)
Theorem track_package_other_entries (tracking_number : string)
        (carrier : option CarrierType.t) (st st' : State)
        (outcome : exc TrackingResponse.t) (l : TTLCache.Link) :
  track_package' tracking_number carrier st = (outcome, st') ->
  TTLCache.key l <> cache_key tracking_number carrier ->
  (In l (TTLCache.links (cache st')) -> In l (TTLCache.links (cache st)))
  /\ (In l (TTLCache.links (cache st)) ->
      Z.of_nat (List.length (TTLCache.links (cache st))) < TTLCache.maxsize (cache st) ->
      World.monotonic_store (world (tick st)) < TTLCache.expires l ->
      In l (TTLCache.links (cache st'))).
Proof.
  intros Hrun Hkey.
  assert (Htouched : forall l0,
            TTLCache.find (cache_key tracking_number carrier)
              (TTLCache.links (cache st)) = Some l0 ->
            cache st' = TTLCache.with_links (cache st)
                          (TTLCache.delete (cache_key tracking_number carrier)
                             (TTLCache.links (cache st)) ++ [l0]) ->
            (In l (TTLCache.links (cache st')) -> In l (TTLCache.links (cache st)))
            /\ (In l (TTLCache.links (cache st)) ->
                Z.of_nat (List.length (TTLCache.links (cache st)))
                < TTLCache.maxsize (cache st) ->
                World.monotonic_store (world (tick st)) < TTLCache.expires l ->
                In l (TTLCache.links (cache st')))).
  { intros l0 Hfind Hcache.
    rewrite Hcache. cbn [TTLCache.links TTLCache.with_links].
    apply find_some_key in Hfind. destruct Hfind as [Hk0 Hin0]. split.
    + intros Hin. apply in_app_or in Hin. destruct Hin as [Hin | [<- | []]].
      * apply filter_In in Hin. tauto.
      * assumption.
    + intros Hin _ _. apply in_or_app. left. apply filter_In.
      split; [assumption |]. apply Bool.negb_true_iff. now apply String.eqb_neq. }
  destruct (track_package_cases _ _ _ _ _ Hrun)
    as [(l0 & Hfind & Hcache & _) | (r0 & -> & Hsurvives)];
    [now apply (Htouched l0) |].
  destruct (track_package_paths tracking_number carrier st Hsurvives)
    as (r & st1 & Heq & _ & Hpath).
  rewrite Hrun in Heq. injection Heq as <- <-.
  destruct Hpath as [(l0 & Hfind & _ & _ & Hcache & _) | (_ & Hmiss)].
  - now apply (Htouched l0).
  - destruct Hmiss as [(_ & _ & Hc & _) | [(_ & _ & _ & Hc & _) | Hcall]];
      [rewrite Hc; tauto | rewrite Hc; tauto |].
    destruct Hcall as (_ & adapter & _ & _ & Hout).
    destruct Hout as [(e & _ & _ & Hc) | [(_ & _ & Hc) | (p & _ & Hstore)]];
      [rewrite Hc; tauto | rewrite Hc; tauto |].
    cbv zeta in Hstore.
    destruct (TTLCache.setitem _ _ _ (cache st)) as [stored c'] eqn:Hs.
    assert (Hc : cache st' = c') by (destruct stored; tauto).
    rewrite Hc. split.
    + intros Hin.
      destruct (setitem_links _ _ _ _ _ _ l Hs Hin);
        [assumption | contradiction].
    + intros Hin Hroom Hlive. eapply setitem_keeps; eassumption.
Qed.

(** The carrier that detection returns is registered, and its adapter
    accepts the number. *)
Lemma detected_adapter_accepts (tracking_number : string) :
  detect_carrier getenv DHLCarrier AmazonCarrier tracking_number
  <> CarrierType.UNKNOWN ->
  exists adapter,
    get_carrier' (detect_carrier getenv DHLCarrier AmazonCarrier tracking_number)
    = Some adapter
    /\ BaseCarrier.validate_tracking_number adapter tracking_number = true.
Proof.
  unfold detect_carrier, get_carrier, CARRIERS. cbn [first_valid].
  destruct (BaseCarrier.validate_tracking_number
              (USPSCarrier.carrier (USPSCarrier.init getenv)) tracking_number) eqn:H1;
    [intros _; eexists; split; [reflexivity | assumption] |].
  destruct (BaseCarrier.validate_tracking_number
              (UPSCarrier.carrier (UPSCarrier.init getenv)) tracking_number) eqn:H2;
    [intros _; eexists; split; [reflexivity | assumption] |].
  destruct (BaseCarrier.validate_tracking_number
              (FedExCarrier.carrier (FedExCarrier.init getenv)) tracking_number) eqn:H3;
    [intros _; eexists; split; [reflexivity | assumption] |].
  destruct (BaseCarrier.validate_tracking_number DHLCarrier tracking_number) eqn:H4;
    [intros _; eexists; split; [reflexivity | assumption] |].
  destruct (BaseCarrier.validate_tracking_number AmazonCarrier tracking_number) eqn:H5;
    [intros _; eexists; split; [reflexivity | assumption] |].
  intros H. now contradiction H.
Qed.

(** X15. With auto-detection, the adapter that is called is registered
    and accepts the tracking number: a call without a carrier is served
    from the cache, or fails because no adapter accepts the number, after
    the detector call only, or calls the detector and then the adapter of
    the detected carrier.  It never answers that the carrier is not
    supported. *)
Theorem auto_detection_dispatch (tracking_number : string) (st st' : State)
        (r : TrackingResponse.t) :
  track_package' tracking_number None st = (Return r, st') ->
  let detected := detect_carrier getenv DHLCarrier AmazonCarrier tracking_number in
  (TrackingResponse.cached r = true /\ calls st' = calls st)
  \/ (detected = CarrierType.UNKNOWN
      /\ r = failure
           "Could not detect carrier from tracking number. Please specify manually."
      /\ calls st' = (calls st ++ [DetectCall tracking_number])%list)
  \/ (exists adapter,
        get_carrier' detected = Some adapter
        /\ BaseCarrier.validate_tracking_number adapter tracking_number = true
        /\ calls st' = (calls st ++ [DetectCall tracking_number;
                                     TrackCall detected tracking_number])%list).
Proof.
  intros Hrun. cbv zeta.
  destruct (track_package_paths tracking_number None st
              (returned_survives _ _ _ _ _ Hrun))
    as (r1 & st1 & Heq & _ & Hpath).
  rewrite Hrun in Heq. injection Heq as <- <-.
  cbv zeta in Hpath. cbn [resolved_carrier detection_calls] in Hpath.
  destruct Hpath as [(l & _ & _ & -> & _ & Hcalls) | (_ & Hmiss)]; [left; auto |].
  right.
  destruct Hmiss as [(Hu & -> & _ & Hcalls) | [(Hne & Hnone & _) | Hcall]].
  - left. auto.
  - exfalso. destruct (detected_adapter_accepts tracking_number Hne) as (a & Ha & _).
    congruence.
  - right. destruct Hcall as (Hne & adapter & Hget & Hcalls & _).
    destruct (detected_adapter_accepts tracking_number Hne) as (a & Ha & Hvalid).
    exists adapter. split; [assumption |].
    split; [congruence |]. rewrite Hcalls, <- app_assoc. reflexivity.
Qed.

(** X16. An entry is not served once the timer has reached its expiry:
    when a call has fetched and stored a package, a second call with the
    same arguments whose lookup comes 300 seconds or more after the store
    is not answered from the cache and calls the adapter again. *)
Theorem track_package_expired_refetch (tracking_number : string)
        (carrier : option CarrierType.t) (st st1 : State)
        (first : TrackingResponse.t) :
  reachable' st ->
  track_package' tracking_number carrier st = (Return first, st1) ->
  TrackingResponse.success first = true ->
  TrackingResponse.cached first = false ->
  World.monotonic_store (world (tick st)) + 300 <= World.monotonic (world (tick st1)) ->
  exists second st2,
    track_package' tracking_number carrier st1 = (Return second, st2)
    /\ TrackingResponse.cached second = false
    /\ calls st2
       = (calls st1 ++ detection_calls tracking_number carrier
            ++ [TrackCall (resolved tracking_number carrier) tracking_number])%list.
Proof.
  intros Hreach Hrun Hsuccess Hfresh Hlate.
  destruct (reachable_sound st Hreach) as (Hmax & Httl & _).
  destruct (track_package_paths tracking_number carrier st
              (returned_survives _ _ _ _ _ Hrun))
    as (r & st' & Heq & _ & Hpath).
  rewrite Hrun in Heq. injection Heq as <- <-.
  assert (Hentry :
    exists entry,
      TTLCache.find (cache_key tracking_number carrier) (TTLCache.links (cache st1))
      = Some entry
      /\ TTLCache.expires entry = World.monotonic_store (world (tick st)) + 300
      /\ resolved tracking_number carrier <> CarrierType.UNKNOWN
      /\ exists adapter, get_carrier' (resolved tracking_number carrier) = Some adapter).
  { destruct Hpath as [(l & _ & _ & -> & _) | (_ & Hpath)]; [discriminate |].
    destruct Hpath as [(_ & -> & _) | [(_ & _ & -> & _) | Hcall]];
      [discriminate | discriminate |].
    destruct Hcall as (Hne & adapter & Hget & _ & Hout).
    destruct Hout as [(e & _ & -> & _) | [(_ & -> & _) | (p & _ & Hstore)]];
      [discriminate | discriminate |].
    cbv zeta in Hstore.
    destruct (setitem_stores
                (World.monotonic_store (world (tick st)))
                (cache_key tracking_number carrier)
                (Package.set_carrier_detected (was_detected carrier) p)
                (cache st)) as (c' & Hs & _ & _ & Hfound); [lia |].
    rewrite Hs in Hstore. destruct Hstore as [_ ->].
    eexists. split; [exact Hfound |]. cbn [TTLCache.expires]. rewrite Httl.
    split; [reflexivity |]. split; [assumption | eauto]. }
  destruct Hentry as (entry & Hfound & Hexpires & Hne & adapter & Hget).
  assert (Hsurvives : hit_survives (world (tick st1))
                        (cache_key tracking_number carrier) (cache st1)).
  { intros l Hl Hlt. rewrite Hfound in Hl. injection Hl as <-. lia. }
  destruct (track_package_paths tracking_number carrier st1 Hsurvives)
    as (second & st2 & Heq2 & _ & Hpath2).
  exists second, st2. split; [assumption |].
  cbv zeta in Hpath2.
  destruct Hpath2 as [(l & Hfind2 & Hlive & _) | (_ & Hmiss2)].
  - exfalso. rewrite Hfound in Hfind2. injection Hfind2 as <-. lia.
  - destruct Hmiss2 as [(Hu & _) | [(_ & Hnone & _) | Hcall]];
      [contradiction | congruence |].
    destruct Hcall as (_ & adapter2 & _ & Hcalls & Hout).
    split; [| now rewrite Hcalls, <- app_assoc].
    destruct Hout as [(e & _ & -> & _) | [(_ & -> & _) | (p & _ & Hstore)]];
      [reflexivity | reflexivity |].
    cbv zeta in Hstore.
    destruct (TTLCache.setitem _ _ _ (cache st1)) as [[u | e] c'];
      destruct Hstore as [-> _]; reflexivity.
Qed.

(** *** Requests under one key that are in flight together *)

Lemma after_await_calls (key : string) (detected : bool)
      (delivered : exc (option Package.t)) (w : World.t) (st st' : State)
      (outcome : exc TrackingResponse.t) :
  track_package_after_await key detected delivered w st = (outcome, st') ->
  calls st' = calls st.
Proof.
  unfold track_package_after_await, try_exceptM, mbind, await, cache_setitem,
    ret, with_cache.
  destruct delivered as [[p |] | e]; request_step.
  - destruct (TTLCache.setitem (World.monotonic_store w) key
                (Package.set_carrier_detected detected p) (cache st))
      as [[u | e] c']; cbn; intros H; injection H as _ <-; reflexivity.
  - intros H; injection H as _ <-; reflexivity.
  - intros H; injection H as _ <-; reflexivity.
Qed.

(** The second stretch of a request whose adapter returned a package. *)
Lemma after_await_stores (key : string) (detected : bool) (p : Package.t)
      (w : World.t) (st : State) :
  TTLCache.maxsize (cache st) = 1000 ->
  exists st',
    track_package_after_await key detected (Return (Some p)) w st
    = (Return (fetched (Package.set_carrier_detected detected p)), st')
    /\ TTLCache.maxsize (cache st') = 1000
    /\ calls st' = calls st
    /\ TTLCache.find key (TTLCache.links (cache st'))
       = Some {| TTLCache.key := key;
                 TTLCache.value := Package.set_carrier_detected detected p;
                 TTLCache.expires := World.monotonic_store w
                                     + TTLCache.ttl (cache st) |}.
Proof.
  intros Hmax.
  destruct (after_await_paths key detected (Return (Some p)) w st)
    as (st' & Hrun & Hpath); [lia |].
  exists st'. split; [exact Hrun |].
  destruct Hpath as [(Habs & _) | (p0 & Heq & Hs)]; [discriminate |].
  injection Heq as <-.
  destruct (setitem_stores (World.monotonic_store w) key
              (Package.set_carrier_detected detected p) (cache st))
    as (c' & Hs' & Hm & _ & Hfound); [lia |].
  rewrite Hs in Hs'. injection Hs' as <-.
  split; [congruence |]. split; [| assumption].
  eapply after_await_calls; eassumption.
Qed.

(** The moments of a run that starts with two requests under one key
    suspended in the calls of their adapters, each of which is going to get
    a package. *)
Lemma both_suspended_runs (p q : Pool) (tn1 tn2 key : string) (d1 d2 : bool)
      (p1 p2 : Package.t) (w1 w2 : World.t) :
  let waiting1 := Awaiting tn1 key d1 (Return (Some p1)) w1 in
  let waiting2 := Awaiting tn2 key d2 (Return (Some p2)) w2 in
  let v1 := Package.set_carrier_detected d1 p1 in
  let v2 := Package.set_carrier_detected d2 p2 in
  TTLCache.maxsize (cache (shared p)) = 1000 ->
  tasks p = [waiting1; waiting2] ->
  steps' p q ->
  TTLCache.maxsize (cache (shared q)) = 1000
  /\ calls (shared q) = calls (shared p)
  /\ (tasks q = [waiting1; waiting2]
      \/ (tasks q = [Done (fetched v1); waiting2]
          /\ exists entry,
               TTLCache.find key (TTLCache.links (cache (shared q))) = Some entry
               /\ TTLCache.value entry = v1)
      \/ (tasks q = [waiting1; Done (fetched v2)]
          /\ exists entry,
               TTLCache.find key (TTLCache.links (cache (shared q))) = Some entry
               /\ TTLCache.value entry = v2)
      \/ (tasks q = [Done (fetched v1); Done (fetched v2)]
          /\ exists entry,
               TTLCache.find key (TTLCache.links (cache (shared q))) = Some entry
               /\ (TTLCache.value entry = v1 \/ TTLCache.value entry = v2))).
Proof.
  cbv zeta. intros Hmax Htasks Hsteps.
  induction Hsteps as [| p q r _ IH Hstep]; [auto |].
  destruct (IH Hmax Htasks) as (Hmaxq & Hcalls & Hq). clear IH.
  destruct Hstep as [st ts i tn carrier outcome st' Hnth Hrun
                    | st ts i tn k d delivered w outcome st' Hnth Hrun];
    cbn [shared tasks] in *.
  - exfalso.
    destruct Hq as [Hts | [[Hts _] | [[Hts _] | [Hts _]]]]; subst ts;
      destruct i as [| [| [| i]]]; cbn in Hnth; discriminate Hnth.
  - destruct Hq as [Hts | [[Hts Hheld] | [[Hts Hheld] | [Hts Hheld]]]]; subst ts;
      destruct i as [| [| [| i]]]; cbn in Hnth; try discriminate Hnth;
      injection Hnth as <- <- <- <- <-;
      match type of Hrun with
      | track_package_after_await ?k' ?d' (Return (Some ?p')) ?w' ?s' = _ =>
          destruct (after_await_stores k' d' p' w' s' Hmaxq)
            as (st'' & Hrun' & Hmax' & Hcalls' & Hfound)
      end;
      rewrite Hrun' in Hrun; injection Hrun as <- <-; cbn [settled set_nth];
      (split; [assumption | split; [congruence |]]).
    + right; left. split; [reflexivity |].
      eexists. split; [exact Hfound | reflexivity].
    + right; right; left. split; [reflexivity |].
      eexists. split; [exact Hfound | reflexivity].
    + right; right; right. split; [reflexivity |].
      eexists. split; [exact Hfound | right; reflexivity].
    + right; right; right. split; [reflexivity |].
      eexists. split; [exact Hfound | left; reflexivity].
Qed.

(** X17. The cache does not join requests that are in flight together.
    When two requests under one key are both suspended in the calls of
    their adapters, which takes adapters that wait for the network, and
    each adapter is going to deliver a package, then in whatever order the
    event loop resumes them: no task raises, the run can go on until both
    are done, and then neither response is marked as cached, each carries
    the package of its own adapter call, no further call has been made, and
    the cache holds under the key the package of one of the two. *)
Theorem concurrent_duplicates_both_fetch (p : Pool) (tn1 tn2 key : string)
        (d1 d2 : bool) (delivered1 delivered2 : exc (option Package.t))
        (p1 p2 : Package.t) (w1 w2 : World.t) :
  TTLCache.maxsize (cache (shared p)) = 1000 ->
  tasks p = [Awaiting tn1 key d1 delivered1 w1; Awaiting tn2 key d2 delivered2 w2] ->
  delivered1 = Return (Some p1) ->
  delivered2 = Return (Some p2) ->
  forall q,
    steps' p q ->
    (forall i e, nth_error (tasks q) i <> Some (Raised e))
    /\ (gathered (tasks q) = None -> exists q', step' q q')
    /\ (forall rs,
          gathered (tasks q) = Some rs ->
          rs = [fetched (Package.set_carrier_detected d1 p1);
                fetched (Package.set_carrier_detected d2 p2)]
          /\ Forall (fun r => TrackingResponse.cached r = false) rs
          /\ calls (shared q) = calls (shared p)
          /\ exists entry,
               TTLCache.find key (TTLCache.links (cache (shared q))) = Some entry
               /\ (TTLCache.value entry = Package.set_carrier_detected d1 p1
                   \/ TTLCache.value entry = Package.set_carrier_detected d2 p2)).
Proof.
  intros Hmax Htasks -> -> q Hsteps.
  destruct (both_suspended_runs p q tn1 tn2 key d1 d2 p1 p2 w1 w2 Hmax Htasks Hsteps)
    as (Hmaxq & Hcalls & Hq).
  destruct q as [st ts]. cbn [shared tasks] in *.
  split; [| split].
  - intros i e.
    destruct Hq as [Hts | [[Hts _] | [[Hts _] | [Hts _]]]]; subst ts;
      destruct i as [| [| [| i]]]; cbn; discriminate.
  - intros Hopen.
    destruct Hq as [Hts | [[Hts _] | [[Hts _] | [Hts _]]]]; subst ts;
      [| | | discriminate Hopen].
    + destruct (after_await_stores key d1 p1 w1 st Hmaxq) as (st' & Hrun & _).
      eexists.
      exact (step_resume getenv DHLCarrier AmazonCarrier world format_carrier
               st [Awaiting tn1 key d1 (Return (Some p1)) w1;
                   Awaiting tn2 key d2 (Return (Some p2)) w2]
               0 tn1 key d1 _ w1 _ st' eq_refl Hrun).
    + destruct (after_await_stores key d2 p2 w2 st Hmaxq) as (st' & Hrun & _).
      eexists.
      exact (step_resume getenv DHLCarrier AmazonCarrier world format_carrier
               st [Done (fetched (Package.set_carrier_detected d1 p1));
                   Awaiting tn2 key d2 (Return (Some p2)) w2]
               1 tn2 key d2 _ w2 _ st' eq_refl Hrun).
    + destruct (after_await_stores key d1 p1 w1 st Hmaxq) as (st' & Hrun & _).
      eexists.
      exact (step_resume getenv DHLCarrier AmazonCarrier world format_carrier
               st [Awaiting tn1 key d1 (Return (Some p1)) w1;
                   Done (fetched (Package.set_carrier_detected d2 p2))]
               0 tn1 key d1 _ w1 _ st' eq_refl Hrun).
  - intros rs Hgathered.
    destruct Hq as [Hts | [[Hts _] | [[Hts _] | [Hts Hheld]]]]; subst ts;
      try discriminate Hgathered.
    cbn in Hgathered. injection Hgathered as <-.
    split; [reflexivity |].
    split; [repeat constructor |].
    split; assumption.
Qed.

End TrackerFacts.

(** ** Closed instances *)

Lemma track_package_undetectable_witness :
  exists st',
    track_package Demo.no_env Demo.dhl Demo.amazon Demo.world Demo.format_carrier
      "not-a-real-number" None init =
      (Return
         {| TrackingResponse.success := false;
            TrackingResponse.package := None;
            TrackingResponse.error :=
              Some "Could not detect carrier from tracking number. Please specify manually.";
            TrackingResponse.cached := false |},
       st')
    /\ cache st' = cache init.
Proof.
  apply (track_package_undetectable Demo.no_env Demo.dhl Demo.amazon Demo.world
           Demo.format_carrier "not-a-real-number" init).
  - apply reachable_init.
  - intros ct c Hin. cbn [CARRIERS In] in Hin.
    destruct Hin as [H | [H | [H | [H | [H | []]]]]];
      injection H as _ <-; vm_compute; reflexivity.
Defined.

Lemma track_package_failure_keeps_cache_witness :
  exists response st',
    track_package Demo.no_env Demo.dhl Demo.amazon Demo.world Demo.format_carrier
      "1234567890" None init = (Return response, st')
    /\ TrackingResponse.error response = Some "Tracking failed: connection refused"
    /\ cache st' = cache init.
Proof.
  eexists. eexists. split; [vm_compute; reflexivity |].
  split; [reflexivity |].
  refine (proj1 (track_package_failure_keeps_cache Demo.no_env Demo.dhl Demo.amazon
                   Demo.world Demo.format_carrier "1234567890" None init _ _
                   (reachable_init _ _ _ _ _) _) _).
  - vm_compute. reflexivity.
  - reflexivity.
Defined.

Lemma track_package_cache_idempotent_witness :
  exists first st1 second st2,
    track_package Demo.no_env Demo.dhl Demo.amazon Demo.world Demo.format_carrier
      "1Z999AA10123456784" None init = (Return first, st1)
    /\ track_package Demo.no_env Demo.dhl Demo.amazon Demo.world Demo.format_carrier
         "1Z999AA10123456784" None st1 = (Return second, st2)
    /\ TrackingResponse.cached first = false
    /\ TrackingResponse.success second = true
    /\ TrackingResponse.cached second = true
    /\ TrackingResponse.package second = TrackingResponse.package first
    /\ calls st2 = calls st1.
Proof.
  eexists. eexists.
  assert (Hfirst :
    track_package Demo.no_env Demo.dhl Demo.amazon Demo.world Demo.format_carrier
      "1Z999AA10123456784" None init
    = (Return (fetched (Package.set_carrier_detected true
                          (UPSCarrier._mock_track "1Z999AA10123456784"
                             (Demo.world 0)))),
       {| cache :=
            snd (TTLCache.setitem 0 "auto_1Z999AA10123456784"
                   (Package.set_carrier_detected true
                      (UPSCarrier._mock_track "1Z999AA10123456784" (Demo.world 0)))
                   (cache init));
          calls := [DetectCall "1Z999AA10123456784";
                    TrackCall CarrierType.UPS "1Z999AA10123456784"];
          tick := 1 |})) by (vm_compute; reflexivity).
  destruct (track_package_cache_idempotent Demo.no_env Demo.dhl Demo.amazon
              Demo.world Demo.format_carrier "1Z999AA10123456784" None init _ _
              (reachable_init _ _ _ _ _) Hfirst eq_refl)
    as (Hmiss & entry & Hfound & Hpackage & Hexpiry & Hsecond).
  destruct Hsecond as (st2 & Hrun & Hcalls).
  - rewrite (Hexpiry eq_refl). vm_compute. reflexivity.
  - rewrite (Hexpiry eq_refl). vm_compute. reflexivity.
  - eexists. exists st2.
    split; [exact Hfirst |]. split; [exact Hrun |].
    repeat split. exact Hcalls.
Defined.



(** *** A hit that expires between the membership test and the read *)

Lemma racing_after_first_request_reachable :
  reachable Demo.no_env Demo.dhl Demo.amazon Demo.world_racing Demo.format_carrier
    Demo.racing_after_first_request.
Proof.
  apply (reachable_request Demo.no_env Demo.dhl Demo.amazon Demo.world_racing
           Demo.format_carrier "1Z999AA10123456784" None init
           Demo.racing_after_first_request
           (fst (track_package Demo.no_env Demo.dhl Demo.amazon Demo.world_racing
                   Demo.format_carrier "1Z999AA10123456784" None init))).
  - apply reachable_init.
  - apply surjective_pairing.
Qed.

(** C6. [track_package] lets an exception through.  The membership test
    and the read of a hit stand before the try block, and each reads the
    timer.  After a first request for a number has stored its package at
    second 0, a second request for the number that tests the cache at
    second 299 and reads it at second 300 finds the entry live and then
    expired: the KeyError of the read, which carries the key, reaches the
    caller, and neither the detector nor an adapter has been called. *)
Theorem track_package_key_error_escapes :
  reachable Demo.no_env Demo.dhl Demo.amazon Demo.world_racing Demo.format_carrier
    Demo.racing_after_first_request
  /\ TTLCache.contains (World.monotonic (Demo.world_racing 1))
       "auto_1Z999AA10123456784" (cache Demo.racing_after_first_request) = true
  /\ fst (TTLCache.getitem (World.monotonic_getitem (Demo.world_racing 1))
            "auto_1Z999AA10123456784" (cache Demo.racing_after_first_request))
     = Raise (Exception "auto_1Z999AA10123456784")
  /\ exists st',
       track_package Demo.no_env Demo.dhl Demo.amazon Demo.world_racing
         Demo.format_carrier "1Z999AA10123456784" None
         Demo.racing_after_first_request
       = (Raise (Exception "auto_1Z999AA10123456784"), st')
       /\ calls st' = calls Demo.racing_after_first_request.
Proof.
  split; [exact racing_after_first_request_reachable |].
  split; [vm_compute; reflexivity |].
  split; [vm_compute; reflexivity |].
  eexists. split; [vm_compute; reflexivity | reflexivity].
Qed.

(** The moments of the event loop when it runs a batch of that number and
    a number that no adapter accepts, in that state: whichever task runs
    first, the task of the first input ends as raised. *)
Lemma racing_batch_runs (q : Pool) :
  steps Demo.no_env Demo.dhl Demo.amazon Demo.world_racing Demo.format_carrier
    (spawn (batch ["1Z999AA10123456784"; "garbage!!"])
       Demo.racing_after_first_request) q ->
  let raised := Raised (Exception "auto_1Z999AA10123456784") in
  let failed :=
    Done (failure
      "Could not detect carrier from tracking number. Please specify manually.") in
  q = {| shared := Demo.racing_after_first_request;
         tasks := [Pending "1Z999AA10123456784" None; Pending "garbage!!" None] |}
  \/ q = {| shared :=
              snd (track_package_until_await Demo.no_env Demo.dhl Demo.amazon
                     Demo.world_racing Demo.format_carrier "1Z999AA10123456784"
                     None Demo.racing_after_first_request);
            tasks := [raised; Pending "garbage!!" None] |}
  \/ q = {| shared :=
              snd (track_package_until_await Demo.no_env Demo.dhl Demo.amazon
                     Demo.world_racing Demo.format_carrier "garbage!!"
                     None Demo.racing_after_first_request);
            tasks := [Pending "1Z999AA10123456784" None; failed] |}
  \/ tasks q = [raised; failed].
Proof.
  cbv zeta. intros Hsteps.
  remember (spawn (batch ["1Z999AA10123456784"; "garbage!!"])
              Demo.racing_after_first_request) as p eqn:Hp.
  induction Hsteps as [| p q r _ IH Hstep]; [left; subst p; reflexivity |].
  specialize (IH Hp). clear Hp.
  destruct Hstep as [st ts i tn carrier outcome st' Hnth Hrun
                    | st ts i tn k d delivered w outcome st' Hnth Hrun].
  - assert (Hout : outcome
                   = fst (track_package_until_await Demo.no_env Demo.dhl Demo.amazon
                            Demo.world_racing Demo.format_carrier tn carrier st))
      by now rewrite Hrun.
    assert (Hst : st'
                  = snd (track_package_until_await Demo.no_env Demo.dhl Demo.amazon
                           Demo.world_racing Demo.format_carrier tn carrier st))
      by now rewrite Hrun.
    clear Hrun. subst outcome st'.
    destruct IH as [IH | [IH | [IH | IH]]].
    + injection IH as -> ->.
      destruct i as [| [| [| i]]]; cbn in Hnth; try discriminate Hnth;
        injection Hnth as <- <-.
      * right; left. f_equal; vm_compute; reflexivity.
      * right; right; left. f_equal; vm_compute; reflexivity.
    + injection IH as -> ->.
      destruct i as [| [| [| i]]]; cbn in Hnth; try discriminate Hnth;
        injection Hnth as <- <-.
      right; right; right. vm_compute. reflexivity.
    + injection IH as -> ->.
      destruct i as [| [| [| i]]]; cbn in Hnth; try discriminate Hnth;
        injection Hnth as <- <-.
      right; right; right. vm_compute. reflexivity.
    + cbn [tasks] in IH. subst ts.
      destruct i as [| [| [| i]]]; cbn in Hnth; discriminate Hnth.
  - exfalso. destruct IH as [IH | [IH | [IH | IH]]];
      [injection IH as -> -> | injection IH as -> -> | injection IH as -> ->
      | cbn [tasks] in IH; subst ts];
      destruct i as [| [| [| i]]]; cbn in Hnth; discriminate Hnth.
Qed.

(** C3. A batch does not always return a list.  [track_multiple] hands
    the coroutines to [asyncio.gather], which passes on the first exception
    that one of them raises.  In the state and at the readings of the timer
    above, a batch that names the number raises the KeyError of that one
    request: no list is returned, the response of the other input is lost,
    and the batch endpoint has nothing to count.  In the event loop the
    task of the request ends as raised, and the list of the batch is never
    gathered. *)
Theorem track_multiple_key_error_escapes :
  reachable Demo.no_env Demo.dhl Demo.amazon Demo.world_racing Demo.format_carrier
    Demo.racing_after_first_request
  /\ (exists st',
        track_multiple Demo.no_env Demo.dhl Demo.amazon Demo.world_racing
          Demo.format_carrier ["1Z999AA10123456784"; "garbage!!"]
          Demo.racing_after_first_request
        = (Raise (Exception "auto_1Z999AA10123456784"), st'))
  /\ (exists st',
        track_batch Demo.no_env Demo.dhl Demo.amazon Demo.world_racing
          Demo.format_carrier ["1Z999AA10123456784"; "garbage!!"]
          Demo.racing_after_first_request
        = (Raise (Exception "auto_1Z999AA10123456784"), st'))
  /\ (exists q,
        step Demo.no_env Demo.dhl Demo.amazon Demo.world_racing Demo.format_carrier
          (spawn (batch ["1Z999AA10123456784"; "garbage!!"])
             Demo.racing_after_first_request) q
        /\ tasks q = [Raised (Exception "auto_1Z999AA10123456784");
                      Pending "garbage!!" None])
  /\ (forall q,
        steps Demo.no_env Demo.dhl Demo.amazon Demo.world_racing Demo.format_carrier
          (spawn (batch ["1Z999AA10123456784"; "garbage!!"])
             Demo.racing_after_first_request) q ->
        gathered (tasks q) = None).
Proof.
  split; [exact racing_after_first_request_reachable |].
  split; [eexists; vm_compute; reflexivity |].
  split; [eexists; vm_compute; reflexivity |].
  split.
  2: { intros q Hsteps.
       destruct (racing_batch_runs q Hsteps) as [-> | [-> | [-> | ->]]];
         reflexivity. }
  exists {| shared :=
              snd (track_package_until_await Demo.no_env Demo.dhl Demo.amazon
                     Demo.world_racing Demo.format_carrier "1Z999AA10123456784"
                     None Demo.racing_after_first_request);
            tasks := [Raised (Exception "auto_1Z999AA10123456784");
                      Pending "garbage!!" None] |}.
  split; [| reflexivity].
  apply (step_start Demo.no_env Demo.dhl Demo.amazon Demo.world_racing
           Demo.format_carrier Demo.racing_after_first_request
           [Pending "1Z999AA10123456784" None; Pending "garbage!!" None]
           0 "1Z999AA10123456784" None
           (Raise (Exception "auto_1Z999AA10123456784"))
           (snd (track_package_until_await Demo.no_env Demo.dhl Demo.amazon
                   Demo.world_racing Demo.format_carrier "1Z999AA10123456784" None
                   Demo.racing_after_first_request))).
  - reflexivity.
  - vm_compute. reflexivity.
Qed.

(** ** Further facts *)

Lemma lower_char_idempotent (c : ascii) :
  Str.lower_char (Str.lower_char c) = Str.lower_char c.
Proof.
  destruct c as [[] [] [] [] [] [] [] []]; vm_compute; reflexivity.
Qed.

Lemma lower_idempotent (s : string) : Str.lower (Str.lower s) = Str.lower s.
Proof.
  unfold Str.lower. induction s as [| c s IH]; simpl; [reflexivity |].
  now rewrite IH, lower_char_idempotent.
Qed.

(** X1. The UPS table spells one key with a capital letter, and the lookup
    key is lower-cased: no raw status maps to OUT_FOR_DELIVERY, not even
    the raw status that the adapter's own fallback package carries. *)
Theorem ups_out_for_delivery_unreachable :
  (forall raw, UPSCarrier.parse_status raw <> PackageStatus.OUT_FOR_DELIVERY)
  /\ UPSCarrier.parse_status "OutForDelivery" = PackageStatus.UNKNOWN
  /\ UPSCarrier.parse_status "outforDelivery" = PackageStatus.UNKNOWN.
Proof.
  split; [| split; vm_compute; reflexivity].
  intros raw. unfold UPSCarrier.parse_status, UPSCarrier.status_map.
  cbn [dict_get].
  destruct (String.eqb "pickup" (Str.lower raw)); [discriminate |].
  destruct (String.eqb "intransit" (Str.lower raw)); [discriminate |].
  destruct (String.eqb "outforDelivery" (Str.lower raw)) eqn:Hkey.
  - exfalso. apply String.eqb_eq in Hkey.
    assert (H := lower_idempotent raw). rewrite <- Hkey in H.
    vm_compute in H. discriminate H.
  - destruct (String.eqb "delivered" (Str.lower raw)); [discriminate |].
    destruct (String.eqb "exception" (Str.lower raw)); [discriminate |].
    destruct (String.eqb "returned" (Str.lower raw)); discriminate.
Qed.

(** X2. Requests that differ in the tracking number or in the carrier
    argument never share a cache entry. *)
Theorem cache_key_injective (tn1 tn2 : string) (c1 c2 : option CarrierType.t) :
  cache_key tn1 c1 = cache_key tn2 c2 <-> tn1 = tn2 /\ c1 = c2.
Proof.
  split; [apply cache_key_inj |]. now intros [-> ->].
Qed.

(** X3. The events of a parsed USPS package are those of the reply, and
    its status is the parsed status text: sorting only reorders the
    events. *)
Theorem usps_parse_keeps_events (status_text : string)
        (events : list TrackingEvent.t) (tracking_number : string)
        (w : World.t) (p : Package.t) :
  USPSCarrier._parse_response (Decoded (Found status_text events))
    tracking_number w = Some p ->
  Permutation events (Package.events p)
  /\ Package.status p = USPSCarrier.parse_status status_text.
Proof.
  unfold USPSCarrier._parse_response.
  destruct (sorted_by_timestamp_reverse events) as [sorted_events | e] eqn:Hsort;
    [| discriminate].
  intros H. injection H as <-. cbn. split; [| reflexivity].
  now apply sorted_by_timestamp_reverse_perm.
Qed.

Lemma usps_parse_keeps_events_witness :
  exists p,
    USPSCarrier._parse_response
      (Decoded (Found "Delivered"
                  [Demo.event 10 "Accepted"; Demo.event 30 "Delivered"]))
      "9400111899223197428431" Demo.answering = Some p
    /\ Permutation [Demo.event 10 "Accepted"; Demo.event 30 "Delivered"]
         (Package.events p).
Proof.
  eexists. split; [reflexivity |].
  apply (usps_parse_keeps_events "Delivered"
           [Demo.event 10 "Accepted"; Demo.event 30 "Delivered"]
           "9400111899223197428431" Demo.answering).
  reflexivity.
Defined.

(** ** Normalisation and validation of tracking numbers *)

Lemma remove_remove (c : ascii) (s : string) :
  Str.remove c (Str.remove c s) = Str.remove c s.
Proof.
  induction s as [| x s IH]; simpl; [reflexivity |].
  destruct (Ascii.eqb x c) eqn:Hx; [assumption |].
  simpl. now rewrite Hx, IH.
Qed.

Lemma remove_comm (c d : ascii) (s : string) :
  Str.remove c (Str.remove d s) = Str.remove d (Str.remove c s).
Proof.
  induction s as [| x s IH]; simpl; [reflexivity |].
  destruct (Ascii.eqb x d) eqn:Hd, (Ascii.eqb x c) eqn:Hc; simpl;
    rewrite ?Hd, ?Hc, ?IH; reflexivity.
Qed.

Lemma upper_char_space (x : ascii) :
  Ascii.eqb (Str.upper_char x) " " = Ascii.eqb x " ".
Proof. destruct x as [[] [] [] [] [] [] [] []]; vm_compute; reflexivity. Qed.

Lemma upper_char_hyphen (x : ascii) :
  Ascii.eqb (Str.upper_char x) "-" = Ascii.eqb x "-".
Proof. destruct x as [[] [] [] [] [] [] [] []]; vm_compute; reflexivity. Qed.

Lemma upper_char_idempotent (x : ascii) :
  Str.upper_char (Str.upper_char x) = Str.upper_char x.
Proof. destruct x as [[] [] [] [] [] [] [] []]; vm_compute; reflexivity. Qed.

Lemma upper_char_not_lower (x : ascii) :
  Str.in_range "a" "z" (Str.upper_char x) = false.
Proof. destruct x as [[] [] [] [] [] [] [] []]; vm_compute; reflexivity. Qed.

Lemma upper_remove (c : ascii) (s : string) :
  (forall x, Ascii.eqb (Str.upper_char x) c = Ascii.eqb x c) ->
  Str.upper (Str.remove c s) = Str.remove c (Str.upper s).
Proof.
  intros Hc. unfold Str.upper.
  induction s as [| x s IH]; simpl; [reflexivity |].
  rewrite Hc. destruct (Ascii.eqb x c); simpl; now rewrite IH.
Qed.

Lemma upper_idempotent (s : string) : Str.upper (Str.upper s) = Str.upper s.
Proof.
  unfold Str.upper. induction s as [| x s IH]; simpl; [reflexivity |].
  now rewrite IH, upper_char_idempotent.
Qed.

Lemma normalize_idempotent (s : string) :
  BaseCarrier.normalize_tracking_number (BaseCarrier.normalize_tracking_number s)
  = BaseCarrier.normalize_tracking_number s.
Proof.
  unfold BaseCarrier.normalize_tracking_number.
  rewrite (upper_remove "-" _ upper_char_hyphen).
  rewrite (upper_remove " " _ upper_char_space).
  rewrite upper_idempotent.
  rewrite (remove_comm " " "-"), !remove_remove. reflexivity.
Qed.

Lemma chars_remove (c x : ascii) (s : string) :
  In x (chars (Str.remove c s)) -> x <> c /\ In x (chars s).
Proof.
  unfold chars. induction s as [| y s IH]; simpl; [tauto |].
  destruct (Ascii.eqb y c) eqn:Hy.
  - intros H. destruct (IH H). auto.
  - simpl. intros [<- | H].
    + split; [| now left]. intros ->. now rewrite Ascii.eqb_refl in Hy.
    + destruct (IH H). auto.
Qed.

Lemma chars_upper (x : ascii) (s : string) :
  In x (chars (Str.upper s)) -> exists y, In y (chars s) /\ x = Str.upper_char y.
Proof.
  unfold chars, Str.upper. induction s as [| y s IH]; simpl; [tauto |].
  intros [<- | H]; [eauto |].
  destruct (IH H) as (z & Hz & ->). eauto.
Qed.

(** X4. [normalize_tracking_number] is idempotent, and what it returns
    holds no space, no hyphen and no lower-case letter. *)
Theorem normalize_tracking_number_normal (tracking_number : string) :
  BaseCarrier.normalize_tracking_number
    (BaseCarrier.normalize_tracking_number tracking_number)
  = BaseCarrier.normalize_tracking_number tracking_number
  /\ forall c,
       In c (chars (BaseCarrier.normalize_tracking_number tracking_number)) ->
       c <> " "%char /\ c <> "-"%char /\ Str.in_range "a" "z" c = false.
Proof.
  split; [apply normalize_idempotent |].
  unfold BaseCarrier.normalize_tracking_number. intros c Hin.
  apply chars_remove in Hin. destruct Hin as [Hhyphen Hin].
  apply chars_remove in Hin. destruct Hin as [Hspace Hin].
  apply chars_upper in Hin. destruct Hin as (y & _ & ->).
  repeat split; try assumption. apply upper_char_not_lower.
Qed.

Lemma validate_normalized (patterns : list Re.regex) (tracking_number : string) :
  BaseCarrier.validate patterns
    (BaseCarrier.normalize_tracking_number tracking_number)
  = BaseCarrier.validate patterns tracking_number.
Proof.
  unfold BaseCarrier.validate.
  change (Str.remove "-" (Str.remove " " (Str.upper
            (BaseCarrier.normalize_tracking_number tracking_number))))
    with (BaseCarrier.normalize_tracking_number
            (BaseCarrier.normalize_tracking_number tracking_number)).
  now rewrite normalize_idempotent.
Qed.

(** X5. The inherited [validate_tracking_number] sees a tracking number
    through its normal form only: two spellings with the same normal form
    (they differ in spaces, hyphens or letter case) are accepted or
    rejected together, whatever the patterns; and a number is accepted
    exactly when its normal form is. *)
Theorem validate_tracking_number_spelling (patterns : list Re.regex)
        (a b : string) :
  BaseCarrier.normalize_tracking_number a = BaseCarrier.normalize_tracking_number b ->
  BaseCarrier.validate patterns a = BaseCarrier.validate patterns b
  /\ BaseCarrier.validate patterns (BaseCarrier.normalize_tracking_number a)
     = BaseCarrier.validate patterns a.
Proof.
  intros Heq. split; [| apply validate_normalized].
  rewrite <- (validate_normalized patterns a), <- (validate_normalized patterns b).
  now rewrite Heq.
Qed.

Lemma validate_tracking_number_spelling_witness :
  BaseCarrier.validate UPSCarrier.tracking_patterns "1z 999-aa1 0123456784"
  = BaseCarrier.validate UPSCarrier.tracking_patterns "1Z999AA10123456784".
Proof.
  apply (validate_tracking_number_spelling UPSCarrier.tracking_patterns
           "1z 999-aa1 0123456784" "1Z999AA10123456784").
  reflexivity.
Defined.

(** ** Overlap of the patterns *)

Lemma surepost_is_international (s : string) :
  Re.re_match ups_surepost s = true -> Re.re_match usps_international s = true.
Proof.
  unfold Re.re_match, ups_surepost, usps_international.
  cbn -[Re.in_class Str.strip_prefix Re.at_end].
  repeat match goal with
  | |- match ?s with EmptyString => false | String _ _ => _ end = true -> _ =>
      destruct s as [| ?c s]; [discriminate |]
  | |- (?b && _ = true) -> (?b && _ = true) =>
      let H := fresh "H" in let Hb := fresh "Hb" in
      intros H; apply andb_true_iff in H; destruct H as [Hb H];
      apply andb_true_iff; split; [exact Hb |]; revert H
  end.
  destruct s as [| u [| v s]]; cbn [Str.strip_prefix]; try discriminate.
  - destruct (Ascii.eqb "U" u); discriminate.
  - destruct (Ascii.eqb "U" u) eqn:Hu; [| discriminate].
    destruct (Ascii.eqb "S" v) eqn:Hv; [| discriminate].
    apply Ascii.eqb_eq in Hu, Hv. subst u v. intros H. exact H.
Qed.

(** X6. The UPS pattern for SurePost numbers is shadowed: every tracking
    number that it accepts is accepted by the international pattern of
    USPS, which is asked first, so [detect_carrier] answers USPS for it.
    When [detect_carrier] answers UPS, the number is of the 1Z form or has
    nine digits. *)
Theorem surepost_detected_as_usps
        (getenv : string -> option string)
        (DHLCarrier AmazonCarrier : BaseCarrier.Carrier)
        (tracking_number : string) :
  let cleaned := BaseCarrier.normalize_tracking_number tracking_number in
  In ups_surepost UPSCarrier.tracking_patterns
  /\ In usps_international USPSCarrier.tracking_patterns
  /\ (Re.re_match ups_surepost cleaned = true ->
      detect_carrier getenv DHLCarrier AmazonCarrier tracking_number
      = CarrierType.USPS)
  /\ (detect_carrier getenv DHLCarrier AmazonCarrier tracking_number
      = CarrierType.UPS ->
      Re.re_match ups_surepost cleaned = false
      /\ BaseCarrier.validate
           (firstn 2 UPSCarrier.tracking_patterns) tracking_number = true).
Proof.
  cbv zeta.
  assert (Hshadow :
    Re.re_match ups_surepost
      (BaseCarrier.normalize_tracking_number tracking_number) = true ->
    BaseCarrier.validate USPSCarrier.tracking_patterns tracking_number = true).
  { intros H. apply surepost_is_international in H.
    unfold BaseCarrier.validate, USPSCarrier.tracking_patterns.
    cbn [existsb].
    change (Str.remove "-" (Str.remove " " (Str.upper tracking_number)))
      with (BaseCarrier.normalize_tracking_number tracking_number).
    fold usps_international. rewrite H.
    now rewrite orb_true_r. }
  split; [simpl; tauto |]. split; [simpl; tauto |]. split.
  - intros H. unfold detect_carrier, CARRIERS. cbn [first_valid].
    change (BaseCarrier.validate_tracking_number
              (USPSCarrier.carrier (USPSCarrier.init getenv)) tracking_number)
      with (BaseCarrier.validate USPSCarrier.tracking_patterns tracking_number).
    now rewrite (Hshadow H).
  - unfold detect_carrier, CARRIERS. cbn [first_valid].
    change (BaseCarrier.validate_tracking_number
              (USPSCarrier.carrier (USPSCarrier.init getenv)) tracking_number)
      with (BaseCarrier.validate USPSCarrier.tracking_patterns tracking_number).
    change (BaseCarrier.validate_tracking_number
              (UPSCarrier.carrier (UPSCarrier.init getenv)) tracking_number)
      with (BaseCarrier.validate UPSCarrier.tracking_patterns tracking_number).
    destruct (BaseCarrier.validate USPSCarrier.tracking_patterns tracking_number)
      eqn:Husps; [discriminate |].
    destruct (BaseCarrier.validate UPSCarrier.tracking_patterns tracking_number)
      eqn:Hups.
    + intros _.
      destruct (Re.re_match ups_surepost
                  (BaseCarrier.normalize_tracking_number tracking_number)) eqn:Hs.
      * discriminate (Hshadow eq_refl).
      * split; [reflexivity |].
        unfold BaseCarrier.validate, UPSCarrier.tracking_patterns in *.
        cbn [existsb firstn] in *.
        change (Str.remove "-" (Str.remove " " (Str.upper tracking_number)))
          with (BaseCarrier.normalize_tracking_number tracking_number) in *.
        fold ups_surepost in Hups. rewrite Hs in Hups.
        rewrite !orb_false_r in *. exact Hups.
    + intros H. exfalso. revert H.
      destruct (BaseCarrier.validate_tracking_number
                  (FedExCarrier.carrier (FedExCarrier.init getenv)) tracking_number);
        [discriminate |].
      destruct (BaseCarrier.validate_tracking_number DHLCarrier tracking_number);
        [discriminate |].
      destruct (BaseCarrier.validate_tracking_number AmazonCarrier tracking_number);
        discriminate.
Qed.

Lemma surepost_detected_as_usps_witness :
  detect_carrier Demo.no_env Demo.dhl Demo.amazon "ec 123 456 789 us"
  = CarrierType.USPS.
Proof.
  apply (surepost_detected_as_usps Demo.no_env Demo.dhl Demo.amazon
           "ec 123 456 789 us").
  reflexivity.
Defined.

(** ** The link to the carrier's tracking page *)

Lemma append_nil_right (s : string) : s ++ "" = s.
Proof. induction s as [| c s IH]; simpl; [reflexivity | now rewrite IH]. Qed.

Lemma append_cancel_left (p a b : string) : p ++ a = p ++ b -> a = b.
Proof.
  induction p as [| c p IH]; simpl; [auto |].
  intros H. injection H as H. auto.
Qed.

Lemma strip_prefix_append (p s : string) : Str.strip_prefix p (p ++ s) = Some s.
Proof.
  induction p as [| c p IH]; simpl; [reflexivity |].
  now rewrite Ascii.eqb_refl.
Qed.

(** X7. [generate_tracking_url] puts the tracking number, exactly as it
    was given (not normalised, not percent-encoded), after the fixed prefix
    of the carrier's template: the number can be read back off the link,
    and different numbers give different links. *)
Theorem generate_tracking_url_verbatim (template prefix : string) :
  In (template, prefix)
     [(TrackingUrl.USPS, "https://tools.usps.com/go/TrackConfirmAction?tLabels=");
      (TrackingUrl.UPS, "https://www.ups.com/track?tracknum=");
      (TrackingUrl.FedEx, "https://www.fedex.com/apps/fedextrack/?tracknumbers=")] ->
  (forall tracking_number,
     TrackingUrl.generate_tracking_url template tracking_number
     = prefix ++ tracking_number
     /\ Str.strip_prefix prefix
          (TrackingUrl.generate_tracking_url template tracking_number)
        = Some tracking_number)
  /\ (forall a b,
        TrackingUrl.generate_tracking_url template a
        = TrackingUrl.generate_tracking_url template b -> a = b).
Proof.
  intros Hin.
  assert (Hurl : forall tracking_number,
            TrackingUrl.generate_tracking_url template tracking_number
            = prefix ++ tracking_number).
  { intros tn. simpl in Hin.
    destruct Hin as [H | [H | [H | []]]]; injection H as <- <-;
      unfold TrackingUrl.generate_tracking_url, TrackingUrl.format;
      cbn; now rewrite append_nil_right. }
  split.
  - intros tn. split; [apply Hurl |]. rewrite Hurl. apply strip_prefix_append.
  - intros a b. rewrite !Hurl. apply append_cancel_left.
Qed.

Lemma generate_tracking_url_verbatim_witness :
  TrackingUrl.generate_tracking_url TrackingUrl.UPS "1z 999-aa1"
  = "https://www.ups.com/track?tracknum=1z 999-aa1".
Proof.
  refine (proj1 (proj1 (generate_tracking_url_verbatim TrackingUrl.UPS
                          "https://www.ups.com/track?tracknum=" _)
                       "1z 999-aa1")).
  simpl. right. left. reflexivity.
Defined.

(** ** The endpoints *)

Section EndpointFacts.

Variable getenv : string -> option string.
Variable DHLCarrier AmazonCarrier : BaseCarrier.Carrier.
Variable world : nat -> World.t.
Variable format_carrier : CarrierType.t -> string.

(** A response of [track_package] carries a package exactly when it is a
    success, and an error text exactly when it is not. *)
Lemma track_package_response_shape (tracking_number : string)
      (carrier : option CarrierType.t) (st st' : State)
      (response : TrackingResponse.t) :
  track_package getenv DHLCarrier AmazonCarrier world format_carrier
    tracking_number carrier st = (Return response, st') ->
  (TrackingResponse.success response = true
   /\ (exists p, TrackingResponse.package response = Some p)
   /\ TrackingResponse.error response = None)
  \/ (TrackingResponse.success response = false
      /\ TrackingResponse.package response = None
      /\ exists text, TrackingResponse.error response = Some text).
Proof.
  intros Hrun.
  destruct (track_package_paths getenv DHLCarrier AmazonCarrier world format_carrier
              tracking_number carrier st
              (returned_survives _ _ _ _ _ _ _ _ _ _ Hrun))
    as (r & st1 & Heq & _ & Hpath).
  rewrite Hrun in Heq. injection Heq as <- <-.
  destruct Hpath as [(l & _ & _ & -> & _) | (_ & Hmiss)].
  - left. cbn. eauto.
  - destruct Hmiss as [(_ & -> & _) | [(_ & _ & -> & _) | Hcall]];
      [right; cbn; eauto | right; cbn; eauto |].
    destruct Hcall as (_ & adapter & _ & _ & Hout).
    destruct Hout as [(e & _ & -> & _) | [(_ & -> & _) | (p & _ & Hstore)]];
      [right; cbn; eauto | right; cbn; eauto |].
    cbv zeta in Hstore.
    destruct (TTLCache.setitem _ _ _ (cache st)) as [[u | e] c'];
      destruct Hstore as [-> _]; [left | right]; cbn; eauto.
Qed.

(** X8. The endpoint [GET /api/track/...] never answers 200 with a
    failure.  Unless an entry under the key of the request expires between
    the membership test and the read of the cache, it answers 200 with a
    response that has success = true and a package, or else 404 with the
    text of the orchestrator's error as detail, and then the cache is as it
    was.  In that one case the KeyError of the read, which carries the key,
    leaves the handler, and no detector or adapter call has been made. *)
Theorem track_package_endpoint_replies (tracking_number : string)
        (carrier : option CarrierType.t) (st : State) :
  reachable getenv DHLCarrier AmazonCarrier world format_carrier st ->
  let w := world (tick st) in
  let key := cache_key tracking_number carrier in
  exists reply st',
    track_package_endpoint getenv DHLCarrier AmazonCarrier world format_carrier
      tracking_number carrier st = (reply, st')
    /\ ((hit_survives w key (cache st)
         /\ ((exists body p,
                reply = Http200 body
                /\ TrackingResponse.success body = true
                /\ TrackingResponse.package body = Some p)
             \/ (exists text,
                   reply = HttpError 404 (Some text)
                   /\ cache st' = cache st)))
        \/ (exists l,
              TTLCache.find key (TTLCache.links (cache st)) = Some l
              /\ World.monotonic w < TTLCache.expires l
              /\ TTLCache.expires l <= World.monotonic_getitem w
              /\ reply = Crash (Exception key)
              /\ calls st' = calls st)).
Proof.
  intros Hreach. cbv zeta.
  destruct (survives_or_race (world (tick st))
              (cache_key tracking_number carrier) (cache st))
    as [Hsurvives | (l & Hfind & Hlive & Hdead)].
  - destruct (track_package_paths getenv DHLCarrier AmazonCarrier world
                format_carrier tracking_number carrier st Hsurvives)
      as (r & st' & Hrun & _).
    unfold track_package_endpoint. rewrite Hrun.
    destruct (track_package_response_shape _ _ _ _ _ Hrun)
      as [(Hs & (p & Hp) & _) | (Hs & _ & (text & Ht))]; rewrite Hs; cbn.
    + eexists _, st'. split; [reflexivity |]. left. split; [assumption |].
      left. exists r, p. auto.
    + eexists _, st'. split; [reflexivity |]. left. split; [assumption |].
      right. exists text. rewrite Ht. split; [reflexivity |].
      destruct (track_package_success_or_same_cache getenv DHLCarrier AmazonCarrier
                  world format_carrier tracking_number carrier st st' r Hreach Hrun);
        [congruence | assumption].
  - unfold track_package_endpoint.
    rewrite (track_package_race getenv DHLCarrier AmazonCarrier world format_carrier
               tracking_number carrier st l Hfind Hlive Hdead).
    eexists _, _. split; [reflexivity |]. right. exists l.
    repeat split; assumption.
Qed.

(** X9. The endpoint [GET /api/detect/...] reports confidence "high"
    exactly when one of the five registered adapters accepts the number,
    and the carrier it reports is then one of USPS, UPS, FEDEX, DHL,
    AMAZON; otherwise it reports UNKNOWN with confidence "none". *)
Theorem detect_carrier_endpoint_confidence (tracking_number : string) :
  let answer :=
    detect_carrier_endpoint getenv DHLCarrier AmazonCarrier tracking_number in
  Detection.tracking_number answer = tracking_number
  /\ ((Detection.confidence answer = "high"
       /\ In (Detection.detected_carrier answer) registered
       /\ exists ct c,
            In (ct, c) (CARRIERS getenv DHLCarrier AmazonCarrier)
            /\ BaseCarrier.validate_tracking_number c tracking_number = true)
      \/ (Detection.confidence answer = "none"
          /\ Detection.detected_carrier answer = CarrierType.UNKNOWN
          /\ forall ct c,
               In (ct, c) (CARRIERS getenv DHLCarrier AmazonCarrier) ->
               BaseCarrier.validate_tracking_number c tracking_number = false)).
Proof.
  cbv zeta. split; [reflexivity |].
  unfold detect_carrier_endpoint. cbn [Detection.confidence Detection.detected_carrier].
  unfold detect_carrier.
  destruct (first_valid_first_match
              (CARRIERS getenv DHLCarrier AmazonCarrier) tracking_number)
    as [[Hu Hall] | (before & ct & c & after & Hsplit & _ & Hvalid & Hfirst)].
  - right. rewrite Hu. cbn. auto.
  - left.
    assert (Hin : In (ct, c) (CARRIERS getenv DHLCarrier AmazonCarrier)).
    { rewrite Hsplit. apply in_or_app. right. now left. }
    assert (Hreg : In ct registered).
    { apply (in_map fst) in Hin. exact Hin. }
    rewrite Hfirst. split; [| split; [assumption | eauto]].
    unfold registered in Hreg. simpl in Hreg.
    destruct Hreg as [<- | [<- | [<- | [<- | [<- | []]]]]]; reflexivity.
Qed.

(** X10. The endpoint [GET /api/carriers] cannot list a carrier: its loop
    unpacks each carrier type, a string, into two variables, which raises
    for every value that is not two characters long, and the loop body
    raises for the others.  With the registry as it is, the endpoint raises
    the ValueError of the first unpacking; only an empty registry would
    give an answer, the empty list. *)
Theorem get_carriers_raises :
  get_carriers getenv DHLCarrier AmazonCarrier
  = Raise (Exception "too many values to unpack (expected 2)")
  /\ (forall items,
        (exists e, get_carriers_loop items = Raise e)
        \/ (items = [] /\ get_carriers_loop items = Return []))
  /\ (forall ct,
        unpack_pair (CarrierType.value ct)
        = Raise (Exception "too many values to unpack (expected 2)")).
Proof.
  split; [reflexivity |]. split.
  - intros [| item rest]; [right; split; reflexivity |].
    left. cbn. destruct item; cbn; eauto.
  - intros ct. destruct ct; reflexivity.
Qed.

End EndpointFacts.


(** ** What makes an adapter raise, and what makes it return nothing *)

(** X18. When credentials are set, the USPS adapter raises only when the
    request itself fails: a reply, whatever its status and body, never
    makes it raise.  The UPS and FedEx adapters raise when the token
    request fails, when the tracking request fails, and also when a reply
    with status 200 has a body that is not JSON, which they decode outside
    the [try] of [_parse_response]. *)
Theorem adapter_track_raises (tracking_number : string) (w : World.t) (e : Exn) :
  (forall s,
     USPSCarrier.track s tracking_number w = Raise e
     <-> truthy (USPSCarrier.user_id s) = true /\ World.reply w = Raise e)
  /\ (forall s,
        UPSCarrier.track s tracking_number w = Raise e
        <-> truthy (UPSCarrier.client_id s) = true
            /\ (World.token w = Raise e
                \/ (exists access_token, World.token w = Return access_token)
                   /\ (World.reply w = Raise e
                       \/ exists response,
                            World.reply w = Return response
                            /\ status_code response = 200
                            /\ body response = Undecodable e)))
  /\ (forall s,
        FedExCarrier.track s tracking_number w = Raise e
        <-> truthy (FedExCarrier.client_id s) = true
            /\ (World.token w = Raise e
                \/ (exists access_token, World.token w = Return access_token)
                   /\ (World.reply w = Raise e
                       \/ exists response,
                            World.reply w = Return response
                            /\ status_code response = 200
                            /\ body response = Undecodable e))).
Proof.
  split; [| split]; intros s.
  - unfold USPSCarrier.track.
    destruct (truthy (USPSCarrier.user_id s)); cbn [negb].
    + destruct (World.reply w) as [response | e']; cbn [bind].
      * destruct (negb (status_code response =? 200)); split;
          [discriminate | intros [_ H]; discriminate
          | discriminate | intros [_ H]; discriminate].
      * split; [intros H; injection H as ->; auto | intros [_ H]; now injection H as ->].
    + split; [discriminate | intros [H _]; discriminate].
  - unfold UPSCarrier.track.
    destruct (truthy (UPSCarrier.client_id s)); cbn [negb];
      [| split; [discriminate | intros [H _]; discriminate]].
    destruct (World.token w) as [access_token | e1]; cbn [bind].
    + destruct (World.reply w) as [response | e2]; cbn [bind].
      * destruct (status_code response =? 200) eqn:Hcode; cbn [negb].
        -- apply Z.eqb_eq in Hcode.
           destruct (body response) as [e3 | data] eqn:Hbody; split.
           ++ intros H. injection H as ->. split; [reflexivity |].
              right. split; [eauto |]. right. exists response. auto.
           ++ intros [_ [H | [_ [H | (r & Hr & _ & Hb)]]]]; try discriminate.
              injection Hr as <-. congruence.
           ++ discriminate.
           ++ intros [_ [H | [_ [H | (r & Hr & _ & Hb)]]]]; try discriminate.
              injection Hr as <-. congruence.
        -- apply Z.eqb_neq in Hcode. split; [discriminate |].
           intros [_ [H | [_ [H | (r & Hr & Hc & _)]]]]; try discriminate.
           injection Hr as <-. contradiction.
      * split.
        -- intros H. injection H as ->. split; [reflexivity |].
           right. split; [eauto |]. now left.
        -- intros [_ [H | [_ [H | (r & Hr & _)]]]]; try discriminate.
           now injection H as ->.
    + split.
      * intros H. injection H as ->. split; [reflexivity |]. now left.
      * intros [_ [H | [(t & Ht) _]]]; [now injection H as -> | discriminate].
  - unfold FedExCarrier.track.
    destruct (truthy (FedExCarrier.client_id s)); cbn [negb];
      [| split; [discriminate | intros [H _]; discriminate]].
    destruct (World.token w) as [access_token | e1]; cbn [bind].
    + destruct (World.reply w) as [response | e2]; cbn [bind].
      * destruct (status_code response =? 200) eqn:Hcode; cbn [negb].
        -- apply Z.eqb_eq in Hcode.
           destruct (body response) as [e3 | data] eqn:Hbody; split.
           ++ intros H. injection H as ->. split; [reflexivity |].
              right. split; [eauto |]. right. exists response. auto.
           ++ intros [_ [H | [_ [H | (r & Hr & _ & Hb)]]]]; try discriminate.
              injection Hr as <-. congruence.
           ++ discriminate.
           ++ intros [_ [H | [_ [H | (r & Hr & _ & Hb)]]]]; try discriminate.
              injection Hr as <-. congruence.
        -- apply Z.eqb_neq in Hcode. split; [discriminate |].
           intros [_ [H | [_ [H | (r & Hr & Hc & _)]]]]; try discriminate.
           injection Hr as <-. contradiction.
      * split.
        -- intros H. injection H as ->. split; [reflexivity |].
           right. split; [eauto |]. now left.
        -- intros [_ [H | [_ [H | (r & Hr & _)]]]]; try discriminate.
           now injection H as ->.
    + split.
      * intros H. injection H as ->. split; [reflexivity |]. now left.
      * intros [_ [H | [(t & Ht) _]]]; [now injection H as -> | discriminate].
Qed.

(** X19. A reply with status 200 that holds no tracking record: the USPS
    adapter returns nothing, so the orchestrator reports a failure; the UPS
    and FedEx adapters fall back on the defaults of their [.get] calls and
    return a package with no events and status UNKNOWN, which the
    orchestrator reports as a success and caches. *)
Theorem reply_without_record (tracking_number : string) (w : World.t)
        (access_token : string) :
  World.token w = Return access_token ->
  World.reply w = Return {| status_code := 200; body := Decoded Absent |} ->
  (forall s, truthy (USPSCarrier.user_id s) = true ->
     USPSCarrier.track s tracking_number w = Return None)
  /\ (forall s, truthy (UPSCarrier.client_id s) = true ->
        exists p,
          UPSCarrier.track s tracking_number w = Return (Some p)
          /\ Package.events p = []
          /\ Package.status p = PackageStatus.UNKNOWN)
  /\ (forall s, truthy (FedExCarrier.client_id s) = true ->
        exists p,
          FedExCarrier.track s tracking_number w = Return (Some p)
          /\ Package.events p = []
          /\ Package.status p = PackageStatus.UNKNOWN).
Proof.
  intros Htoken Hreply. split; [| split]; intros s Hcred.
  - unfold USPSCarrier.track. rewrite Hcred, Hreply. reflexivity.
  - unfold UPSCarrier.track. rewrite Hcred, Htoken, Hreply.
    eexists. split; [reflexivity |]. split; reflexivity.
  - unfold FedExCarrier.track. rewrite Hcred, Htoken, Hreply.
    eexists. split; [reflexivity |]. split; reflexivity.
Qed.

(** ** The sort of the events *)

Lemma insert_desc_returns (x : TrackingEvent.t) (l : list TrackingEvent.t) :
  (forall y, In y l ->
     tzaware (TrackingEvent.timestamp x) = tzaware (TrackingEvent.timestamp y)) ->
  exists r, insert_desc x l = Return r.
Proof.
  induction l as [| y l IH]; intros Hsame; simpl; [eauto |].
  unfold datetime_lt. rewrite (Hsame y (or_introl eq_refl)).
  rewrite Bool.eqb_reflx. cbn [bind].
  destruct (instant (TrackingEvent.timestamp x) <? instant (TrackingEvent.timestamp y));
    [| eauto].
  destruct IH as (r & ->); [intros z Hz; apply Hsame; now right |].
  cbn [bind]. eauto.
Qed.

Lemma insert_desc_head_awareness (x y : TrackingEvent.t)
      (l r : list TrackingEvent.t) :
  insert_desc x (y :: l) = Return r ->
  tzaware (TrackingEvent.timestamp x) = tzaware (TrackingEvent.timestamp y).
Proof.
  simpl. unfold datetime_lt.
  destruct (Bool.eqb (tzaware (TrackingEvent.timestamp x))
                     (tzaware (TrackingEvent.timestamp y))) eqn:Heq.
  - intros _. now apply Bool.eqb_prop.
  - discriminate.
Qed.

(** The sort returns exactly when the timestamps are all naive or all
    aware. *)
Lemma sorted_returns_iff (l : list TrackingEvent.t) :
  (exists r, sorted_by_timestamp_reverse l = Return r) <-> same_awareness l.
Proof.
  induction l as [| x l IH]; simpl.
  - split; [intros _ e1 e2 [] | eauto].
  - destruct (sorted_by_timestamp_reverse l) as [s | e] eqn:Hsort; cbn [bind].
    + assert (Hl : same_awareness l) by (apply IH; eauto).
      assert (Hperm := sorted_by_timestamp_reverse_perm _ _ Hsort).
      split.
      * intros (r & Hr).
        assert (Hx : forall y, In y l ->
                  tzaware (TrackingEvent.timestamp x)
                  = tzaware (TrackingEvent.timestamp y)).
        { intros y Hy. destruct s as [| z s].
          - apply Permutation_sym, Permutation_nil in Hperm. subst l. destruct Hy.
          - rewrite (insert_desc_head_awareness _ _ _ _ Hr).
            apply Hl; [| assumption].
            apply (Permutation_in z (Permutation_sym Hperm)). now left. }
        intros e1 e2 [<- | H1] [<- | H2]; auto. symmetry. auto.
      * intros Hsame. apply insert_desc_returns.
        intros y Hy. apply Hsame; [now left |].
        right. apply (Permutation_in y (Permutation_sym Hperm) Hy).
    + split; [intros (r & Hr); discriminate |].
      intros Hsame. exfalso.
      assert (Hl : same_awareness l).
      { intros e1 e2 H1 H2. apply Hsame; now right. }
      apply IH in Hl. destruct Hl as (r & Hr). discriminate.
Qed.

(** X20. A reply whose record mixes timestamps with and without a time
    zone yields no package, and no other record does: each adapter's
    [_parse_response] returns None for the fields it extracted exactly when
    the timestamps of the events are not all naive or all aware. *)
Theorem parse_response_needs_same_awareness (status_text : string)
        (events : list TrackingEvent.t) (tracking_number : string) (w : World.t) :
  (USPSCarrier._parse_response (Decoded (Found status_text events))
     tracking_number w = None <-> ~ same_awareness events)
  /\ (UPSCarrier._parse_response (Found status_text events) tracking_number w = None
      <-> ~ same_awareness events)
  /\ (FedExCarrier._parse_response (Found status_text events) tracking_number w = None
      <-> ~ same_awareness events).
Proof.
  unfold USPSCarrier._parse_response, UPSCarrier._parse_response,
    FedExCarrier._parse_response.
  pose proof (sorted_returns_iff events) as Hiff.
  destruct (sorted_by_timestamp_reverse events) as [s | e].
  - assert (Hsame : same_awareness events) by (apply Hiff; eauto).
    repeat split; try discriminate; intros H; contradiction.
  - assert (Hmixed : ~ same_awareness events).
    { intros H. apply Hiff in H. destruct H as (r & Hr). discriminate. }
    repeat split; auto.
Qed.

Lemma descending_tail (x : TrackingEvent.t) (l : list TrackingEvent.t) :
  descending (x :: l) -> descending l.
Proof. intros H i e1 e2 H1 H2. exact (H (S i) e1 e2 H1 H2). Qed.

(** X21. The sort leaves a list of events as it is exactly when the list
    is already in descending order of timestamp; events with equal
    timestamps keep the order of the reply.  So sorting what was sorted
    changes nothing. *)
Theorem sorted_by_timestamp_reverse_fixed (l : list TrackingEvent.t) :
  (sorted_by_timestamp_reverse l = Return l <-> descending l)
  /\ (forall s, sorted_by_timestamp_reverse l = Return s ->
        sorted_by_timestamp_reverse s = Return s).
Proof.
  assert (Hfix : forall l0, descending l0 -> sorted_by_timestamp_reverse l0 = Return l0).
  { intros l0. induction l0 as [| x l0 IH]; intros Hd; simpl; [reflexivity |].
    rewrite (IH (descending_tail _ _ Hd)). cbn [bind].
    destruct l0 as [| y l0]; simpl; [reflexivity |].
    rewrite (Hd 0%nat x y eq_refl eq_refl). reflexivity. }
  assert (Hdesc : forall l0 s, sorted_by_timestamp_reverse l0 = Return s -> descending s).
  { intros l0 s Hs. apply Sorted_descending.
    eapply sorted_by_timestamp_reverse_sorted; eassumption. }
  split.
  - split; [apply Hdesc | apply Hfix].
  - intros s Hs. apply Hfix. eapply Hdesc; eassumption.
Qed.

(** ** The end-of-string anchor and a trailing newline *)

Lemma strip_prefix_app (p s s' t : string) :
  Str.strip_prefix p s = Some s' -> Str.strip_prefix p (s ++ t) = Some (s' ++ t).
Proof.
  revert s. induction p as [| a p IH]; intros s; simpl.
  - intros H. injection H as <-. reflexivity.
  - destruct s as [| b s]; [discriminate |]. simpl.
    destruct (Ascii.eqb a b); [apply IH | discriminate].
Qed.

Lemma strip_prefix_chars (p s s' : string) (c : ascii) :
  Str.strip_prefix p s = Some s' -> In c (chars s') -> In c (chars s).
Proof.
  revert s. induction p as [| a p IH]; intros s; simpl.
  - intros H. injection H as <-. auto.
  - destruct s as [| b s]; [discriminate |].
    destruct (Ascii.eqb a b); [| discriminate].
    intros H Hin. right. now apply IH.
Qed.

Lemma at_end_no_newline (s : string) :
  ~ In Re.newline (chars s) -> Re.at_end s = true -> s = "".
Proof.
  destruct s as [| c [| d s]]; simpl; auto; intros Hn H; [| discriminate].
  apply Ascii.eqb_eq in H. subst c. exfalso. apply Hn. now left.
Qed.

(** A match of a string without newline is a match of the string followed
    by a newline: the same characters are consumed, and where the end of
    the string was required, the newline that ends the string is found. *)
Lemma match_k_newline (r : Re.regex) :
  forall (at0 : bool) (s : string) (k k' : bool -> string -> bool),
    ~ In Re.newline (chars s) ->
    (forall a rest, ~ In Re.newline (chars rest) ->
       k a rest = true -> k' a (rest ++ String Re.newline "") = true) ->
    Re.match_k r at0 s k = true ->
    Re.match_k r at0 (s ++ String Re.newline "") k' = true.
Proof.
  induction r as [ | | lit | ranges | r1 IH1 r2 IH2 | r1 IH1 r2 IH2 | r1 IH1 n];
    intros at0 s k k' Hs Hk; simpl.
  - intros H. apply andb_true_iff in H. destruct H as [-> H]. simpl. auto.
  - intros H. apply andb_true_iff in H. destruct H as [He H].
    apply at_end_no_newline in He; [| assumption]. subst s.
    apply andb_true_iff. split; [reflexivity |]. now apply (Hk at0 "").
  - destruct (Str.strip_prefix lit s) as [s' |] eqn:Hp; [| discriminate].
    rewrite (strip_prefix_app _ _ _ _ Hp). apply Hk.
    intros Hin. apply Hs. eapply strip_prefix_chars; eassumption.
  - destruct s as [| c s]; [discriminate |]. simpl.
    intros H. apply andb_true_iff in H. destruct H as [-> H]. simpl.
    apply Hk; [| assumption]. intros Hin. apply Hs. now right.
  - intros H. apply orb_true_iff in H. apply orb_true_iff.
    destruct H as [H | H]; [left; eapply IH1 | right; eapply IH2]; eassumption.
  - apply IH1; [assumption |]. intros a rest Hrest. now apply IH2.
  - revert at0 s Hs. induction n as [| n IHn]; intros at0 s Hs; [now apply Hk |].
    apply IH1; [assumption |]. intros a rest Hrest. now apply IHn.
Qed.

Lemma upper_app (s t : string) : Str.upper (s ++ t) = Str.upper s ++ Str.upper t.
Proof.
  unfold Str.upper. induction s as [| c s IH]; simpl; [reflexivity | now rewrite IH].
Qed.

Lemma remove_app (c : ascii) (s t : string) :
  Str.remove c (s ++ t) = Str.remove c s ++ Str.remove c t.
Proof.
  induction s as [| x s IH]; simpl; [reflexivity |].
  destruct (Ascii.eqb x c); simpl; now rewrite IH.
Qed.

Lemma upper_char_newline (y : ascii) : Re.newline = Str.upper_char y -> y = Re.newline.
Proof.
  destruct y as [[] [] [] [] [] [] [] []]; vm_compute; intros H; congruence.
Qed.

(** X22. The patterns end in [$], which also matches just before a
    newline that ends the string: a tracking number that is accepted is
    still accepted with a newline after it, whatever the patterns. *)
Theorem validate_accepts_trailing_newline (patterns : list Re.regex)
        (tracking_number : string) :
  ~ In Re.newline (chars tracking_number) ->
  BaseCarrier.validate patterns tracking_number = true ->
  BaseCarrier.validate patterns (tracking_number ++ String Re.newline "") = true.
Proof.
  intros Hnl. unfold BaseCarrier.validate.
  rewrite upper_app, !remove_app.
  change (Str.remove "-" (Str.remove " " (Str.upper (String Re.newline ""))))
    with (String Re.newline "").
  intros H. apply existsb_exists in H. destruct H as (pattern & Hin & Hmatch).
  apply existsb_exists. exists pattern. split; [assumption |].
  unfold Re.re_match in *.
  apply (match_k_newline pattern true _ (fun _ _ => true)); [| auto | assumption].
  intros Hc. apply chars_remove in Hc. destruct Hc as [_ Hc].
  apply chars_remove in Hc. destruct Hc as [_ Hc].
  apply chars_upper in Hc. destruct Hc as (y & Hy & Heq).
  apply upper_char_newline in Heq. subst y. contradiction.
Qed.

(** ** Closed instances of the further facts *)

Lemma after_first_request_reachable :
  reachable Demo.no_env Demo.dhl Demo.amazon Demo.world Demo.format_carrier
    Demo.after_first_request.
Proof.
  apply (reachable_request Demo.no_env Demo.dhl Demo.amazon Demo.world
           Demo.format_carrier "1Z999AA10123456784" None init
           Demo.after_first_request
           (fst (track_package Demo.no_env Demo.dhl Demo.amazon Demo.world
                   Demo.format_carrier "1Z999AA10123456784" None init))).
  - apply reachable_init.
  - apply surjective_pairing.
Qed.

Lemma track_package_endpoint_replies_witness :
  exists reply st',
    track_package_endpoint Demo.no_env Demo.dhl Demo.amazon Demo.world
      Demo.format_carrier "1Z999AA10123456784" None init = (reply, st')
    /\ ((hit_survives (Demo.world (tick init))
           (cache_key "1Z999AA10123456784" None) (cache init)
         /\ ((exists body p,
                reply = Http200 body
                /\ TrackingResponse.success body = true
                /\ TrackingResponse.package body = Some p)
             \/ (exists text,
                   reply = HttpError 404 (Some text)
                   /\ cache st' = cache init)))
        \/ (exists l,
              TTLCache.find (cache_key "1Z999AA10123456784" None)
                (TTLCache.links (cache init)) = Some l
              /\ World.monotonic (Demo.world (tick init)) < TTLCache.expires l
              /\ TTLCache.expires l <= World.monotonic_getitem (Demo.world (tick init))
              /\ reply = Crash (Exception (cache_key "1Z999AA10123456784" None))
              /\ calls st' = calls init)).
Proof.
  exact (track_package_endpoint_replies Demo.no_env Demo.dhl Demo.amazon Demo.world
           Demo.format_carrier "1Z999AA10123456784" None init
           (reachable_init _ _ _ _ _)).
Defined.

Lemma reachable_cache_bounded_witness :
  (List.length (TTLCache.links (cache Demo.after_first_request)) <= 1000)%nat
  /\ NoDup (map TTLCache.key (TTLCache.links (cache Demo.after_first_request))).
Proof.
  exact (reachable_cache_bounded Demo.no_env Demo.dhl Demo.amazon Demo.world
           Demo.format_carrier Demo.after_first_request
           after_first_request_reachable).
Defined.

Lemma cached_package_provenance_witness :
  exists n adapter p,
    (n < tick Demo.after_first_request)%nat
    /\ get_carrier Demo.no_env Demo.dhl Demo.amazon
         (resolved_carrier Demo.no_env Demo.dhl Demo.amazon
            "1Z999AA10123456784" None) = Some adapter
    /\ BaseCarrier.track adapter "1Z999AA10123456784" (Demo.world n)
       = Return (Some p)
    /\ TrackingResponse.package
         (hit (Package.set_carrier_detected true
                 (UPSCarrier._mock_track "1Z999AA10123456784" (Demo.world 0))))
       = Some (Package.set_carrier_detected (was_detected None) p)
    /\ World.monotonic (Demo.world (tick Demo.after_first_request))
       < World.monotonic_store (Demo.world n) + 300.
Proof.
  apply (cached_package_provenance Demo.no_env Demo.dhl Demo.amazon Demo.world
           Demo.format_carrier "1Z999AA10123456784" None Demo.after_first_request
           (snd (track_package Demo.no_env Demo.dhl Demo.amazon Demo.world
                   Demo.format_carrier "1Z999AA10123456784" None
                   Demo.after_first_request))).
  - exact after_first_request_reachable.
  - vm_compute. reflexivity.
  - reflexivity.
Defined.

Lemma response_package_identity_witness :
  Package.tracking_number
    (Package.set_carrier_detected true
       (UPSCarrier._mock_track "1Z999AA10123456784" (Demo.world 0)))
  = "1Z999AA10123456784"
  /\ Package.id
       (Package.set_carrier_detected true
          (UPSCarrier._mock_track "1Z999AA10123456784" (Demo.world 0)))
     = "ups_1Z999AA10123456784".
Proof.
  destruct (response_package_identity Demo.no_env Demo.dhl Demo.amazon Demo.world
              Demo.format_carrier "1Z999AA10123456784" None Demo.after_first_request
              (snd (track_package Demo.no_env Demo.dhl Demo.amazon Demo.world
                      Demo.format_carrier "1Z999AA10123456784" None
                      Demo.after_first_request))
              (hit (Package.set_carrier_detected true
                      (UPSCarrier._mock_track "1Z999AA10123456784" (Demo.world 0))))
              (Package.set_carrier_detected true
                 (UPSCarrier._mock_track "1Z999AA10123456784" (Demo.world 0))))
    as (Hnumber & _ & Hid & _).
  - exact after_first_request_reachable.
  - vm_compute. reflexivity.
  - reflexivity.
  - vm_compute. right. left. reflexivity.
  - split; [exact Hnumber | exact Hid].
Defined.

Lemma track_package_other_entries_witness :
  In {| TTLCache.key := "auto_1Z999AA10123456784";
        TTLCache.value :=
          Package.set_carrier_detected true
            (UPSCarrier._mock_track "1Z999AA10123456784" (Demo.world 0));
        TTLCache.expires := 300 |}
     (TTLCache.links
        (cache (snd (track_package Demo.no_env Demo.dhl Demo.amazon Demo.world
                       Demo.format_carrier "123456789012" None
                       Demo.after_first_request)))).
Proof.
  refine (proj2 (track_package_other_entries Demo.no_env Demo.dhl Demo.amazon
                   Demo.world Demo.format_carrier "123456789012" None
                   Demo.after_first_request _
                   (fst (track_package Demo.no_env Demo.dhl Demo.amazon Demo.world
                           Demo.format_carrier "123456789012" None
                           Demo.after_first_request)) _ _ _) _ _ _).
  - apply surjective_pairing.
  - vm_compute. intros H. discriminate H.
  - vm_compute. left. reflexivity.
  - vm_compute. reflexivity.
  - vm_compute. reflexivity.
Defined.

Lemma auto_detection_dispatch_witness :
  exists adapter,
    get_carrier Demo.no_env Demo.dhl Demo.amazon CarrierType.UPS = Some adapter
    /\ BaseCarrier.validate_tracking_number adapter "1Z999AA10123456784" = true.
Proof.
  destruct (auto_detection_dispatch Demo.no_env Demo.dhl Demo.amazon Demo.world
              Demo.format_carrier "1Z999AA10123456784" init
              Demo.after_first_request
              (fetched (Package.set_carrier_detected true
                          (UPSCarrier._mock_track "1Z999AA10123456784"
                             (Demo.world 0)))))
    as [[Hcached _] | [(Hunknown & _) | (adapter & Hget & Hvalid & _)]].
  - vm_compute. reflexivity.
  - discriminate Hcached.
  - vm_compute in Hunknown. discriminate Hunknown.
  - exists adapter. split; [exact Hget | exact Hvalid].
Defined.

Lemma track_package_expired_refetch_witness :
  exists second st2,
    track_package Demo.no_env Demo.dhl Demo.amazon Demo.world_every_400s
      Demo.format_carrier "1Z999AA10123456784" None
      (snd (track_package Demo.no_env Demo.dhl Demo.amazon Demo.world_every_400s
              Demo.format_carrier "1Z999AA10123456784" None init))
    = (Return second, st2)
    /\ TrackingResponse.cached second = false.
Proof.
  destruct (track_package_expired_refetch Demo.no_env Demo.dhl Demo.amazon
              Demo.world_every_400s Demo.format_carrier "1Z999AA10123456784" None
              init
              (snd (track_package Demo.no_env Demo.dhl Demo.amazon
                      Demo.world_every_400s Demo.format_carrier
                      "1Z999AA10123456784" None init))
              (fetched (Package.set_carrier_detected true
                          (UPSCarrier._mock_track "1Z999AA10123456784"
                             (Demo.world_every_400s 0)))))
    as (second & st2 & Hrun & Hfresh & _).
  - apply reachable_init.
  - vm_compute. reflexivity.
  - reflexivity.
  - reflexivity.
  - vm_compute. discriminate.
  - exists second, st2. split; [exact Hrun | exact Hfresh].
Defined.

Lemma concurrent_duplicates_both_fetch_witness :
  exists q',
    step Demo.with_credentials Demo.dhl Demo.amazon Demo.world_answering
      Demo.format_carrier Demo.both_suspended q'.
Proof.
  refine (proj1 (proj2 (concurrent_duplicates_both_fetch Demo.with_credentials
                          Demo.dhl Demo.amazon Demo.world_answering
                          Demo.format_carrier Demo.both_suspended
                          _ _ _ _ _ _ _ _ _ _ _ _ _ _ _
                          Demo.both_suspended _)) _).
  - reflexivity.
  - reflexivity.
  - vm_compute. reflexivity.
  - vm_compute. reflexivity.
  - apply steps_refl.
  - reflexivity.
Defined.

Lemma reply_without_record_witness :
  USPSCarrier.track (USPSCarrier.init Demo.with_credentials)
    "9400111899223197428431" Demo.no_record = Return None.
Proof.
  apply (proj1 (reply_without_record "9400111899223197428431" Demo.no_record
                  "token" eq_refl eq_refl)).
  reflexivity.
Defined.

Lemma validate_accepts_trailing_newline_witness :
  BaseCarrier.validate UPSCarrier.tracking_patterns
    ("1Z999AA10123456784" ++ String Re.newline "") = true.
Proof.
  apply (validate_accepts_trailing_newline UPSCarrier.tracking_patterns
           "1Z999AA10123456784").
  - intros H. vm_compute in H. intuition discriminate.
  - vm_compute. reflexivity.
Defined.

(** ** How far the patterns of the adapters overlap *)

Lemma strip_prefix_split (p s s' : string) :
  Str.strip_prefix p s = Some s' -> s = p ++ s'.
Proof.
  revert s. induction p as [| a p IH]; intros s; simpl.
  - intros H. now injection H as <-.
  - destruct s as [| b s]; [discriminate |].
    destruct (Ascii.eqb a b) eqn:Hab; [| discriminate].
    apply Ascii.eqb_eq in Hab. subst b. intros H. now rewrite (IH _ H).
Qed.

Lemma chars_app (s t : string) : chars (s ++ t) = (chars s ++ chars t)%list.
Proof.
  unfold chars. induction s as [| c s IH]; simpl; [reflexivity | now rewrite IH].
Qed.

Lemma length_append (s t : string) :
  String.length (s ++ t) = (String.length s + String.length t)%nat.
Proof. induction s as [| c s IH]; simpl; [reflexivity | now rewrite IH]. Qed.

Lemma append_assoc (s t u : string) : (s ++ t) ++ u = s ++ t ++ u.
Proof. induction s as [| c s IH]; simpl; [reflexivity | now rewrite IH]. Qed.

Lemma no_newline_existsb (s : string) :
  existsb (Ascii.eqb Re.newline) (chars s) = false -> ~ In Re.newline (chars s).
Proof.
  intros H Hin. assert (Ht : existsb (Ascii.eqb Re.newline) (chars s) = true).
  { apply existsb_exists. exists Re.newline. split; [assumption |].
    apply Ascii.eqb_refl. }
  congruence.
Qed.

(** What a match of a pattern of known width consumes. *)
Lemma match_k_width (r : Re.regex) :
  forall (w : nat) (at0 : bool) (s : string) (k : bool -> string -> bool),
    width r = Some w ->
    Re.match_k r at0 s k = true ->
    exists prefix rest a,
      s = prefix ++ rest
      /\ String.length prefix = w
      /\ ~ In Re.newline (chars prefix)
      /\ k a rest = true.
Proof.
  induction r as [ | | lit | ranges | r1 IH1 r2 IH2 | r1 IH1 r2 IH2 | r1 IH1 n];
    intros w at0 s k; simpl.
  - intros Hw H. injection Hw as <-. apply andb_true_iff in H. destruct H as [_ H].
    exists "", s, at0. repeat split; auto.
  - intros Hw H. injection Hw as <-. apply andb_true_iff in H. destruct H as [_ H].
    exists "", s, at0. repeat split; auto.
  - destruct (existsb (Ascii.eqb Re.newline) (chars lit)) eqn:Hnl; [discriminate |].
    intros Hw. injection Hw as <-.
    destruct (Str.strip_prefix lit s) as [s' |] eqn:Hp; [| discriminate].
    intros H. exists lit, s', (at0 && Re.is_empty lit).
    repeat split; [now apply strip_prefix_split | now apply no_newline_existsb
                  | assumption].
  - destruct (Re.in_class ranges Re.newline) eqn:Hnl; [discriminate |].
    intros Hw. injection Hw as <-.
    destruct s as [| c s]; [discriminate |].
    intros H. apply andb_true_iff in H. destruct H as [Hc H].
    exists (String c ""), s, false. repeat split; [| assumption].
    intros [Heq | []]. subst c. congruence.
  - destruct (width r1) as [a |]; [| discriminate].
    destruct (width r2) as [b |]; [| discriminate].
    destruct (Nat.eqb a b) eqn:Hab; [| discriminate].
    apply Nat.eqb_eq in Hab. subst b.
    intros Hw H. injection Hw as <-. apply orb_true_iff in H.
    destruct H as [H | H]; [eapply IH1 | eapply IH2]; eauto.
  - destruct (width r1) as [a |]; [| discriminate].
    destruct (width r2) as [b |]; [| discriminate].
    intros Hw H. injection Hw as <-.
    destruct (IH1 a at0 s _ eq_refl H) as (p1 & rest1 & a1 & -> & Hl1 & Hn1 & H1).
    destruct (IH2 b a1 rest1 k eq_refl H1) as (p2 & rest & a2 & -> & Hl2 & Hn2 & H2).
    exists (p1 ++ p2), rest, a2.
    repeat split; [now rewrite append_assoc | rewrite length_append; lia | | assumption].
    rewrite chars_app. intros Hin. apply in_app_or in Hin. tauto.
  - destruct (width r1) as [a |]; [| discriminate].
    intros Hw. injection Hw as <-. revert at0 s.
    induction n as [| n IHn]; intros at0 s H.
    + exists "", s, at0. repeat split; auto.
    + destruct (IH1 a at0 s _ eq_refl H) as (p1 & rest1 & a1 & -> & Hl1 & Hn1 & H1).
      destruct (IHn a1 rest1 H1) as (p2 & rest & a2 & -> & Hl2 & Hn2 & H2).
      exists (p1 ++ p2), rest, a2.
      repeat split; [now rewrite append_assoc | rewrite length_append; lia |
                     | assumption].
      rewrite chars_app. intros Hin. apply in_app_or in Hin. tauto.
Qed.

(** What a match of a pattern that ends in [$] consumes: all of the string
    but a newline that ends it. *)
Lemma match_k_anchored (r : Re.regex) :
  forall (w : nat) (at0 : bool) (s : string) (k : bool -> string -> bool),
    anchored_width r = Some w ->
    Re.match_k r at0 s k = true ->
    exists prefix rest,
      s = prefix ++ rest
      /\ String.length prefix = w
      /\ ~ In Re.newline (chars prefix)
      /\ Re.at_end rest = true.
Proof.
  induction r as [ | | lit | ranges | r1 IH1 r2 IH2 | r1 IH1 r2 IH2 | r1 IH1 n];
    intros w at0 s k; simpl; try discriminate.
  - intros Hw H. injection Hw as <-. apply andb_true_iff in H. destruct H as [H _].
    exists "", s. repeat split; auto.
  - destruct (anchored_width r1) as [a |]; [| discriminate].
    destruct (anchored_width r2) as [b |]; [| discriminate].
    destruct (Nat.eqb a b) eqn:Hab; [| discriminate].
    apply Nat.eqb_eq in Hab. subst b.
    intros Hw H. injection Hw as <-. apply orb_true_iff in H.
    destruct H as [H | H]; [eapply IH1 | eapply IH2]; eauto.
  - destruct (width r1) as [a |] eqn:Hw1; [| discriminate].
    destruct (anchored_width r2) as [b |]; [| discriminate].
    intros Hw H. injection Hw as <-.
    destruct (match_k_width r1 a at0 s _ Hw1 H)
      as (p1 & rest1 & a1 & -> & Hl1 & Hn1 & H1).
    destruct (IH2 b a1 rest1 k eq_refl H1) as (p2 & rest & -> & Hl2 & Hn2 & H2).
    exists (p1 ++ p2), rest.
    repeat split; [now rewrite append_assoc | rewrite length_append; lia | | assumption].
    rewrite chars_app. intros Hin. apply in_app_or in Hin. tauto.
Qed.

(** A string has one way only to be characters other than newline followed
    by its end. *)
Lemma anchored_split_unique (p1 p2 r1 r2 : string) :
  p1 ++ r1 = p2 ++ r2 ->
  ~ In Re.newline (chars p1) -> ~ In Re.newline (chars p2) ->
  Re.at_end r1 = true -> Re.at_end r2 = true ->
  String.length p1 = String.length p2.
Proof.
  revert p2. induction p1 as [| c p1 IH]; intros [| d p2]; simpl;
    intros Heq Hn1 Hn2 He1 He2; auto.
  - exfalso. subst r1. destruct p2 as [| d' p2]; simpl in He1.
    + destruct r2 as [| x r2]; simpl in He1.
      * apply Ascii.eqb_eq in He1. subst d. apply Hn2. now left.
      * discriminate.
    + discriminate.
  - exfalso. subst r2. destruct p1 as [| c' p1]; simpl in He2.
    + destruct r1 as [| x r1]; simpl in He2.
      * apply Ascii.eqb_eq in He2. subst c. apply Hn1. now left.
      * discriminate.
    + discriminate.
  - injection Heq as <- Heq. f_equal. apply (IH p2 Heq); auto.
Qed.

(** Two patterns that end in [$] and match one string have one width. *)
Lemma same_string_same_width (r1 r2 : Re.regex) (w1 w2 : nat) (s : string) :
  anchored_width r1 = Some w1 -> anchored_width r2 = Some w2 ->
  Re.re_match r1 s = true -> Re.re_match r2 s = true -> w1 = w2.
Proof.
  unfold Re.re_match. intros Hw1 Hw2 H1 H2.
  destruct (match_k_anchored r1 w1 _ _ _ Hw1 H1) as (p1 & t1 & -> & <- & Hn1 & He1).
  destruct (match_k_anchored r2 w2 _ _ _ Hw2 H2) as (p2 & t2 & Heq & <- & Hn2 & He2).
  eapply anchored_split_unique; eassumption.
Qed.

(** Lists of patterns that end in [$], none of the first as wide as one of
    the second, accept no number in common. *)
Lemma validate_other_widths (ps qs : list Re.regex) (tracking_number : string) :
  forallb (fun p =>
    forallb (fun q =>
      match anchored_width p, anchored_width q with
      | Some a, Some b => negb (Nat.eqb a b)
      | _, _ => false
      end) qs) ps = true ->
  BaseCarrier.validate ps tracking_number = true ->
  BaseCarrier.validate qs tracking_number = false.
Proof.
  unfold BaseCarrier.validate. intros Hwidths Hp.
  apply existsb_exists in Hp. destruct Hp as (p & Hp & Hmp).
  destruct (existsb _ qs) eqn:Hq; [| reflexivity]. exfalso.
  apply existsb_exists in Hq. destruct Hq as (q & Hq & Hmq).
  rewrite forallb_forall in Hwidths. specialize (Hwidths p Hp).
  rewrite forallb_forall in Hwidths. specialize (Hwidths q Hq).
  destruct (anchored_width p) as [a |] eqn:Ha; [| discriminate].
  destruct (anchored_width q) as [b |] eqn:Hb; [| discriminate].
  assert (a = b) by (eapply same_string_same_width; eassumption).
  subst b. now rewrite Nat.eqb_refl in Hwidths.
Qed.

(** USPS, UPS and FedEx accept no number in common, but for the numbers of
    the SurePost form, which USPS and UPS both accept. *)
Lemma patterns_overlap (tracking_number : string) :
  let cleaned := BaseCarrier.normalize_tracking_number tracking_number in
  (BaseCarrier.validate FedExCarrier.tracking_patterns tracking_number = true ->
   BaseCarrier.validate USPSCarrier.tracking_patterns tracking_number = false
   /\ BaseCarrier.validate UPSCarrier.tracking_patterns tracking_number = false)
  /\ (BaseCarrier.validate USPSCarrier.tracking_patterns tracking_number = true ->
      BaseCarrier.validate UPSCarrier.tracking_patterns tracking_number
      = Re.re_match ups_surepost cleaned).
Proof.
  cbv zeta. split.
  - intros Hf. split; revert Hf; apply validate_other_widths; reflexivity.
  - intros Husps.
    assert (Hfirst : BaseCarrier.validate (firstn 2 UPSCarrier.tracking_patterns)
                       tracking_number = false).
    { revert Husps. apply validate_other_widths. reflexivity. }
    unfold BaseCarrier.validate, BaseCarrier.normalize_tracking_number,
      UPSCarrier.tracking_patterns in *.
    cbn [existsb firstn] in *. fold ups_surepost.
    set (cleaned := Str.remove "-" (Str.remove " " (Str.upper tracking_number))) in *.
    rewrite !orb_false_r in *.
    apply orb_false_iff in Hfirst. destruct Hfirst as [-> ->]. reflexivity.
Qed.

(** X23. Among USPS, UPS and FedEx the order of registration decides for
    the numbers of the SurePost form only.  No number is accepted by FedEx
    and by USPS or UPS; USPS and UPS both accept exactly the SurePost form.
    So [detect_carrier] answers USPS exactly for what USPS accepts, FEDEX
    exactly for what FedEx accepts, and UPS exactly for what UPS accepts
    and is not of the SurePost form. *)
Theorem detect_carrier_by_acceptance
        (getenv : string -> option string)
        (DHLCarrier AmazonCarrier : BaseCarrier.Carrier)
        (tracking_number : string) :
  let cleaned := BaseCarrier.normalize_tracking_number tracking_number in
  let detected := detect_carrier getenv DHLCarrier AmazonCarrier tracking_number in
  let usps := BaseCarrier.validate USPSCarrier.tracking_patterns tracking_number in
  let ups := BaseCarrier.validate UPSCarrier.tracking_patterns tracking_number in
  let fedex := BaseCarrier.validate FedExCarrier.tracking_patterns tracking_number in
  (usps && fedex = false) /\ (ups && fedex = false)
  /\ (usps && ups = Re.re_match ups_surepost cleaned)
  /\ (detected = CarrierType.USPS <-> usps = true)
  /\ (detected = CarrierType.UPS
      <-> ups = true /\ Re.re_match ups_surepost cleaned = false)
  /\ (detected = CarrierType.FEDEX <-> fedex = true).
Proof.
  cbv zeta.
  destruct (patterns_overlap tracking_number) as [Hfedex Hsure]. cbv zeta in *.
  pose proof (surepost_is_international
                (BaseCarrier.normalize_tracking_number tracking_number)) as Hint.
  assert (Hshadow :
    Re.re_match ups_surepost
      (BaseCarrier.normalize_tracking_number tracking_number) = true ->
    BaseCarrier.validate USPSCarrier.tracking_patterns tracking_number = true
    /\ BaseCarrier.validate UPSCarrier.tracking_patterns tracking_number = true).
  { intros H. specialize (Hint H).
    unfold BaseCarrier.validate, USPSCarrier.tracking_patterns,
      UPSCarrier.tracking_patterns.
    cbn [existsb].
    change (Str.remove "-" (Str.remove " " (Str.upper tracking_number)))
      with (BaseCarrier.normalize_tracking_number tracking_number).
    fold usps_international. fold ups_surepost. rewrite H, Hint.
    now rewrite !orb_true_r. }
  unfold detect_carrier, CARRIERS. cbn [first_valid].
  change (BaseCarrier.validate_tracking_number
            (USPSCarrier.carrier (USPSCarrier.init getenv)) tracking_number)
    with (BaseCarrier.validate USPSCarrier.tracking_patterns tracking_number).
  change (BaseCarrier.validate_tracking_number
            (UPSCarrier.carrier (UPSCarrier.init getenv)) tracking_number)
    with (BaseCarrier.validate UPSCarrier.tracking_patterns tracking_number).
  change (BaseCarrier.validate_tracking_number
            (FedExCarrier.carrier (FedExCarrier.init getenv)) tracking_number)
    with (BaseCarrier.validate FedExCarrier.tracking_patterns tracking_number).
  clear Hint. revert Hfedex Hsure Hshadow.
  destruct (BaseCarrier.validate FedExCarrier.tracking_patterns tracking_number),
    (BaseCarrier.validate USPSCarrier.tracking_patterns tracking_number),
    (BaseCarrier.validate UPSCarrier.tracking_patterns tracking_number),
    (Re.re_match ups_surepost
       (BaseCarrier.normalize_tracking_number tracking_number)),
    (BaseCarrier.validate_tracking_number DHLCarrier tracking_number),
    (BaseCarrier.validate_tracking_number AmazonCarrier tracking_number);
    cbn [andb]; intros Hfedex Hsure Hshadow; intuition congruence.
Qed.

(** ** Which entry a full cache gives up *)

Lemma filter_all {A : Type} (f : A -> bool) (l : list A) :
  Forall (fun x => f x = true) l -> filter f l = l.
Proof.
  induction 1 as [| x l Hx _ IH]; simpl; [reflexivity |].
  now rewrite Hx, IH.
Qed.

(** X24. The cache gives up its least recently used entry, and a hit
    counts as a use.  A call that is served from the cache moves its entry
    to the most recently used end.  A call that stores a package under a
    new key in a cache that is full of live entries drops the entry at the
    least recently used end and nothing else. *)
Theorem cache_least_recently_used
        (getenv : string -> option string)
        (DHLCarrier AmazonCarrier : BaseCarrier.Carrier)
        (world : nat -> World.t) (format_carrier : CarrierType.t -> string)
        (tracking_number : string) (carrier : option CarrierType.t)
        (st st' : State) (r : TrackingResponse.t) :
  track_package getenv DHLCarrier AmazonCarrier world format_carrier
    tracking_number carrier st = (Return r, st') ->
  let key := cache_key tracking_number carrier in
  let links := TTLCache.links (cache st) in
  (TrackingResponse.cached r = true ->
   exists entry,
     TTLCache.find key links = Some entry
     /\ TTLCache.links (cache st') = (TTLCache.delete key links ++ [entry])%list)
  /\ (TrackingResponse.success r = true ->
      TTLCache.find key links = None ->
      1 <= TTLCache.maxsize (cache st) ->
      Z.of_nat (List.length links) = TTLCache.maxsize (cache st) ->
      Forall (fun l => World.monotonic_store (world (tick st)) < TTLCache.expires l)
             links ->
      exists entry,
        TTLCache.links (cache st') = (tl links ++ [entry])%list
        /\ TTLCache.key entry = key
        /\ TrackingResponse.package r = Some (TTLCache.value entry)).
Proof.
  intros Hrun. cbv zeta.
  destruct (track_package_paths getenv DHLCarrier AmazonCarrier world format_carrier
              tracking_number carrier st
              (returned_survives _ _ _ _ _ _ _ _ _ _ Hrun))
    as (r1 & st1 & Heq & _ & Hpath).
  rewrite Hrun in Heq. injection Heq as <- <-. cbv zeta in Hpath.
  destruct Hpath as [(l & Hfind & _ & -> & Hcache & _) | (_ & Hmiss)].
  - split.
    + intros _. exists l. split; [assumption |]. now rewrite Hcache.
    + intros _ Hnone. congruence.
  - destruct Hmiss as [(_ & -> & _) | [(_ & _ & -> & _) | Hcall]];
      [split; discriminate | split; discriminate |].
    destruct Hcall as (_ & adapter & _ & _ & Hout).
    destruct Hout as [(e & _ & -> & _) | [(_ & -> & _) | (p & _ & Hstore)]];
      [split; discriminate | split; discriminate |].
    cbv zeta in Hstore.
    destruct (TTLCache.setitem _ _ _ (cache st)) as [[u | e] c'] eqn:Hs;
      destruct Hstore as [-> Hc]; [| split; discriminate].
    split; [discriminate |].
    intros _ Hnone Hmax Hfull Hlive.
    subst c'. revert Hs. unfold TTLCache.setitem.
    cbn [TTLCache.maxsize TTLCache.expire TTLCache.with_links TTLCache.ttl
         TTLCache.links].
    rewrite (filter_all (fun l => World.monotonic_store (world (tick st))
                                  <? TTLCache.expires l)
               (TTLCache.links (cache st))).
    2:{ eapply Forall_impl; [| exact Hlive]. intros l Hl. now apply Z.ltb_lt. }
    destruct (TTLCache.maxsize (cache st) <? 1) eqn:Hlt;
      [apply Z.ltb_lt in Hlt; lia |].
    rewrite Hnone. unfold TTLCache.evict.
    replace (Z.to_nat (Z.of_nat (List.length (TTLCache.links (cache st))) + 1
                       - TTLCache.maxsize (cache st))) with 1%nat by lia.
    intros H. injection H as _ H. rewrite <- H.
    cbn [TTLCache.links TTLCache.with_links].
    eexists. split; [reflexivity |]. split; reflexivity.
Qed.

Lemma cache_least_recently_used_witness :
  exists entry,
    TTLCache.links
      (cache
         (snd (track_package Demo.no_env Demo.dhl Demo.amazon Demo.world
                 Demo.format_carrier "1Z999AA10123456784" None
                 {| cache :=
                      {| TTLCache.maxsize := 2; TTLCache.ttl := 300;
                         TTLCache.links :=
                           [{| TTLCache.key := "usps_9400111899223197428431";
                               TTLCache.value :=
                                 USPSCarrier._mock_track "9400111899223197428431"
                                   (Demo.world 0);
                               TTLCache.expires := 200 |};
                            {| TTLCache.key := "fedex_123456789012";
                               TTLCache.value :=
                                 FedExCarrier._mock_track "123456789012"
                                   (Demo.world 0);
                               TTLCache.expires := 250 |}] |};
                    calls := []; tick := 2 |})))
    = [{| TTLCache.key := "fedex_123456789012";
          TTLCache.value := FedExCarrier._mock_track "123456789012" (Demo.world 0);
          TTLCache.expires := 250 |}; entry]
    /\ TTLCache.key entry = "auto_1Z999AA10123456784".
Proof.
  destruct (proj2 (cache_least_recently_used Demo.no_env Demo.dhl Demo.amazon
                     Demo.world Demo.format_carrier "1Z999AA10123456784" None
                     {| cache :=
                          {| TTLCache.maxsize := 2; TTLCache.ttl := 300;
                             TTLCache.links :=
                               [{| TTLCache.key := "usps_9400111899223197428431";
                                   TTLCache.value :=
                                     USPSCarrier._mock_track
                                       "9400111899223197428431" (Demo.world 0);
                                   TTLCache.expires := 200 |};
                                {| TTLCache.key := "fedex_123456789012";
                                   TTLCache.value :=
                                     FedExCarrier._mock_track "123456789012"
                                       (Demo.world 0);
                                   TTLCache.expires := 250 |}] |};
                        calls := []; tick := 2 |}
                     _
                     (fetched (Package.set_carrier_detected true
                                 (UPSCarrier._mock_track "1Z999AA10123456784"
                                    (Demo.world 2))))
                     (surjective_pairing _)))
    as (entry & Hlinks & Hkey & _).
  - reflexivity.
  - reflexivity.
  - vm_compute. discriminate.
  - reflexivity.
  - repeat constructor.
  - exists entry. split; [exact Hlinks | exact Hkey].
Defined.

(** ** Requests that name their carrier *)

(** X25. A request that names a registered carrier is not validated and
    not detected: unless it is served from the cache, the tracking number
    goes as it is to the adapter of the named carrier, whether or not that
    adapter accepts it, with no detector call, and the response is the one
    that the adapter's answer makes. *)
Theorem explicit_carrier_dispatch
        (getenv : string -> option string)
        (DHLCarrier AmazonCarrier : BaseCarrier.Carrier)
        (world : nat -> World.t) (format_carrier : CarrierType.t -> string)
        (tracking_number : string) (c : CarrierType.t) (st : State) :
  reachable getenv DHLCarrier AmazonCarrier world format_carrier st ->
  In c [CarrierType.USPS; CarrierType.UPS; CarrierType.FEDEX; CarrierType.DHL;
        CarrierType.AMAZON] ->
  TTLCache.contains (World.monotonic (world (tick st)))
    (cache_key tracking_number (Some c)) (cache st) = false ->
  exists adapter st',
    get_carrier getenv DHLCarrier AmazonCarrier c = Some adapter
    /\ track_package getenv DHLCarrier AmazonCarrier world format_carrier
         tracking_number (Some c) st
       = (Return (delivered_response false
                    (BaseCarrier.track adapter tracking_number (world (tick st)))),
          st')
    /\ calls st' = (calls st ++ [TrackCall c tracking_number])%list.
Proof.
  intros Hreach Hin Hmiss.
  destruct (reachable_invariant getenv DHLCarrier AmazonCarrier world format_carrier
              st Hreach) as (Hmax & _).
  assert (Hsurvives : hit_survives (world (tick st))
                        (cache_key tracking_number (Some c)) (cache st)).
  { intros l Hl Hlt. exfalso. unfold TTLCache.contains in Hmiss.
    rewrite Hl in Hmiss. apply Z.ltb_ge in Hmiss. lia. }
  destruct (track_package_paths getenv DHLCarrier AmazonCarrier world format_carrier
              tracking_number (Some c) st Hsurvives)
    as (r & st' & Hrun & _ & Hpath).
  cbv zeta in Hpath. cbn [resolved_carrier detection_calls was_detected] in Hpath.
  rewrite app_nil_r in Hpath.
  assert (Hget : exists adapter,
             get_carrier getenv DHLCarrier AmazonCarrier c = Some adapter).
  { simpl in Hin. destruct Hin as [<- | [<- | [<- | [<- | [<- | []]]]]];
      eexists; reflexivity. }
  destruct Hget as (adapter & Hget).
  exists adapter, st'. split; [assumption |].
  destruct Hpath as [(l & Hfind & Hlive & _) | (_ & Hpath)].
  { exfalso. unfold TTLCache.contains in Hmiss. rewrite Hfind in Hmiss.
    apply Z.ltb_ge in Hmiss. lia. }
  destruct Hpath as [(Hu & _) | [(_ & Hnone & _) | Hcall]].
  - exfalso. subst c. simpl in Hin. intuition discriminate.
  - congruence.
  - destruct Hcall as (_ & adapter' & Hget' & Hcalls & Hout).
    assert (adapter' = adapter) by congruence. subst adapter'.
    split; [| assumption]. rewrite Hrun. f_equal. f_equal.
    destruct Hout as [(e & -> & -> & _) | [(-> & -> & _) | (p & -> & Hstore)]];
      [reflexivity | reflexivity |].
    cbv zeta in Hstore.
    destruct (setitem_stores
                (World.monotonic_store (world (tick st)))
                (cache_key tracking_number (Some c))
                (Package.set_carrier_detected false p)
                (cache st)) as (c' & Hs & _); [lia |].
    rewrite Hs in Hstore. destruct Hstore as [-> _]. reflexivity.
Qed.

Lemma explicit_carrier_dispatch_witness :
  exists adapter st',
    get_carrier Demo.no_env Demo.dhl Demo.amazon CarrierType.USPS = Some adapter
    /\ track_package Demo.no_env Demo.dhl Demo.amazon Demo.world Demo.format_carrier
         "no such number" (Some CarrierType.USPS) init
       = (Return (delivered_response false
                    (BaseCarrier.track adapter "no such number"
                       (Demo.world (tick init)))),
          st')
    /\ calls st' = (calls init ++ [TrackCall CarrierType.USPS "no such number"])%list.
Proof.
  apply (explicit_carrier_dispatch Demo.no_env Demo.dhl Demo.amazon Demo.world
           Demo.format_carrier "no such number" CarrierType.USPS init).
  - apply reachable_init.
  - simpl. left. reflexivity.
  - reflexivity.
Defined.
